(** * cam_check_project: the transcription server [app/main.py]

    A shallow embedding of the audio framing helpers, the recognition
    adapter's resampling step, the speaker assignment and the two session
    handlers (HTTP [/transcribe] and WebSocket [/ws]) of [src/app/main.py],
    with the properties of its specification; then the model loaders and
    the JavaScript of the recording page the same file serves, with
    further properties of the code: what the encoder accepts, what the
    decoder reads, what reaches the engine, and how the page and the
    server fit together.

    Conventions.
    - Python [int] is [Z]; [bytes] is [list byte]; [str] is [string]
      (its UTF-8 bytes).
    - Python [float] and numpy [float64] are IEEE-754 binary64 values,
      numpy [float32] binary32 values, both as [spec_float] with the
      operations of the standard library's [SpecFloat], which compute.
    - A Python call that may raise returns a [result]; the exceptions the
      handlers tell apart are the constructors of [exn].
    - The speech engine (faster-whisper) and the transport (the ASGI
      server) are not part of the repository: they are section variables,
      and so is the room the interpreter's recursion limit leaves to
      [json.loads] where the handler calls it.
    - The libraries the code calls are modelled from their sources:
      [wave], [chunk], [struct] and [json] as in CPython 3.11, [int()]
      with the character tables of Unicode 14.0.0, and the [receive] of
      Starlette's [WebSocket]. *)

From Stdlib Require Import ZArith List Bool String Ascii Lia.
From Stdlib Require Import Floats.SpecFloat.
From Stdlib Require Strings.Byte.
From Stdlib Require DecimalString DecimalPos.
Import ListNotations.
Local Open Scope Z_scope.

(* ------------------------------------------------------------------ *)
(** ** Exceptions and the error monad *)

Inductive exn : Type :=
| HTTPException (status_code : Z) (detail : string)
| WaveError (msg : string)          (* wave.Error *)
| EOFError
| StructError (msg : string)        (* struct.error *)
| RuntimeError (msg : string)
| RecursionError (msg : string)
| ValueError (msg : string)
| ZeroDivisionError
| OverflowError
| TypeError
| WebSocketDisconnect
| OtherException (msg : string).    (* anything an external service raises *)

Inductive result (A : Type) : Type :=
| Ok (a : A)
| Raise (e : exn).
Arguments Ok {A} a.
Arguments Raise {A} e.

Definition bind {A B} (r : result A) (k : A -> result B) : result B :=
  match r with
  | Ok a => k a
  | Raise e => Raise e
  end.

Declare Scope py_scope.
Delimit Scope py_scope with py.
Notation "x <- c ;; k" := (bind c (fun x => k))
  (at level 61, c at next level, right associativity) : py_scope.
Notation "' p <- c ;; k" := (bind c (fun x => let 'p := x in k))
  (at level 61, p pattern, c at next level, right associativity) : py_scope.
Local Open Scope py_scope.

(** [str(e)], as far as the handlers use it. *)
Definition str_exn (e : exn) : string :=
  match e with
  | HTTPException _ d => d
  | WaveError m => m
  | EOFError => EmptyString
  | StructError m => m
  | RuntimeError m => m
  | RecursionError m => m
  | ValueError m => m
  | ZeroDivisionError => "division by zero"
  | OverflowError => "cannot convert float infinity to integer"
  | TypeError => EmptyString
  | WebSocketDisconnect => EmptyString
  | OtherException m => m
  end.

Definition is_HTTPException (e : exn) : bool :=
  match e with HTTPException _ _ => true | _ => false end.

(** [str(n)] and [repr(n)] of an [int]. *)
Definition str_int (n : Z) : string :=
  DecimalString.NilZero.string_of_int (Z.to_int n).

(** The double quote character, and a word between double quotes. *)
Definition dquote : string := String "034"%char EmptyString.
Definition quoted (s : string) : string := (dquote ++ s ++ dquote)%string.

(* ------------------------------------------------------------------ *)
(** ** Bytes and [struct] *)

Definition byte : Set := Byte.byte.
Definition bytes := list byte.

Definition byte_to_Z (b : byte) : Z := Z.of_N (Byte.to_N b).

Definition byte_of_Z (z : Z) : byte :=
  match Byte.of_N (Z.to_N (z mod 256)) with
  | Some b => b
  | None => Byte.x00
  end.

Definition bytes_of_string (s : string) : bytes := list_byte_of_string s.

Definition len {A} (l : list A) : Z := Z.of_nat (List.length l).

(** Python slicing [b[:n]] and [b[n:]] for [n >= 0]. *)
Definition take {A} (n : Z) (l : list A) : list A := firstn (Z.to_nat n) l.
Definition drop {A} (n : Z) (l : list A) : list A := skipn (Z.to_nat n) l.

Module struct.

(** The exception of a value that does not fit its field: the range
    message, or the overflow message when the value does not even fit an
    unsigned C long. *)
Definition range_error (requires : string) (v : Z) : exn :=
  if (0 <=? v) && (v <? 18446744073709551616)
  then StructError requires
  else StructError "argument out of range".

(** [struct.pack('<H', v)] *)
Definition pack_H (v : Z) : result bytes :=
  if (0 <=? v) && (v <? 65536)
  then Ok [byte_of_Z v; byte_of_Z (v / 256)]
  else Raise (range_error "'H' format requires 0 <= number <= 65535" v).

(** [struct.pack('<L', v)] *)
Definition pack_L (v : Z) : result bytes :=
  if (0 <=? v) && (v <? 4294967296)
  then Ok [byte_of_Z v; byte_of_Z (v / 256);
           byte_of_Z (v / 65536); byte_of_Z (v / 16777216)]
  else Raise (range_error "'L' format requires 0 <= number <= 4294967295" v).

(** [struct.unpack_from('<H', b)[0]]: the buffer may be longer. *)
Definition unpack_H (b : bytes) : result Z :=
  match b with
  | b0 :: b1 :: _ => Ok (byte_to_Z b0 + 256 * byte_to_Z b1)
  | _ => Raise (StructError "unpack_from requires a buffer of at least 2 bytes")
  end.

(** [struct.unpack_from('<L', b)[0]] *)
Definition unpack_L (b : bytes) : result Z :=
  match b with
  | b0 :: b1 :: b2 :: b3 :: _ =>
      Ok (byte_to_Z b0 + 256 * byte_to_Z b1
          + 65536 * byte_to_Z b2 + 16777216 * byte_to_Z b3)
  | _ => Raise (StructError "unpack_from requires a buffer of at least 4 bytes")
  end.

(** [struct.unpack_from('<h', ...)]: a signed 16-bit sample, as
    [np.frombuffer(..., dtype=np.int16)] reads each pair of bytes. *)
Definition int16_of (lo hi : byte) : Z :=
  let u := byte_to_Z lo + 256 * byte_to_Z hi in
  if u <? 32768 then u else u - 65536.

End struct.

(* ------------------------------------------------------------------ *)
(** ** [io.BytesIO] and the RIFF chunk reader of CPython 3.11

    [wave] reads a file through two nested [Chunk] objects: the outer RIFF
    chunk over the [BytesIO], and one inner chunk at a time over the RIFF
    chunk.  Each keeps its own [size_read]; the positions stay in step, so
    the model keeps the file content once and the positions apart. *)

Module chunk.

(** The outer (RIFF) chunk over a [BytesIO] whose content is [content].
    The [BytesIO] position is always [offset + size_read] with
    [offset = 8]. *)
Record RiffChunk := mkRiff {
  content : bytes;        (* the whole file *)
  chunkname : bytes;
  chunksize : Z;
  size_read : Z }.

(** [BytesIO.read(size)] at position [pos] (nothing past the end). *)
Definition file_read (content : bytes) (pos size : Z) : bytes :=
  take size (drop pos content).

(** [Chunk.__init__(file, bigendian=0)] on a fresh [BytesIO]. *)
Definition open_riff (content : bytes) : result RiffChunk :=
  let name := file_read content 0 4 in
  if len name <? 4 then Raise EOFError else
  match struct.unpack_L (file_read content 4 4) with
  | Raise _ => Raise EOFError
  | Ok size => Ok (mkRiff content name size 0)
  end.

(** [Chunk.read(size)] for [size >= 0], with the alignment byte. *)
Definition riff_read (r : RiffChunk) (size : Z) : bytes * RiffChunk :=
  if chunksize r <=? size_read r then ([], r) else
  let size := Z.min size (chunksize r - size_read r) in
  let data := file_read (content r) (8 + size_read r) size in
  let sr := size_read r + len data in
  let sr :=
    if (sr =? chunksize r) && Z.odd (chunksize r)
    then sr + len (file_read (content r) (8 + sr) 1)
    else sr in
  (data, mkRiff (content r) (chunkname r) (chunksize r) sr).

(** [Chunk.seek(n, 1)]: relative seek, [RuntimeError] outside the chunk. *)
Definition riff_seek_rel (r : RiffChunk) (n : Z) : result RiffChunk :=
  let pos := n + size_read r in
  if (pos <? 0) || (chunksize r <? pos) then Raise (RuntimeError EmptyString)
  else Ok (mkRiff (content r) (chunkname r) (chunksize r) pos).

(** An inner chunk; its file is the RIFF chunk. *)
Record Chunk := mkChunk {
  c_name : bytes;
  c_size : Z;
  c_read : Z }.

(** [Chunk.__init__(riff, bigendian=0)] *)
Definition open_chunk (r : RiffChunk) : result (Chunk * RiffChunk) :=
  let '(name, r) := riff_read r 4 in
  if len name <? 4 then Raise EOFError else
  let '(szb, r) := riff_read r 4 in
  match struct.unpack_L szb with
  | Raise _ => Raise EOFError
  | Ok size => Ok (mkChunk name size 0, r)
  end.

(** [Chunk.read(size)] of an inner chunk, [size >= 0]. *)
Definition chunk_read (c : Chunk) (r : RiffChunk) (size : Z)
  : bytes * Chunk * RiffChunk :=
  if c_size c <=? c_read c then ([], c, r) else
  let size := Z.min size (c_size c - c_read c) in
  let '(data, r) := riff_read r size in
  let cr := c_read c + len data in
  if (cr =? c_size c) && Z.odd (c_size c)
  then let '(dummy, r) := riff_read r 1 in
       (data, mkChunk (c_name c) (c_size c) (cr + len dummy), r)
  else (data, mkChunk (c_name c) (c_size c) cr, r).

(** [Chunk.skip()] of an inner chunk: the RIFF chunk is seekable, so it
    is one relative seek. *)
Definition chunk_skip (c : Chunk) (r : RiffChunk) : result RiffChunk :=
  let n := c_size c - c_read c in
  let n := if Z.odd (c_size c) then n + 1 else n in
  riff_seek_rel r n.

End chunk.

(* ------------------------------------------------------------------ *)
(** ** The [wave] module of CPython 3.11, as far as [main.py] drives it *)

Module wave.

Definition WAVE_FORMAT_PCM : Z := 1.

(** *** [Wave_write] over a fresh [BytesIO] *)

Record Wave_write := mkWrite {
  w_file : bytes;
  w_nchannels : Z;
  w_sampwidth : Z;
  w_framerate : Z;
  w_nframes : Z;
  w_datawritten : Z;
  w_datalength : Z;
  w_headerwritten : bool }.

(** A method either returns or raises, and leaves the object in some
    state either way ([close] runs on that state). *)
Definition method := Wave_write -> option exn * Wave_write.

Definition seq (m1 m2 : method) : method :=
  fun w => match m1 w with
           | (None, w') => m2 w'
           | (Some e, w') => (Some e, w')
           end.

Definition initfp : Wave_write := mkWrite [] 0 0 0 0 0 0 false.

Definition set_file (w : Wave_write) (f : bytes) : Wave_write :=
  mkWrite f (w_nchannels w) (w_sampwidth w) (w_framerate w) (w_nframes w)
          (w_datawritten w) (w_datalength w) (w_headerwritten w).

Definition setnchannels (nchannels : Z) : method := fun w =>
  if negb (w_datawritten w =? 0)
  then (Some (WaveError "cannot change parameters after starting to write"), w)
  else if nchannels <? 1 then (Some (WaveError "bad # of channels"), w)
  else (None, mkWrite (w_file w) nchannels (w_sampwidth w) (w_framerate w)
                (w_nframes w) (w_datawritten w) (w_datalength w)
                (w_headerwritten w)).

Definition setsampwidth (sampwidth : Z) : method := fun w =>
  if negb (w_datawritten w =? 0)
  then (Some (WaveError "cannot change parameters after starting to write"), w)
  else if (sampwidth <? 1) || (4 <? sampwidth)
  then (Some (WaveError "bad sample width"), w)
  else (None, mkWrite (w_file w) (w_nchannels w) sampwidth (w_framerate w)
                (w_nframes w) (w_datawritten w) (w_datalength w)
                (w_headerwritten w)).

(** [framerate] is an [int] here, so [int(round(framerate))] is itself. *)
Definition setframerate (framerate : Z) : method := fun w =>
  if negb (w_datawritten w =? 0)
  then (Some (WaveError "cannot change parameters after starting to write"), w)
  else if framerate <=? 0 then (Some (WaveError "bad frame rate"), w)
  else (None, mkWrite (w_file w) (w_nchannels w) (w_sampwidth w) framerate
                (w_nframes w) (w_datawritten w) (w_datalength w)
                (w_headerwritten w)).

(** [struct.pack('<L4s4sLHHLLHH4s', ...)] of [_write_header]. *)
Definition pack_header (datalength nchannels framerate sampwidth : Z)
  : result bytes :=
  form <- struct.pack_L (36 + datalength) ;;
  sixteen <- struct.pack_L 16 ;;
  tag <- struct.pack_H WAVE_FORMAT_PCM ;;
  nch <- struct.pack_H nchannels ;;
  rate <- struct.pack_L framerate ;;
  avg <- struct.pack_L (nchannels * framerate * sampwidth) ;;
  align <- struct.pack_H (nchannels * sampwidth) ;;
  bits <- struct.pack_H (sampwidth * 8) ;;
  Ok (form ++ bytes_of_string "WAVE" ++ bytes_of_string "fmt "
      ++ sixteen ++ tag ++ nch ++ rate ++ avg ++ align ++ bits
      ++ bytes_of_string "data").

Definition _write_header (initlength : Z) : method := fun w =>
  let file := w_file w ++ bytes_of_string "RIFF" in
  let nframes :=
    if w_nframes w =? 0
    then initlength / (w_nchannels w * w_sampwidth w)
    else w_nframes w in
  let datalength := nframes * w_nchannels w * w_sampwidth w in
  let w1 := mkWrite file (w_nchannels w) (w_sampwidth w) (w_framerate w)
                    nframes (w_datawritten w) datalength false in
  match pack_header datalength (w_nchannels w) (w_framerate w)
                    (w_sampwidth w) with
  | Raise e => (Some e, w1)
  | Ok hdr =>
      let file := file ++ hdr in
      match struct.pack_L datalength with
      | Raise e => (Some e, set_file w1 file)
      | Ok dl =>
          (None, mkWrite (file ++ dl) (w_nchannels w) (w_sampwidth w)
                   (w_framerate w) nframes (w_datawritten w) datalength true)
      end
  end.

Definition _ensure_header_written (datasize : Z) : method := fun w =>
  if w_headerwritten w then (None, w)
  else if w_nchannels w =? 0
  then (Some (WaveError "# channels not specified"), w)
  else if w_sampwidth w =? 0
  then (Some (WaveError "sample width not specified"), w)
  else if w_framerate w =? 0
  then (Some (WaveError "sampling rate not specified"), w)
  else _write_header datasize w.

(** [file.seek(pos); file.write(b)] inside the existing content. *)
Definition overwrite (file : bytes) (pos : Z) (b : bytes) : bytes :=
  take pos file ++ b ++ drop (pos + len b) file.

(** [_form_length_pos] is 4 and [_data_length_pos] is 40: the header is
    the first thing written to the empty [BytesIO]. *)
Definition _patchheader : method := fun w =>
  if w_datawritten w =? w_datalength w then (None, w) else
  match struct.pack_L (36 + w_datawritten w) with
  | Raise e => (Some e, w)
  | Ok form =>
      let file := overwrite (w_file w) 4 form in
      match struct.pack_L (w_datawritten w) with
      | Raise e => (Some e, set_file w file)
      | Ok dl =>
          (None, mkWrite (overwrite file 40 dl) (w_nchannels w)
                   (w_sampwidth w) (w_framerate w) (w_nframes w)
                   (w_datawritten w) (w_datawritten w) (w_headerwritten w))
      end
  end.

Definition writeframesraw (data : bytes) : method :=
  seq (_ensure_header_written (len data))
      (fun w => (None, mkWrite (w_file w ++ data) (w_nchannels w)
                         (w_sampwidth w) (w_framerate w) (w_nframes w)
                         (w_datawritten w + len data) (w_datalength w)
                         (w_headerwritten w))).

Definition writeframes (data : bytes) : method :=
  seq (writeframesraw data)
      (fun w => if w_datalength w =? w_datawritten w then (None, w)
                else _patchheader w).

Definition close : method :=
  seq (_ensure_header_written 0)
      (fun w => if w_datalength w =? w_datawritten w then (None, w)
                else _patchheader w).

(** [with wave.open(buf, 'wb') as wf: body]: [close] runs on exit
    whether or not the body raised, and an exception of [close] replaces
    the body's.  The result is the content left in the [BytesIO]. *)
Definition with_open_wb (body : method) : result bytes :=
  let '(e1, w1) := body initfp in
  let '(e2, w2) := close w1 in
  match e2, e1 with
  | Some e, _ => Raise e
  | None, Some e => Raise e
  | None, None => Ok (w_file w2)
  end.

(** *** [Wave_read] *)

Record Wave_read := mkRead {
  nchannels : Z;
  sampwidth : Z;
  framerate : Z;
  framesize : Z;
  nframes : Z;
  data_chunk : chunk.Chunk;
  riff : chunk.RiffChunk }.

Record fmt := mkFmt {
  f_nchannels : Z; f_framerate : Z; f_sampwidth : Z; f_framesize : Z }.

(** [struct.unpack_from('<HHLLH', b)]: format tag, channels, frame rate
    (the two trailing fields are read and dropped). *)
Definition unpack_fmt (b : bytes) : result (Z * Z * Z) :=
  if len b <? 14
  then Raise (StructError "unpack_from requires a buffer of at least 14 bytes")
  else
  tag <- struct.unpack_H b ;;
  nch <- struct.unpack_H (drop 2 b) ;;
  rate <- struct.unpack_L (drop 4 b) ;;
  Ok (tag, nch, rate).

Definition _read_fmt_chunk (c : chunk.Chunk) (r : chunk.RiffChunk)
  : result (fmt * chunk.Chunk * chunk.RiffChunk) :=
  let '(b, c, r) := chunk.chunk_read c r 14 in
  match unpack_fmt b with
  | Raise _ => Raise EOFError
  | Ok (wFormatTag, nch, rate) =>
      if wFormatTag =? WAVE_FORMAT_PCM then
        let '(b2, c, r) := chunk.chunk_read c r 2 in
        match struct.unpack_H b2 with
        | Raise _ => Raise EOFError
        | Ok bits =>
            let sw := (bits + 7) / 8 in
            if sw =? 0 then Raise (WaveError "bad sample width")
            else if nch =? 0 then Raise (WaveError "bad # of channels")
            else Ok (mkFmt nch rate sw (nch * sw), c, r)
        end
      else Raise (WaveError ("unknown format: " ++ str_int wFormatTag)%string)
  end.

(** The [while 1] loop of [Wave_read.initfp]: every round reads an
    8-byte chunk header, so [fuel] rounds are enough when [fuel] exceeds
    the file length. *)
Fixpoint read_chunks (fuel : nat) (r : chunk.RiffChunk) (f : option fmt)
  : result (option fmt * option (chunk.Chunk * chunk.RiffChunk)) :=
  match fuel with
  | O => Ok (f, None)
  | S fuel =>
      match chunk.open_chunk r with
      | Raise _ => Ok (f, None)                          (* EOFError: break *)
      | Ok (c, r) =>
          if list_eq_dec Byte.byte_eq_dec (chunk.c_name c)
               (bytes_of_string "fmt ") then
            '(f', c, r) <- _read_fmt_chunk c r ;;
            r <- chunk.chunk_skip c r ;;
            read_chunks fuel r (Some f')
          else if list_eq_dec Byte.byte_eq_dec (chunk.c_name c)
                    (bytes_of_string "data") then
            match f with
            | None => Raise (WaveError "data chunk before fmt chunk")
            | Some _ => Ok (f, Some (c, r))
            end
          else
            r <- chunk.chunk_skip c r ;;
            read_chunks fuel r f
      end
  end.

(** [Wave_read.initfp] with [fuel] rounds for its loop. *)
Definition open_rb_fuel (fuel : nat) (wav_bytes : bytes) : result Wave_read :=
  r <- chunk.open_riff wav_bytes ;;
  if negb (if list_eq_dec Byte.byte_eq_dec (chunk.chunkname r)
                (bytes_of_string "RIFF") then true else false)
  then Raise (WaveError "file does not start with RIFF id") else
  let '(form, r) := chunk.riff_read r 4 in
  if negb (if list_eq_dec Byte.byte_eq_dec form (bytes_of_string "WAVE")
           then true else false)
  then Raise (WaveError "not a WAVE file") else
  res <- read_chunks fuel r None ;;
  match res with
  | (Some f, Some (c, r)) =>
      Ok (mkRead (f_nchannels f) (f_sampwidth f) (f_framerate f)
                 (f_framesize f) (chunk.c_size c / f_framesize f) c r)
  | _ => Raise (WaveError "fmt chunk and/or data chunk missing")
  end.

(** [wave.open(io.BytesIO(wav_bytes), 'rb')] *)
Definition open_rb (wav_bytes : bytes) : result Wave_read :=
  open_rb_fuel (S (List.length wav_bytes)) wav_bytes.

(** [Wave_read.readframes(n)]; no seek is pending after [open_rb]. *)
Definition readframes (wf : Wave_read) (n : Z) : bytes :=
  if n =? 0 then [] else
  let '(data, _, _) :=
    chunk.chunk_read (data_chunk wf) (riff wf) (n * framesize wf) in
  data.

End wave.

(* ------------------------------------------------------------------ *)
(** ** Floating point: binary32 ([np.float32]) and binary64 ([float]) *)

Module F32.
Definition prec : Z := 24.
Definition emax : Z := 128.
(** An integer converted to [float32], rounding to nearest even. *)
Definition of_Z (z : Z) : spec_float := binary_normalize prec emax z 0 false.
Definition div : spec_float -> spec_float -> spec_float := SFdiv prec emax.
Definition leb : spec_float -> spec_float -> bool := SFleb.
(** [x.astype(np.float32)] of a binary64 value. *)
Definition of_f64 (x : spec_float) : spec_float :=
  match x with
  | S754_finite s m e => binary_round prec emax s m e
  | _ => x
  end.
End F32.

Module F64.
Definition prec : Z := 53.
Definition emax : Z := 1024.
Definition of_Z (z : Z) : spec_float := binary_normalize prec emax z 0 false.
Definition add : spec_float -> spec_float -> spec_float := SFadd prec emax.
Definition sub : spec_float -> spec_float -> spec_float := SFsub prec emax.
Definition mul : spec_float -> spec_float -> spec_float := SFmul prec emax.
Definition div : spec_float -> spec_float -> spec_float := SFdiv prec emax.
Definition ltb : spec_float -> spec_float -> bool := SFltb.
Definition leb : spec_float -> spec_float -> bool := SFleb.
Definition eqb : spec_float -> spec_float -> bool := SFeqb.
Definition zero : spec_float := S754_zero false.

Definition is_nan (x : spec_float) : bool :=
  match x with S754_nan => true | _ => false end.
Definition is_finite (x : spec_float) : bool :=
  match x with S754_zero _ | S754_finite _ _ _ => true | _ => false end.

(** A binary32 value as the same binary64 value (exact). *)
Definition of_f32 (x : spec_float) : spec_float :=
  match x with
  | S754_finite s m e => binary_round prec emax s m e
  | _ => x
  end.

(** A Python [int] as a float operand: the mantissa is the integer
    itself, so a quotient of two of them is rounded once, as Python's
    true division of integers is. *)
Definition of_int (z : Z) : spec_float :=
  match z with
  | Z0 => S754_zero false
  | Zpos p => S754_finite false p 0
  | Zneg p => S754_finite true p 0
  end.

(** Truncation toward zero of a finite float. *)
Definition trunc (x : spec_float) : Z :=
  match x with
  | S754_finite s m e =>
      let a := match e with
               | Zneg p => Z.shiftr (Zpos m) (Zpos p)
               | _ => Z.shiftl (Zpos m) e
               end in
      if s then - a else a
  | _ => 0
  end.
End F64.

(* ------------------------------------------------------------------ *)
(** ** [main.py]: utils *)

(** [np.frombuffer(raw, dtype=np.int16)]: little-endian pairs; a buffer
    of odd length is refused. *)
Fixpoint frombuffer_int16 (raw : bytes) : result (list Z) :=
  match raw with
  | [] => Ok []
  | [_] => Raise (ValueError "buffer size must be a multiple of element size")
  | lo :: hi :: rest =>
      xs <- frombuffer_int16 rest ;;
      Ok (struct.int16_of lo hi :: xs)
  end.

(** One element of [pcm16.astype(np.float32) / 32768.0]. *)
Definition normalize (x : Z) : spec_float :=
  F32.div (F32.of_Z x) (F32.of_Z 32768).

Definition pcm16_to_wav_bytes (pcm : bytes) (sample_rate : Z) : result bytes :=
  wave.with_open_wb
    (wave.seq (wave.setnchannels 1)
    (wave.seq (wave.setsampwidth 2)
    (wave.seq (wave.setframerate sample_rate)
              (wave.writeframes pcm)))).

Definition wav_bytes_to_float_np (wav_bytes : bytes)
  : result (list spec_float * Z) :=
  wf <- wave.open_rb wav_bytes ;;
  if negb (wave.nchannels wf =? 1) || negb (wave.sampwidth wf =? 2)
  then Raise (HTTPException 400 "Expect mono 16-bit WAV") else
  let sr := wave.framerate wf in
  let raw := wave.readframes wf (wave.nframes wf) in
  pcm16 <- frombuffer_int16 raw ;;
  if len pcm16 =? 0 then Ok ([], sr) else
  Ok (map normalize pcm16, sr).

(* ------------------------------------------------------------------ *)
(** ** Python and numpy arithmetic used by [run_whisper] *)

(** [a / b] on two [int]s. *)
Definition py_truediv (a b : Z) : result spec_float :=
  if b =? 0 then Raise ZeroDivisionError else
  match F64.div (F64.of_int a) (F64.of_int b) with
  | S754_infinity _ => Raise OverflowError
  | q => Ok q
  end.

(** [int(x)] on a [float]. *)
Definition py_int_of_float (x : spec_float) : result Z :=
  match x with
  | S754_nan => Raise (ValueError "cannot convert float NaN to integer")
  | S754_infinity _ => Raise OverflowError
  | _ => Ok (F64.trunc x)
  end.

(** [max(a, b)] and [min(a, b)] on floats: the second argument wins only
    when the comparison [b > a] (resp. [b < a]) is true. *)
Definition py_max (a b : spec_float) : spec_float :=
  if F64.ltb a b then b else a.
Definition py_min (a b : spec_float) : spec_float :=
  if F64.ltb b a then b else a.

Module np.

(** [np.arange(0, num)] as float64. *)
Definition arange (num : Z) : list spec_float :=
  map (fun i => F64.of_Z (Z.of_nat i)) (List.seq 0 (Z.to_nat num)).

(** [np.linspace(0, stop, num=num, endpoint=False)] for [num >= 0]. *)
Definition linspace (stop : spec_float) (num : Z) : list spec_float :=
  let start := F64.zero in
  let delta := F64.sub stop start in
  let div := F64.of_Z num in
  let y := arange num in
  let y :=
    if 0 <? num then
      let step := F64.div delta div in
      if F64.eqb step F64.zero
      then map (fun v => F64.mul (F64.div v div) delta) y
      else map (fun v => F64.mul v step) y
    else map (fun v => F64.mul v delta) y in
  map (fun v => F64.add v start) y.

(** The interval of [xp] holding [x]: the last index [j] with
    [xp[j] <= x], for ascending [xp] ([j] counts from [j0]). *)
Fixpoint search (x : spec_float) (xp : list spec_float) (j0 : nat)
  : option nat :=
  match xp with
  | [] => None
  | p :: rest =>
      if F64.leb p x then
        match search x rest (S j0) with
        | Some j => Some j
        | None => Some j0
        end
      else None
  end.

Definition nth_f (l : list spec_float) (j : nat) : spec_float :=
  nth j l S754_nan.

(** One output element of [np.interp(x, xp, fp)], [xp] ascending and not
    empty: the end values outside the range, [fp[j]] at a knot, else the
    chord through the neighbouring knots (recomputed from the right knot
    when the left one gives NaN). *)
Definition interp1 (xp fp : list spec_float) (x : spec_float)
  : spec_float :=
  if F64.is_nan x then x else
  let n := List.length xp in
  match search x xp 0 with
  | None => nth_f fp 0
  | Some j =>
      if Nat.eqb (S j) n then
        (if F64.ltb (nth_f xp j) x then nth_f fp (n - 1) else nth_f fp j)
      else if F64.eqb (nth_f xp j) x then nth_f fp j
      else
        let slope := F64.div (F64.sub (nth_f fp (S j)) (nth_f fp j))
                             (F64.sub (nth_f xp (S j)) (nth_f xp j)) in
        let r := F64.add (F64.mul slope (F64.sub x (nth_f xp j)))
                         (nth_f fp j) in
        if F64.is_nan r then
          let r' := F64.add (F64.mul slope (F64.sub x (nth_f xp (S j))))
                            (nth_f fp (S j)) in
          if F64.is_nan r' && F64.eqb (nth_f fp j) (nth_f fp (S j))
          then nth_f fp j else r'
        else r
  end.

(** [np.interp(x, xp, fp)]: one value per element of [x]. *)
Definition interp (x xp fp : list spec_float) : list spec_float :=
  map (interp1 xp fp) x.

(** [a.astype(np.float32)] *)
Definition astype_float32 (a : list spec_float) : list spec_float :=
  map F32.of_f64 a.

End np.

(* ------------------------------------------------------------------ *)
(** ** [str] helpers *)

(** [needle in hay] *)
Fixpoint contains (needle hay : string) : bool :=
  if String.prefix needle hay then true
  else match hay with
       | EmptyString => false
       | String _ rest => contains needle rest
       end.

(** The UTF-8 encodings of the code points [str.isspace] accepts. *)
Definition whitespace : list string :=
  map string_of_list_byte
    (map (map byte_of_Z)
      [[9]; [10]; [11]; [12]; [13]; [28]; [29]; [30]; [31]; [32];
       [194; 133]; [194; 160]; [225; 154; 128];
       [226; 128; 128]; [226; 128; 129]; [226; 128; 130]; [226; 128; 131];
       [226; 128; 132]; [226; 128; 133]; [226; 128; 134]; [226; 128; 135];
       [226; 128; 136]; [226; 128; 137]; [226; 128; 138];
       [226; 128; 168]; [226; 128; 169]; [226; 128; 175];
       [226; 129; 159]; [227; 128; 128]]).

Fixpoint drop_prefix (p s : string) : option string :=
  match p, s with
  | EmptyString, _ => Some s
  | String a p', String b s' =>
      if Ascii.eqb a b then drop_prefix p' s' else None
  | _, EmptyString => None
  end.

Definition drop_one_of (ps : list string) (s : string) : option string :=
  fold_right (fun p acc => match drop_prefix p s with
                           | Some r => Some r
                           | None => acc
                           end) None ps.

Definition nonempty (s : string) : bool :=
  match s with
  | EmptyString => false
  | String _ _ => true
  end.

(** Leading members of [ws] removed, at most [fuel] of them. *)
Fixpoint lstrip_fuel (fuel : nat) (ws : list string) (s : string) : string :=
  match fuel with
  | O => s
  | S fuel => match drop_one_of ws s with
              | Some r => lstrip_fuel fuel ws r
              | None => s
              end
  end.

Definition string_rev (s : string) : string :=
  string_of_list_ascii (rev (list_ascii_of_string s)).

(** [s.strip()] *)
Definition strip (s : string) : string :=
  let l := lstrip_fuel (String.length s) whitespace s in
  string_rev (lstrip_fuel (String.length l) (map string_rev whitespace)
                          (string_rev l)).

(* ------------------------------------------------------------------ *)
(** ** [main.py]: core inference *)

(** A segment as the engine yields it ([seg.start], [seg.end],
    [seg.text], the last possibly [None]). *)
Record EngineSegment := mkEngineSegment {
  es_start : spec_float;
  es_end : spec_float;
  es_text : option string }.

(** The dict of a recognition segment: keys ["start"], ["end"], ["text"]
    and, once [assign_speakers] has run, ["speaker"]. *)
Record Segment := mkSegment {
  start : spec_float;
  end' : spec_float;
  text : string;
  speaker : option string }.

(** The dict of a diarization segment. *)
Record DiarSegment := mkDiar {
  d_start : spec_float;
  d_end : spec_float;
  d_speaker : string }.

(** A loaded model: [model.transcribe(audio=..., beam_size=1, best_of=1,
    temperature=0.0)] with its segment generator run to the end. *)
Definition WhisperModel := list spec_float -> result (list EngineSegment).

Definition TARGET_SAMPLE_RATE : Z := 16000.

(** Lines 94-103 of [run_whisper]: [None] stands for the early
    [return []], otherwise the resampled audio. *)
Definition resample (audio : list spec_float) (sr : Z)
  : result (option (list spec_float)) :=
  duration <- py_truediv (len audio) sr ;;
  new_length <- py_int_of_float
                  (F64.mul duration (F64.of_Z TARGET_SAMPLE_RATE)) ;;
  if new_length <=? 0 then Ok None else
  let xp := np.linspace duration (len audio) in
  let x_new := np.linspace duration new_length in
  Ok (Some (np.astype_float32
              (np.interp x_new xp (map F64.of_f32 audio)))).

(** The loop over the engine's segments. *)
Fixpoint collect (segments : list EngineSegment) : list Segment :=
  match segments with
  | [] => []
  | seg :: rest =>
      let text := strip (match es_text seg with
                         | Some t => t
                         | None => EmptyString
                         end) in
      if String.eqb text EmptyString then collect rest
      else mkSegment (es_start seg) (es_end seg) text None :: collect rest
  end.

Definition run_diarization (wav_bytes : bytes) : list DiarSegment :=
  [mkDiar F64.zero (F64.of_Z 5) "SPEAKER_00"].

Definition overlap (a b : spec_float * spec_float) : spec_float :=
  let l := py_max (fst a) (fst b) in
  let r := py_min (snd a) (snd b) in
  py_max F64.zero (F64.sub r l).

Definition set_speaker (s : Segment) (name : string) : Segment :=
  mkSegment (start s) (end' s) (text s) (Some name).

(** The inner loop of [assign_speakers]: the state is [(best, best_ov)]. *)
Definition best_step (s : Segment)
    (acc : option DiarSegment * spec_float) (d : DiarSegment)
  : option DiarSegment * spec_float :=
  let ov := overlap (start s, end' s) (d_start d, d_end d) in
  if F64.ltb (snd acc) ov then (Some d, ov) else acc.

Definition best_overlap (s : Segment) (spk : list DiarSegment)
  : option DiarSegment * spec_float :=
  fold_left (best_step s) spk (None, F64.zero).

Definition assign_speakers (stt : list Segment) (spk : list DiarSegment)
  : list Segment :=
  match spk with
  | [] => map (fun s => set_speaker s "SPEAKER_00") stt
  | _ =>
      map (fun s =>
             match fst (best_overlap s spk) with
             | Some best => set_speaker s (d_speaker best)
             | None => set_speaker s "SPEAKER_00"
             end) stt
  end.

(** Which adapters a handler has called, in call order. *)
Inductive stage := Recognition | Diarization | Assignment.

Section Engine.

(** [get_whisper()]: the process-wide model handle, or the exception its
    construction raises. *)
Variable get_whisper : result WhisperModel.

Definition run_whisper (wav_bytes : bytes) : result (list Segment) :=
  model <- get_whisper ;;
  '(audio, sr) <- wav_bytes_to_float_np wav_bytes ;;
  if len audio =? 0 then Ok [] else
  resampled <-
    (if negb (sr =? TARGET_SAMPLE_RATE)
     then resample audio sr
     else Ok (Some audio)) ;;
  match resampled with
  | None => Ok []
  | Some audio =>
      segments <- model audio ;;
      Ok (collect segments)
  end.

(** The three calls both handlers make on the WAV bytes, with the
    stages reached. *)
Definition pipeline (wav_bytes : bytes)
  : list stage * result (list Segment) :=
  match run_whisper wav_bytes with
  | Raise e => ([Recognition], Raise e)
  | Ok stt_segments =>
      let spk_segments := run_diarization wav_bytes in
      ([Recognition; Diarization; Assignment],
       Ok (assign_speakers stt_segments spk_segments))
  end.

End Engine.

(* ------------------------------------------------------------------ *)
(** ** Python values and [json] *)

Set Warnings "-register-all".

(** What [json.loads] returns and [json.dumps] takes.  A dict is the
    list of its items in insertion order. *)
Inductive pyval : Type :=
| PNone
| PBool (b : bool)
| PInt (z : Z)
| PFloat (f : spec_float)
| PStr (s : string)
| PList (l : list pyval)
| PDict (items : list (string * pyval)).

(** [d[k] = v] *)
Fixpoint dict_set (items : list (string * pyval)) (k : string) (v : pyval)
  : list (string * pyval) :=
  match items with
  | [] => [(k, v)]
  | (k', v') :: rest =>
      if String.eqb k' k then (k, v) :: rest
      else (k', v') :: dict_set rest k v
  end.

(** [d.get(k)] as an option. *)
Fixpoint dict_get (items : list (string * pyval)) (k : string)
  : option pyval :=
  match items with
  | [] => None
  | (k', v) :: rest => if String.eqb k' k then Some v else dict_get rest k
  end.

Module json.

Definition is_ws (c : ascii) : bool :=
  match c with
  | " "%char | "009"%char | "010"%char | "013"%char => true
  | _ => false
  end.

Fixpoint skip_ws (s : string) : string :=
  match s with
  | String c rest => if is_ws c then skip_ws rest else s
  | EmptyString => s
  end.

Definition digit_val (c : ascii) : option Z :=
  let n := Z.of_nat (nat_of_ascii c) in
  if (48 <=? n) && (n <=? 57) then Some (n - 48) else None.

Definition hex_val (c : ascii) : option Z :=
  let n := Z.of_nat (nat_of_ascii c) in
  if (48 <=? n) && (n <=? 57) then Some (n - 48)
  else if (65 <=? n) && (n <=? 70) then Some (n - 55)
  else if (97 <=? n) && (n <=? 102) then Some (n - 87)
  else None.

(** A maximal run of decimal digits: its value, its length, the rest. *)
Fixpoint digits (s : string) (acc : Z) (n : Z) : Z * Z * string :=
  match s with
  | String c rest =>
      match digit_val c with
      | Some d => digits rest (10 * acc + d) (n + 1)
      | None => (acc, n, s)
      end
  | EmptyString => (acc, n, s)
  end.

(** [sys.int_info.default_max_str_digits] *)
Definition MAX_STR_DIGITS : Z := 4300.

(** The exception of an integer literal with more digits. *)
Definition digit_limit_error (digits : Z) : exn :=
  ValueError ("Exceeds the limit (" ++ str_int MAX_STR_DIGITS
              ++ " digits) for integer string conversion: value has "
              ++ str_int digits
              ++ " digits; use sys.set_int_max_str_digits() to increase"
              ++ " the limit")%string.

(** [float(text)] for the decimal [(-1)^neg * m * 10^e], rounded once. *)
Definition float_of_decimal (neg : bool) (m : Z) (e : Z) : spec_float :=
  match m with
  | Zpos p =>
      if 0 <=? e
      then binary_round F64.prec F64.emax neg (p * Z.to_pos (10 ^ e)) 0
      else F64.div (S754_finite neg p 0)
                   (S754_finite false (Z.to_pos (10 ^ (- e))) 0)
  | _ => S754_zero neg
  end.

(** The parts of a JSON number, each with the text after it: an optional
    minus sign; 0 or a digit run not starting with 0 (value and number of
    digits); optionally a dot with at least one digit; optionally e or E,
    a sign and at least one digit. *)
Definition sign_part (s : string) : bool * string :=
  match s with
  | String c r => if Ascii.eqb c "-" then (true, r) else (false, s)
  | EmptyString => (false, s)
  end.

Definition int_part (s : string) : option (Z * Z * string) :=
  match s with
  | String c r =>
      if Ascii.eqb c "0" then Some (0, 1, r)
      else match digit_val c with
           | Some _ => Some (digits s 0 0)
           | None => None
           end
  | EmptyString => None
  end.

Definition frac_part (s : string) : Z * Z * string :=
  match s with
  | String c r =>
      if Ascii.eqb c "." then
        let '(v, n, r') := digits r 0 0 in
        if n =? 0 then (0, 0, s) else (v, n, r')
      else (0, 0, s)
  | EmptyString => (0, 0, s)
  end.

Definition exp_part (s : string) : option Z * string :=
  match s with
  | String c r =>
      if Ascii.eqb c "e" || Ascii.eqb c "E" then
        let '(eneg, r1) :=
          match r with
          | String c' r' =>
              if Ascii.eqb c' "-" then (true, r')
              else if Ascii.eqb c' "+" then (false, r')
              else (false, r)
          | EmptyString => (false, r)
          end in
        let '(v, n, r') := digits r1 0 0 in
        if n =? 0 then (None, s)
        else (Some (if eneg then - v else v), r')
      else (None, s)
  | EmptyString => (None, s)
  end.

(** A JSON number at the head of [s].  An integer literal beyond the
    digit limit raises. *)
Definition number (s : string) : option (result pyval * string) :=
  let '(neg, s1) := sign_part s in
  match int_part s1 with
  | None => None
  | Some (iv, ilen, s2) =>
      let '(fv, flen, s3) := frac_part s2 in
      let '(ev, s4) := exp_part s3 in
      if (flen =? 0) && (match ev with None => true | Some _ => false end)
      then
        if MAX_STR_DIGITS <? ilen
        then Some (Raise (digit_limit_error ilen), s4)
        else Some (Ok (PInt (if neg then - iv else iv)), s4)
      else
        let e := match ev with Some v => v | None => 0 end in
        Some (Ok (PFloat (float_of_decimal neg (iv * 10 ^ flen + fv)
                                           (e - flen))), s4)
  end.

(** The (generalised) UTF-8 encoding of a code point below 0x110000. *)
Definition utf8 (cp : Z) : string :=
  let ch z := ascii_of_nat (Z.to_nat z) in
  if cp <? 128 then String (ch cp) EmptyString
  else if cp <? 2048 then
    String (ch (192 + cp / 64)) (String (ch (128 + cp mod 64)) EmptyString)
  else if cp <? 65536 then
    String (ch (224 + cp / 4096))
      (String (ch (128 + (cp / 64) mod 64))
         (String (ch (128 + cp mod 64)) EmptyString))
  else
    String (ch (240 + cp / 262144))
      (String (ch (128 + (cp / 4096) mod 64))
         (String (ch (128 + (cp / 64) mod 64))
            (String (ch (128 + cp mod 64)) EmptyString))).

(** Four hex digits after a backslash-u. *)
Definition hex4 (s : string) : option (Z * string) :=
  match s with
  | String a (String b (String c (String d rest))) =>
      match hex_val a, hex_val b, hex_val c, hex_val d with
      | Some x, Some y, Some z, Some w =>
          Some (4096 * x + 256 * y + 16 * z + w, rest)
      | _, _, _, _ => None
      end
  | _ => None
  end.

(** The character a one-letter escape stands for. *)
Definition escape_char (e : ascii) : option ascii :=
  match e with
  | "034"%char => Some "034"%char
  | "\"%char => Some "\"%char
  | "/"%char => Some "/"%char
  | "b"%char => Some "008"%char
  | "f"%char => Some "012"%char
  | "n"%char => Some "010"%char
  | "r"%char => Some "013"%char
  | "t"%char => Some "009"%char
  | _ => None
  end.

(** The low half of a surrogate pair written as a second escape, joined
    to the high half [u1]. *)
Definition low_surrogate (u1 : Z) (s : string) : option (Z * string) :=
  match s with
  | String c1 (String c2 r2) =>
      if Ascii.eqb c1 "\" && Ascii.eqb c2 "u" then
        match hex4 r2 with
        | Some (u2, r3) =>
            if (56320 <=? u2) && (u2 <=? 57343)
            then Some (65536 + (u1 - 55296) * 1024 + (u2 - 56320), r3)
            else None
        | None => None
        end
      else None
  | _ => None
  end.

(** [scanstring] in strict mode, after the opening quote: the decoded
    string and the text after the closing quote. *)
Fixpoint scanstring (fuel : nat) (s : string) : option (string * string) :=
  match fuel with
  | O => None
  | S fuel =>
      match s with
      | EmptyString => None
      | String c rest =>
          if Ascii.eqb c "034" then Some (EmptyString, rest)
          else if Ascii.eqb c "\" then
            match rest with
            | EmptyString => None
            | String e rest' =>
                if Ascii.eqb e "u" then
                  match hex4 rest' with
                  | None => None
                  | Some (u1, r1) =>
                      let '(cp, r) :=
                        match (if (55296 <=? u1) && (u1 <=? 56319)
                               then low_surrogate u1 r1 else None) with
                        | Some p => p
                        | None => (u1, r1)
                        end in
                      match scanstring fuel r with
                      | Some (t, r') => Some (String.append (utf8 cp) t, r')
                      | None => None
                      end
                  end
                else
                  match escape_char e with
                  | None => None
                  | Some ch =>
                      match scanstring fuel rest' with
                      | Some (t, r) => Some (String ch t, r)
                      | None => None
                      end
                  end
            end
          else if Nat.ltb (nat_of_ascii c) 32 then None
          else match scanstring fuel rest with
               | Some (t, r) => Some (String c t, r)
               | None => None
               end
      end
  end.

(** A string literal after its opening quote. *)
Definition string_literal (s : string) : option (string * string) :=
  scanstring (S (String.length s)) s.

Definition decode_error : exn := ValueError "JSONDecodeError".

(** The values that are neither strings, objects nor arrays: the three
    names, a number, or the three spellings of non-finite floats. *)
Definition scalar (s : string) : result (pyval * string) :=
  match drop_prefix "null" s, drop_prefix "true" s,
        drop_prefix "false" s with
  | Some r, _, _ => Ok (PNone, r)
  | _, Some r, _ => Ok (PBool true, r)
  | _, _, Some r => Ok (PBool false, r)
  | None, None, None =>
      match number s with
      | Some (Ok v, r) => Ok (v, r)
      | Some (Raise e, _) => Raise e
      | None =>
          match drop_prefix "NaN" s, drop_prefix "Infinity" s,
                drop_prefix "-Infinity" s with
          | Some r, _, _ => Ok (PFloat S754_nan, r)
          | _, Some r, _ => Ok (PFloat (S754_infinity false), r)
          | _, _, Some r => Ok (PFloat (S754_infinity true), r)
          | None, None, None => Raise decode_error
          end
      end
  end.

(** The scanner enters every object and every array through
    [Py_EnterRecursiveCall]: past the recursion limit of the interpreter
    it raises [RecursionError]. *)
Definition recursion_error (what : string) : exn :=
  RecursionError ("maximum recursion depth exceeded while decoding a JSON "
                  ++ what ++ " from a unicode string")%string.

(** [scan_once] with [JSONArray] and [JSONObject].  [array_items] starts
    at an element and [object_items] after the opening quote of a key;
    both run to the closing bracket.  [room] is the number of nested
    objects and arrays the recursion limit still allows.  [fuel] bounds
    the nesting of calls; [loads] gives two rounds per character, which
    [loads_fuel_enough] shows to be all the scanner can use. *)
Fixpoint scan_once (fuel : nat) (room : nat) (s : string)
  : result (pyval * string) :=
  match fuel with
  | O => Raise decode_error
  | S fuel =>
      match s with
      | EmptyString => Raise decode_error
      | String c rest =>
          if Ascii.eqb c "034" then
            match string_literal rest with
            | Some (t, r) => Ok (PStr t, r)
            | None => Raise decode_error
            end
          else if Ascii.eqb c "{" then
            match room with
            | O => Raise (recursion_error "object")
            | S room =>
                match skip_ws rest with
                | EmptyString => Raise decode_error
                | String c' r =>
                    if Ascii.eqb c' "}" then Ok (PDict [], r)
                    else if Ascii.eqb c' "034"
                    then object_items fuel room r []
                    else Raise decode_error
                end
            end
          else if Ascii.eqb c "[" then
            match room with
            | O => Raise (recursion_error "array")
            | S room =>
                match skip_ws rest with
                | EmptyString => Raise decode_error
                | String c' r =>
                    if Ascii.eqb c' "]" then Ok (PList [], r)
                    else array_items fuel room (String c' r) []
                end
            end
          else scalar s
      end
  end
with array_items (fuel : nat) (room : nat) (s : string) (acc : list pyval)
  : result (pyval * string) :=
  match fuel with
  | O => Raise decode_error
  | S fuel =>
      '(v, r) <- scan_once fuel room s ;;
      match skip_ws r with
      | EmptyString => Raise decode_error
      | String c r' =>
          if Ascii.eqb c "]" then Ok (PList (rev (v :: acc)), r')
          else if Ascii.eqb c ","
          then array_items fuel room (skip_ws r') (v :: acc)
          else Raise decode_error
      end
  end
with object_items (fuel : nat) (room : nat) (s : string)
    (acc : list (string * pyval)) : result (pyval * string) :=
  match fuel with
  | O => Raise decode_error
  | S fuel =>
      match string_literal s with
      | None => Raise decode_error
      | Some (key, r) =>
          match skip_ws r with
          | EmptyString => Raise decode_error
          | String c r1 =>
              if Ascii.eqb c ":" then
                '(v, r2) <- scan_once fuel room (skip_ws r1) ;;
                let acc := dict_set acc key v in
                match skip_ws r2 with
                | EmptyString => Raise decode_error
                | String c2 r3 =>
                    if Ascii.eqb c2 "}" then Ok (PDict acc, r3)
                    else if Ascii.eqb c2 "," then
                      match skip_ws r3 with
                      | EmptyString => Raise decode_error
                      | String c4 r4 =>
                          if Ascii.eqb c4 "034"
                          then object_items fuel room r4 acc
                          else Raise decode_error
                      end
                    else Raise decode_error
                end
              else Raise decode_error
          end
      end
  end.

(** [json.loads] with [fuel] rounds for the scanner. *)
Definition loads_fuel (fuel : nat) (room : nat) (text : string)
  : result pyval :=
  match drop_prefix (utf8 65279) text with
  | Some _ => Raise decode_error                      (* leading BOM *)
  | None =>
      '(v, r) <- scan_once fuel room (skip_ws text) ;;
      match skip_ws r with
      | EmptyString => Ok v
      | _ => Raise decode_error                       (* extra data *)
      end
  end.

(** [json.loads(text)], called where the recursion limit leaves [room]
    for nested objects and arrays: one at least, and about a thousand
    with the default limit. *)
Definition loads (room : positive) (text : string) : result pyval :=
  loads_fuel (S (2 * String.length text)) (Pos.to_nat room) text.

End json.

(** *** [int()] on a [str]

    [PyLong_FromUnicodeObject]: the string is first brought to ASCII, a
    space for every Unicode whitespace and the ASCII digit for every
    Unicode decimal digit; then [PyLong_FromString] reads it in base 10.
    A [str] is its UTF-8 bytes here, so the characters are decoded
    first.  The character tables are those of Unicode 14.0.0, which
    CPython 3.11 carries. *)

Definition ord (c : ascii) : Z := Z.of_nat (nat_of_ascii c).

Definition continuation (c : ascii) : bool :=
  (128 <=? ord c) && (ord c <? 192).

(** The code point of a sequence of two, three or four bytes; [None]
    when the bytes are no encoding of a character. *)
Definition utf8_2 (c0 c1 : ascii) : option Z :=
  if (194 <=? ord c0) && (ord c0 <? 224) && continuation c1
  then Some ((ord c0 - 192) * 64 + (ord c1 - 128))
  else None.

Definition utf8_3 (c0 c1 c2 : ascii) : option Z :=
  let cp := (ord c0 - 224) * 4096 + (ord c1 - 128) * 64 + (ord c2 - 128) in
  if (224 <=? ord c0) && (ord c0 <? 240) && continuation c1
     && continuation c2 && (2048 <=? cp)
  then Some cp
  else None.

Definition utf8_4 (c0 c1 c2 c3 : ascii) : option Z :=
  let cp := (ord c0 - 240) * 262144 + (ord c1 - 128) * 4096
            + (ord c2 - 128) * 64 + (ord c3 - 128) in
  if (240 <=? ord c0) && (ord c0 <? 245) && continuation c1
     && continuation c2 && continuation c3
     && (65536 <=? cp) && (cp <? 1114112)
  then Some cp
  else None.

(** [Py_UNICODE_ISSPACE] from U+007F on. *)
Definition unicode_isspace (cp : Z) : bool :=
  existsb (Z.eqb cp) [133; 160; 5760; 8232; 8233; 8239; 8287; 12288]
  || ((8192 <=? cp) && (cp <=? 8202)).

(** The digit zero of every script with decimal digits; its nine other
    digits follow it. *)
Definition DECIMAL_ZEROS : list Z :=
  [48; 1632; 1776; 1984; 2406; 2534; 2662; 2790; 2918; 3046; 3174; 3302;
   3430; 3558; 3664; 3792; 3872; 4160; 4240; 6112; 6160; 6470; 6608; 6784;
   6800; 6992; 7088; 7232; 7248; 42528; 43216; 43264; 43472; 43504; 43600;
   44016; 65296; 66720; 68912; 69734; 69872; 69942; 70096; 70384; 70736;
   70864; 71248; 71360; 71472; 71904; 72016; 72784; 73040; 73120; 92768;
   92864; 93008; 120782; 120792; 120802; 120812; 120822; 123200; 123632;
   125264; 130032].

(** [Py_UNICODE_TODECIMAL] *)
Definition unicode_todecimal (cp : Z) : option Z :=
  match find (fun zero => (zero <=? cp) && (cp <=? zero + 9)) DECIMAL_ZEROS
  with
  | Some zero => Some (cp - zero)
  | None => None
  end.

(** What a character from U+007F on becomes: a space, an ASCII digit, or
    a question mark that ends the string. *)
Definition to_ascii (cp : option Z) (rest : string) : string :=
  match cp with
  | Some cp =>
      if unicode_isspace cp then String " " rest
      else match unicode_todecimal cp with
           | Some d => String (ascii_of_nat (Z.to_nat (48 + d))) rest
           | None => "?"
           end
  | None => "?"
  end.

(** The loop of [_PyUnicode_TransformDecimalAndSpaceToASCII]; the
    characters below U+007F stay as they are. *)
Fixpoint transform_to_ascii (s : string) : string :=
  match s with
  | EmptyString => EmptyString
  | String c0 r0 =>
      if ord c0 <? 127 then String c0 (transform_to_ascii r0)
      else if ord c0 <? 224 then
        match r0 with
        | String c1 r1 => to_ascii (utf8_2 c0 c1) (transform_to_ascii r1)
        | _ => "?"
        end
      else if ord c0 <? 240 then
        match r0 with
        | String c1 (String c2 r2) =>
            to_ascii (utf8_3 c0 c1 c2) (transform_to_ascii r2)
        | _ => "?"
        end
      else
        match r0 with
        | String c1 (String c2 (String c3 r3)) =>
            to_ascii (utf8_4 c0 c1 c2 c3) (transform_to_ascii r3)
        | _ => "?"
        end
  end.

Fixpoint is_ascii (s : string) : bool :=
  match s with
  | EmptyString => true
  | String c rest => (ord c <? 128) && is_ascii rest
  end.

(** An ASCII string is returned as it is. *)
Definition TransformDecimalAndSpaceToASCII (s : string) : string :=
  if is_ascii s then s else transform_to_ascii s.

(** [Py_ISSPACE]: the six ASCII whitespace characters. *)
Definition Py_ISSPACE (c : ascii) : bool :=
  ((9 <=? ord c) && (ord c <=? 13)) || (ord c =? 32).

Fixpoint skip_spaces (s : string) : string :=
  match s with
  | String c rest => if Py_ISSPACE c then skip_spaces rest else s
  | EmptyString => s
  end.

(** The run of digits and single underscores at the head of [s]: its
    value, the number of digits and the rest; [None] for two underscores
    in a row or an underscore at the end of the run. *)
Fixpoint int_digits (s : string) (acc : Z) (n : Z) (after_underscore : bool)
  : option (Z * Z * string) :=
  match s with
  | String c rest =>
      if Ascii.eqb c "_" then
        if after_underscore then None else int_digits rest acc n true
      else
        match json.digit_val c with
        | Some d => int_digits rest (10 * acc + d) (n + 1) false
        | None => if after_underscore then None else Some (acc, n, s)
        end
  | EmptyString => if after_underscore then None else Some (acc, n, s)
  end.

(** [int(s)]: whitespace, an optional sign, digits with single
    underscores between them, whitespace.  (The message of an invalid
    literal goes on with the literal itself, which is left out here: the
    one caller discards it.) *)
Definition py_int_of_str (s : string) : result Z :=
  let bad := Raise (ValueError "invalid literal for int() with base 10") in
  let str := skip_spaces (TransformDecimalAndSpaceToASCII s) in
  let '(neg, str) :=
    match str with
    | String c r =>
        if Ascii.eqb c "+" then (false, r)
        else if Ascii.eqb c "-" then (true, r)
        else (false, str)
    | EmptyString => (false, str)
    end in
  if String.prefix "_" str then bad else
  match int_digits str 0 0 false with
  | None => bad
  | Some (v, digits, rest) =>
      if json.MAX_STR_DIGITS <? digits
      then Raise (json.digit_limit_error digits)
      else if digits =? 0 then bad
      else match skip_spaces rest with
           | EmptyString => Ok (if neg then - v else v)
           | _ => bad
           end
  end.

(** [int(x)] *)
Definition py_int (x : pyval) : result Z :=
  match x with
  | PInt z => Ok z
  | PBool b => Ok (if b then 1 else 0)
  | PFloat f => py_int_of_float f
  | PStr s => py_int_of_str s
  | PNone | PList _ | PDict _ => Raise TypeError
  end.

(* ------------------------------------------------------------------ *)
(** ** [main.py]: HTTP and WebSocket back ends *)

(** The dict a segment is when it is serialised. *)
Definition segment_to_py (s : Segment) : pyval :=
  PDict ([("start"%string, PFloat (start s)); ("end"%string, PFloat (end' s));
          ("text"%string, PStr (text s))]
         ++ match speaker s with
            | Some name => [("speaker"%string, PStr name)]
            | None => []
            end).

Definition segments_payload (final : list Segment) : pyval :=
  PList (map segment_to_py final).

(** [json.dumps(..., allow_nan=False)] refuses NaN and the infinities. *)
Fixpoint nan_free (v : pyval) : bool :=
  match v with
  | PFloat f => F64.is_finite f
  | PList l => forallb nan_free l
  | PDict items => forallb (fun kv => nan_free (snd kv)) items
  | _ => true
  end.

Record Response := mkResponse {
  status_code : Z;
  body : pyval }.

(** [JSONResponse(content)]: the body is rendered in the constructor. *)
Definition JSONResponse (content : pyval) : result Response :=
  if nan_free content then Ok (mkResponse 200 content)
  else Raise (ValueError "Out of range float values are not JSON compliant").

(** A WebSocket message as [ws.receive()] returns it: the ["bytes"] and
    ["text"] entries, [None] when the key is missing or holds [None]. *)
Record Message := mkMessage {
  m_bytes : option bytes;
  m_text : option string }.

(** What one [await ws.receive()] does. *)
Inductive Event :=
| Receive (msg : Message)
| ReceiveRaises (e : exn).

(** Starlette's [WebSocket.receive] on an accepted connection: it hands
    the server's messages on, the disconnect message too, which has no
    ["bytes"] and no ["text"] entry; once that one is received, every
    further call raises [RuntimeError].  It never raises
    [WebSocketDisconnect]. *)
Module starlette.





End starlette.

(** How the [while True] loop of [ws] was left; [Awaiting] when the
    handler is still suspended in [ws.receive()]. *)
Inductive loop_exit :=
| Break
| Raised (e : exn)
| Awaiting.

(** The session after the loop: its buffer and declared rate, the text
    frames sent, and the adapters called. *)
Record Outcome := mkOutcome {
  buffer : bytes;
  current_sr : Z;
  sent : list pyval;
  calls : list stage;
  exit : loop_exit }.

(** The end-of-stream test of line 243. *)
Definition END_FIELD : string :=
  (quoted "type" ++ ":" ++ quoted "end")%string.
Definition END_JSON : string := ("{" ++ END_FIELD ++ "}")%string.

Definition is_end (text : string) : bool :=
  String.eqb text "end" || String.eqb text END_JSON
  || contains END_FIELD text.

(** Lines 235-242: the new declared rate after a text frame holding the
    word [sampleRate]; any exception leaves it as it was. *)
Definition configure (room : positive) (text : string) (current_sr : Z)
  : Z :=
  let attempt :=
    cfg <- json.loads room text ;;
    match cfg with
    | PDict items =>
        match dict_get items "type" with
        | Some (PStr t) =>
            if String.eqb t "config" then
              sr <- py_int (match dict_get items "sampleRate" with
                            | Some v => v
                            | None => PInt current_sr
                            end) ;;
              Ok (if 0 <? sr then sr else current_sr)
            else Ok current_sr
        | _ => Ok current_sr
        end
    | _ => Ok current_sr
    end in
  match attempt with
  | Ok sr => sr
  | Raise _ => current_sr
  end.

Definition final_message (final : list Segment) : pyval :=
  PDict [("type"%string, PStr "final");
         ("segments"%string, segments_payload final)].

Definition error_message (e : exn) : pyval :=
  PDict [("type"%string, PStr "error"); ("detail"%string, PStr (str_exn e))].

Section Handlers.

Variable get_whisper : result WhisperModel.

(** [await ws.send_text(json.dumps(payload))]: whether the transport
    takes the frame. *)
Variable send_text : pyval -> result unit.

(** The room the recursion limit leaves to [json.loads] in [ws]. *)
Variable room : positive.

(** [POST /transcribe]; a raised [HTTPException] is the error reply. *)
Definition transcribe (content : bytes) : result Response :=
  let attempt :=
    if len content =? 0 then Raise (HTTPException 400 "Empty audio") else
    final <- snd (pipeline get_whisper content) ;;
    JSONResponse (PDict [("segments"%string, segments_payload final)]) in
  match attempt with
  | Ok response => Ok response
  | Raise e =>
      if is_HTTPException e then Raise e
      else Raise (HTTPException 500 (str_exn e))
  end.

(** The reply the framework builds from the handler's result. *)
Definition reply (r : result Response) : Response :=
  match r with
  | Ok response => response
  | Raise (HTTPException code detail) =>
      mkResponse code (PDict [("detail"%string, PStr detail)])
  | Raise _ => mkResponse 500 (PStr "Internal Server Error")
  end.

(** Lines 245-250: the final processing on the end-of-stream frame. *)
Definition finalize (buffer : bytes) (current_sr : Z) : Outcome :=
  match pcm16_to_wav_bytes buffer current_sr with
  | Raise e => mkOutcome buffer current_sr [] [] (Raised e)
  | Ok wav_bytes =>
      match pipeline get_whisper wav_bytes with
      | (called, Raise e) => mkOutcome buffer current_sr [] called (Raised e)
      | (called, Ok final) =>
          match send_text (final_message final) with
          | Raise e => mkOutcome buffer current_sr [] called (Raised e)
          | Ok _ =>
              mkOutcome buffer current_sr [final_message final] called Break
          end
      end
  end.

(** The [while True] loop of [ws] over the receive events to come. *)
Fixpoint ws_loop (events : list Event) (buffer : bytes) (current_sr : Z)
  : Outcome :=
  match events with
  | [] => mkOutcome buffer current_sr [] [] Awaiting
  | ReceiveRaises e :: _ => mkOutcome buffer current_sr [] [] (Raised e)
  | Receive msg :: rest =>
      match m_bytes msg, m_text msg with
      | Some (b :: bs), _ => ws_loop rest (buffer ++ b :: bs) current_sr
      | _, Some (String c t) =>
          let text := String c t in
          if contains "sampleRate" text
          then ws_loop rest buffer (configure room text current_sr)
          else if is_end text then finalize buffer current_sr
          else ws_loop rest buffer current_sr
      | _, _ => ws_loop rest buffer current_sr
      end
  end.

(** The handlers around the loop: a [WebSocketDisconnect] is passed
    over, any other exception is reported in an error frame if the
    transport still takes one; [ws.close()] follows unless the handler is
    still waiting. *)
Definition ws (events : list Event) : Outcome * bool :=
  let o := ws_loop events [] 16000 in
  match exit o with
  | Awaiting => (o, false)
  | Break => (o, true)
  | Raised WebSocketDisconnect => (o, true)
  | Raised e =>
      match send_text (error_message e) with
      | Ok _ => (mkOutcome (buffer o) (current_sr o)
                           (sent o ++ [error_message e]) (calls o) (exit o),
                 true)
      | Raise _ => (o, true)
      end
  end.

End Handlers.

(* ================================================================== *)
(** * Vocabulary of the specification

    The notions the properties below are stated with: what the
    specification calls the chosen speaker, the samples of a buffer, the
    canonical header, rounding, and the concrete files and sessions used
    as examples. *)

Definition DEFAULT_SPEAKER : string := "SPEAKER_00".

(** The overlap of a recognition segment with a diarization segment. *)
Definition ov (s : Segment) (d : DiarSegment) : spec_float :=
  overlap (start s, end' s) (d_start d, d_end d).

(** The rule of the specification: [name] is the label of the first
    diarization segment whose overlap is positive and not exceeded,
    every earlier segment overlapping strictly less; or it is the
    default label, when no overlap is positive. *)
Inductive chosen (s : Segment) (spk : list DiarSegment) (name : string)
  : Prop :=
| chosen_best (pre post : list DiarSegment) (d : DiarSegment) :
    spk = pre ++ d :: post ->
    name = d_speaker d ->
    F64.ltb F64.zero (ov s d) = true ->
    Forall (fun d' => F64.ltb (ov s d') (ov s d) = true) pre ->
    Forall (fun d' => F64.leb (ov s d') (ov s d) = true) post ->
    chosen s spk name
| chosen_default :
    name = DEFAULT_SPEAKER ->
    Forall (fun d' => ov s d' = F64.zero) spk ->
    chosen s spk name.

(** The segment [s] with only its speaker entry set. *)
Definition same_span (s s' : Segment) : Prop :=
  start s' = start s /\ end' s' = end' s /\ text s' = text s.

(** The loop invariant of the inner [for d in spk]: after the prefix
    [pre], [(best, best_ov)] is the first maximal positive overlap seen,
    or [(None, 0.0)]. *)
Definition best_inv (s : Segment) (pre : list DiarSegment)
    (acc : option DiarSegment * spec_float) : Prop :=
  match fst acc with
  | None =>
      snd acc = F64.zero /\ Forall (fun d' => ov s d' = F64.zero) pre
  | Some d =>
      snd acc = ov s d /\ F64.ltb F64.zero (ov s d) = true /\
      exists p1 p2, pre = p1 ++ d :: p2 /\
        Forall (fun d' => F64.ltb (ov s d') (ov s d) = true) p1 /\
        Forall (fun d' => F64.leb (ov s d') (ov s d) = true) p2
  end.

Definition le16 (v : Z) : bytes := [byte_of_Z v; byte_of_Z (v / 256)].
Definition le32 (v : Z) : bytes :=
  [byte_of_Z v; byte_of_Z (v / 256);
   byte_of_Z (v / 65536); byte_of_Z (v / 16777216)].

(** The 44 bytes [wave] writes before the frames of a mono 16-bit file
    of [n] data bytes at rate [sr]. *)
Definition wav_header (sr n : Z) : bytes :=
  bytes_of_string "RIFF" ++ le32 (36 + n)
  ++ bytes_of_string "WAVEfmt " ++ le32 16 ++ le16 1 ++ le16 1
  ++ le32 sr ++ le32 (1 * sr * 2) ++ le16 (1 * 2) ++ le16 (2 * 8)
  ++ bytes_of_string "data" ++ le32 n.

(** The whole 16-bit samples of a buffer, in order. *)
Fixpoint samples_of (pcm : bytes) : list Z :=
  match pcm with
  | lo :: hi :: rest => struct.int16_of lo hi :: samples_of rest
  | _ => []
  end.

(** [x] is exactly the rational [num / den]. *)
Definition is_quotient (x : spec_float) (num den : Z) : bool :=
  match x with
  | S754_zero _ => num =? 0
  | S754_finite s m e =>
      let sm := if s then Zneg m else Zpos m in
      if 0 <=? e then sm * 2 ^ e * den =? num
      else sm * den =? num * 2 ^ (- e)
  | _ => false
  end.

(** [-1.0 <= x <= 1.0] *)
Definition in_unit_range (x : spec_float) : bool :=
  F32.leb (F32.of_Z (-1)) x && F32.leb x (F32.of_Z 1).

Definition sample_ok (x : Z) : bool :=
  let y := normalize x in
  in_unit_range y && is_quotient y x 32768.

(** The decoded audio of [wave]'s own output. *)
Definition roundtrip (pcm : bytes) (sr : Z) : result (list spec_float * Z) :=
  wav <- pcm16_to_wav_bytes pcm sr ;; wav_bytes_to_float_np wav.

(** A mono 16-bit file whose data chunk announces 4 bytes and holds 3. *)
Definition truncated_wav : bytes :=
  wav_header 16000 4 ++ [Byte.x01; Byte.x02; Byte.x03].

(** A file that is all there, its data chunk of 4 bytes too, but whose
    RIFF size is 39 where 40 would cover it. *)
Definition short_riff_wav : bytes :=
  wave.overwrite
    (wav_header 16000 4 ++ [Byte.x01; Byte.x02; Byte.x03; Byte.x04])
    4 (le32 39).

(** Two samples, 1 and -32768, at 8000 Hz. *)
Definition two_samples_wav : bytes :=
  wav_header 8000 4 ++ [Byte.x01; Byte.x00; Byte.x00; Byte.x80].

Definition is_format_error {A} (r : result A) : Prop :=
  exists detail, r = Raise (HTTPException 400 detail).

(** What is left of the file behind the read position of the RIFF chunk. *)
Definition avail (r : chunk.RiffChunk) : Z :=
  len (chunk.content r) - 8 - chunk.size_read r.

(** A chunk has read no more than its size, plus the alignment byte. *)
Definition chunk_inv (c : chunk.Chunk) : Prop :=
  chunk.c_read c <= chunk.c_size c
  \/ (Z.odd (chunk.c_size c) = true /\ chunk.c_read c <= chunk.c_size c + 1).




(** A serialised segment with its four entries. *)
Definition labelled (v : pyval) : Prop :=
  exists st en tx sp,
    v = PDict [("start"%string, PFloat st); ("end"%string, PFloat en);
               ("text"%string, PStr tx); ("speaker"%string, PStr sp)].

(** A mono file of 8-bit samples: header only, no frames. *)
Definition eight_bit_wav : bytes :=
  bytes_of_string "RIFF" ++ le32 36 ++ bytes_of_string "WAVEfmt "
  ++ le32 16 ++ le16 1 ++ le16 1 ++ le32 16000 ++ le32 16000 ++ le16 1
  ++ le16 8 ++ bytes_of_string "data" ++ le32 0.

(** A stereo file of 32-bit float samples (format tag 3): header only. *)
Definition float_wav : bytes :=
  bytes_of_string "RIFF" ++ le32 36 ++ bytes_of_string "WAVEfmt "
  ++ le32 16 ++ le16 3 ++ le16 2 ++ le32 16000 ++ le32 128000 ++ le16 8
  ++ le16 32 ++ bytes_of_string "data" ++ le32 0.

(** A text frame (no binary payload). *)
Definition text_frame (text : string) : Event :=
  Receive (mkMessage None (Some text)).

(** The value of a message's ["type"] entry. *)
Definition message_type (m : pyval) : option pyval :=
  match m with
  | PDict items => dict_get items "type"
  | _ => None
  end.

(** The recursion limit of a fresh interpreter,
    [sys.getrecursionlimit()]: more room than a running handler has.  The
    sessions below nest no deeper than one, but for the one that is there
    to reach the limit. *)
Definition default_room : positive := 1000.

(** An engine that hears nothing, one that hears one word, and a
    transport that takes every frame. *)
Definition deaf_engine : result WhisperModel := Ok (fun _ => Ok []).
Definition one_word_engine : result WhisperModel :=
  Ok (fun _ => Ok [mkEngineSegment (F64.of_Z 0) (F64.of_Z 1)
                                   (Some " hi "%string)]).
Definition open_transport : pyval -> result unit := fun _ => Ok tt.

(** The text [{"type": "end"}], with a space after the colon. *)
Definition spaced_end : string :=
  ("{" ++ quoted "type" ++ ": " ++ quoted "end" ++ "}")%string.

(** The text [{"type":"config","sampleRate":<rate>}]. *)
Definition config_text (rate : string) : string :=
  ("{" ++ quoted "type" ++ ":" ++ quoted "config" ++ ","
   ++ quoted "sampleRate" ++ ":" ++ rate ++ "}")%string.
(** The text [{"type":"end","sampleRate":1}]. *)
Definition end_with_rate : string :=
  ("{" ++ quoted "type" ++ ":" ++ quoted "end" ++ ","
   ++ quoted "sampleRate" ++ ":1}")%string.

(** The text [{"type":"config","sampleR\u0061te":48000}]. *)
Definition config_escaped : string :=
  ("{" ++ quoted "type" ++ ":" ++ quoted "config" ++ ","
   ++ quoted "sampleR\u0061te" ++ ":48000}")%string.

Definition config_48000 : string := config_text "48000".
Definition config_float : string := config_text "44100.5".

(** Configuration messages whose sampleRate is a string: the digits of
    8000 in their fullwidth forms, and the digit 5 behind the control
    character U+001C, which [str.isspace] takes for whitespace and
    [int()] does not. *)
Definition config_fullwidth : string :=
  config_text (quoted "\uff18\uff10\uff10\uff10").
Definition config_separator : string := config_text (quoted "\u001c5").

(** A configuration message with one more entry, [depth] arrays inside
    one another. *)
Fixpoint brackets (depth : nat) : string :=
  match depth with
  | O => EmptyString
  | S depth => ("[" ++ brackets depth ++ "]")%string
  end.

Definition config_nested (depth : nat) : string :=
  ("{" ++ quoted "type" ++ ":" ++ quoted "config" ++ ","
   ++ quoted "sampleRate" ++ ":5," ++ quoted "x" ++ ":" ++ brackets depth
   ++ "}")%string.


(* ------------------------------------------------------------------ *)
(** ** Frames, texts and labels of the further properties *)

(** A binary frame (no text). *)
Definition binary_frame (b : bytes) : Event :=
  Receive (mkMessage (Some b) None).

(** A message with a payload, whatever text comes with it. *)
Definition has_payload (msg : Message) : Prop :=
  exists b bs, m_bytes msg = Some (b :: bs).

Definition payload (msg : Message) : bytes :=
  match m_bytes msg with
  | Some b => b
  | None => []
  end.

(** A message the loop passes over: no payload, and no text, an empty
    text, or a text that neither holds the word sampleRate nor ends the
    stream. *)
Definition passed_over (msg : Message) : bool :=
  match m_bytes msg, m_text msg with
  | Some (_ :: _), _ => false
  | _, Some (String c t) =>
      negb (contains "sampleRate" (String c t)) && negb (is_end (String c t))
  | _, _ => true
  end.

(** No whitespace at either end. *)
Definition stripped (s : string) : Prop :=
  drop_one_of whitespace s = None
  /\ drop_one_of (map string_rev whitespace) (string_rev s) = None.

(** The label is the default one or the label of a member of [spk]. *)
Definition label_from (spk : list DiarSegment) (s : Segment) : Prop :=
  speaker s = Some DEFAULT_SPEAKER
  \/ exists d, In d spk /\ speaker s = Some (d_speaker d).

(** The text an engine segment carries ([seg.text or ""]). *)
Definition engine_text (seg : EngineSegment) : string :=
  match es_text seg with
  | Some t => t
  | None => EmptyString
  end.

(* ------------------------------------------------------------------ *)
(** ** [main.py]: model loaders

    The two loaders keep what they have built in a module global.  The
    constructors belong to the libraries and are section variables, as is
    the flag [has_pyannote] the import sets; [os.environ] is the list of
    its items. *)

Module loaders.

(** [os.environ.get(key)] *)
Fixpoint environ_get (environ : list (string * string)) (key : string)
  : option string :=
  match environ with
  | [] => None
  | (k, v) :: rest => if String.eqb k key then Some v else environ_get rest key
  end.

Section Loaders.

Variable Pipeline : Type.

(** [WhisperModel(name, device="cpu", compute_type="int8")] *)
Variable WhisperModel_new : string -> result WhisperModel.

(** [PaPipeline.from_pretrained(repo, use_auth_token=token)], which may
    return [None]. *)
Variable from_pretrained : string -> string -> result (option Pipeline).

Variable has_pyannote : bool.

(** The globals [_whisper_model] and [_pyannote]. *)
Record Globals := mkGlobals {
  _whisper_model : option WhisperModel;
  _pyannote : option Pipeline }.

Definition get_whisper (environ : list (string * string)) (g : Globals)
  : result WhisperModel * Globals :=
  match _whisper_model g with
  | Some model => (Ok model, g)
  | None =>
      let name := match environ_get environ "WHISPER_MODEL" with
                  | Some v => v
                  | None => "tiny"%string
                  end in
      match WhisperModel_new name with
      | Ok model => (Ok model, mkGlobals (Some model) (_pyannote g))
      | Raise e => (Raise e, g)
      end
  end.

Definition get_pyannote (environ : list (string * string)) (g : Globals)
  : option Pipeline * Globals :=
  match _pyannote g with
  | Some p => (Some p, g)
  | None =>
      if negb has_pyannote then (None, g) else
      match environ_get environ "HF_TOKEN" with
      | None | Some EmptyString => (None, g)
      | Some token =>
          match from_pretrained "pyannote/speaker-diarization-3.1" token with
          | Ok p => (p, mkGlobals (_whisper_model g) p)
          | Raise _ => (None, g)
          end
      end
  end.

(** The results of successive calls, one per environment met. *)
Fixpoint whisper_calls (environs : list (list (string * string)))
    (g : Globals) : list (result WhisperModel) :=
  match environs with
  | [] => []
  | environ :: rest =>
      let '(r, g') := get_whisper environ g in
      r :: whisper_calls rest g'
  end.

Fixpoint pyannote_calls (environs : list (list (string * string)))
    (g : Globals) : list (option Pipeline) :=
  match environs with
  | [] => []
  | environ :: rest =>
      let '(r, g') := get_pyannote environ g in
      r :: pyannote_calls rest g'
  end.

End Loaders.

End loaders.

(* ------------------------------------------------------------------ *)
(** ** [main.py]: the recording page

    The JavaScript of the page [index] serves (lines 182-198).  A Number
    is a binary64 float; lengths, offsets and the sample rate of an
    [AudioContext] are integers, exact as Numbers below 2^53, and are [Z]
    here.  An [ArrayBuffer] is the list of its bytes, and the views of a
    buffer are that list; a write that does not fit the buffer throws a
    [RangeError], which is [None]. *)

Module page.

Definition obind {A B} (c : option A) (k : A -> option B) : option B :=
  match c with
  | Some a => k a
  | None => None
  end.

Declare Scope js_scope.
Notation "x <~ c ;; k" := (obind c (fun x => k))
  (at level 61, c at next level, right associativity) : js_scope.
Local Open Scope js_scope.

(** Bytes written at offset [o] of a view. *)
Definition set_bytes (view : bytes) (o : Z) (b : bytes) : option bytes :=
  if (0 <=? o) && (o + len b <=? len view)
  then Some (wave.overwrite view o b)
  else None.

(** [view.setUint8(o, v)], and [view.setUint16(o, v, true)] and
    [view.setUint32(o, v, true)] (little-endian) on an integer [v]: the
    value is taken modulo 2^8, 2^16, 2^32. *)
Definition setUint8 (view : bytes) (o v : Z) : option bytes :=
  set_bytes view o [byte_of_Z (v mod 256)].

Definition setUint16 (view : bytes) (o v : Z) : option bytes :=
  let u := v mod 65536 in
  set_bytes view o [byte_of_Z u; byte_of_Z (u / 256)].

Definition setUint32 (view : bytes) (o v : Z) : option bytes :=
  let u := v mod 4294967296 in
  set_bytes view o [byte_of_Z u; byte_of_Z (u / 256);
                    byte_of_Z (u / 65536); byte_of_Z (u / 16777216)].

(** [ToInt16] of a Number: NaN, the zeros and the infinities give 0,
    otherwise the integer part modulo 2^16, read as signed. *)
Definition ToInt16 (x : spec_float) : Z :=
  let m := F64.trunc x mod 65536 in
  if m <? 32768 then m else m - 65536.

(** [view.setInt16(o, x, true)] *)
Definition setInt16 (view : bytes) (o : Z) (x : spec_float) : option bytes :=
  setUint16 view o (ToInt16 x).

(** [Math.min(a, b)] and [Math.max(a, b)]: NaN if either is, and -0
    below +0. *)
Definition Math_min (a b : spec_float) : spec_float :=
  if F64.is_nan a || F64.is_nan b then S754_nan
  else if F64.ltb b a then b
  else if F64.ltb a b then a
  else match a, b with
       | S754_zero _, S754_zero true => b
       | _, _ => a
       end.

Definition Math_max (a b : spec_float) : spec_float :=
  if F64.is_nan a || F64.is_nan b then S754_nan
  else if F64.ltb a b then b
  else if F64.ltb b a then a
  else match a, b with
       | S754_zero _, S754_zero false => b
       | _, _ => a
       end.

(** The Number a sample becomes before it is stored:
    [s<0 ? s*0x8000 : s*0x7FFF] with [s] the sample clamped to -1 .. 1. *)
Definition scaled (x : spec_float) : spec_float :=
  let s := Math_max (F64.of_Z (-1)) (Math_min (F64.of_Z 1) x) in
  if F64.ltb s F64.zero then F64.mul s (F64.of_Z 32768)
  else F64.mul s (F64.of_Z 32767).

(** The 16-bit integer stored for an element of a [Float32Array]. *)
Definition stored (x : spec_float) : Z := ToInt16 (scaled (F64.of_f32 x)).

(** The loop of [floatTo16BitPCM] from offset [o] on; an element of the
    [Float32Array] is read as the Number of the same value. *)
Fixpoint pcm_loop (samples : list spec_float) (o : Z) (view : bytes)
  : option bytes :=
  match samples with
  | [] => Some view
  | x :: rest =>
      view <~ setInt16 view o (scaled (F64.of_f32 x)) ;;
      pcm_loop rest (o + 2) view
  end.

(** [floatTo16BitPCM(float32Array)] (line 184) *)
Definition floatTo16BitPCM (float32Array : list spec_float) : option bytes :=
  let buffer := repeat Byte.x00 (Z.to_nat (len float32Array * 2)) in
  pcm_loop float32Array 0 buffer.

(** [w(v, o, s)]: the characters of [s] from offset [o] on. *)
Fixpoint w (v : bytes) (o : Z) (s : string) : option bytes :=
  match s with
  | EmptyString => Some v
  | String c rest =>
      v <~ setUint8 v o (Z.of_nat (nat_of_ascii c)) ;;
      w v (o + 1) rest
  end.

(** [writeWavHeader(view, sampleRate, numSamples)] (lines 188-192) *)
Definition writeWavHeader (view : bytes) (sampleRate numSamples : Z)
  : option bytes :=
  let ch := 1 in
  let bps := 16 in
  let ba := ch * bps / 8 in
  let br := sampleRate * ba in
  let ds := numSamples * ba in
  v <~ w view 0 "RIFF" ;;
  v <~ setUint32 v 4 (36 + ds) ;;
  v <~ w v 8 "WAVE" ;;
  v <~ w v 12 "fmt " ;;
  v <~ setUint32 v 16 16 ;;
  v <~ setUint16 v 20 1 ;;
  v <~ setUint16 v 22 ch ;;
  v <~ setUint32 v 24 sampleRate ;;
  v <~ setUint32 v 28 br ;;
  v <~ setUint16 v 32 ba ;;
  v <~ setUint16 v 34 bps ;;
  v <~ w v 36 "data" ;;
  setUint32 v 40 ds.

(** The body [oneShot] uploads (line 197): the recorded blocks merged,
    converted, and put behind a header in a buffer of [44 + pcm.byteLength]
    bytes; the [Blob] is made of the view of that whole buffer followed
    by the samples once more. *)
Definition oneShot (chunks : list (list spec_float)) (sampleRate : Z)
  : option bytes :=
  let merged := List.concat chunks in
  pcm <~ floatTo16BitPCM merged ;;
  let wav := repeat Byte.x00 (Z.to_nat (44 + len pcm)) in
  v <~ writeWavHeader wav sampleRate (len merged) ;;
  v <~ set_bytes v 44 pcm ;;
  Some (v ++ pcm).

(** [JSON.stringify] of a positive integer below 10^21: its decimal
    digits. *)
Definition stringify (n : positive) : string :=
  DecimalString.NilEmpty.string_of_uint (Pos.to_uint n).

(** The frames [startWS] and [stopWS] send (lines 195-196): the
    configuration with the rate of the [AudioContext], one binary frame
    per block of samples, and the token end. *)
Definition session (sampleRate : positive) (blocks : list (list spec_float))
  : option (list Event) :=
  frames <~ fold_right (fun block acc =>
                          pcm <~ floatTo16BitPCM block ;;
                          rest <~ acc ;;
                          Some (Receive (mkMessage (Some pcm) None) :: rest))
                       (Some []) blocks ;;
  Some (Receive (mkMessage None (Some (config_text (stringify sampleRate))))
        :: frames ++ [Receive (mkMessage None (Some "end"%string))]).

End page.

(** The value of the decimal digits [d] read after the value [acc]. *)
Fixpoint uint_value (d : Decimal.uint) (acc : Z) : Z :=
  match d with
  | Decimal.Nil => acc
  | Decimal.D0 l => uint_value l (10 * acc)
  | Decimal.D1 l => uint_value l (10 * acc + 1)
  | Decimal.D2 l => uint_value l (10 * acc + 2)
  | Decimal.D3 l => uint_value l (10 * acc + 3)
  | Decimal.D4 l => uint_value l (10 * acc + 4)
  | Decimal.D5 l => uint_value l (10 * acc + 5)
  | Decimal.D6 l => uint_value l (10 * acc + 6)
  | Decimal.D7 l => uint_value l (10 * acc + 7)
  | Decimal.D8 l => uint_value l (10 * acc + 8)
  | Decimal.D9 l => uint_value l (10 * acc + 9)
  end.

(** Digits that start with 1 .. 9. *)
Definition leading (d : Decimal.uint) : bool :=
  match d with
  | Decimal.Nil | Decimal.D0 _ => false
  | _ => true
  end.

(* ================================================================== *)
(** * Properties *)

(* ------------------------------------------------------------------ *)
(** ** The order on floats *)

Module FloatOrder.

Definition not_nan (x : spec_float) : Prop := x <> S754_nan.

Ltac cases :=
  repeat match goal with
  | H : context [Pos.compare_cont Eq ?x ?y] |- _ =>
      change (Pos.compare_cont Eq x y) with (Pos.compare x y) in H
  | |- context [Pos.compare_cont Eq ?x ?y] =>
      change (Pos.compare_cont Eq x y) with (Pos.compare x y)
  | H : context [Z.compare ?x ?y] |- _ =>
      destruct (Z.compare_spec x y); simpl in H
  | H : context [Pos.compare ?x ?y] |- _ =>
      destruct (Pos.compare_spec x y); simpl in H
  | |- context [Z.compare ?x ?y] => destruct (Z.compare_spec x y); simpl
  | |- context [Pos.compare ?x ?y] => destruct (Pos.compare_spec x y); simpl
  end.

Ltac finish := simpl in *; try congruence; try lia; auto.

Ltac start :=
  unfold F64.ltb, F64.leb, SFltb, SFleb, SFcompare;
  intros;
  repeat match goal with
  | x : spec_float |- _ => destruct x as [[]|[]| |[] ? ?]
  end;
  simpl in *; try congruence.

Lemma ltb_trans a b c :
  F64.ltb a b = true -> F64.ltb b c = true -> F64.ltb a c = true.
Proof. start; cases; finish. Qed.

Lemma leb_ltb_trans a b c :
  F64.leb a b = true -> F64.ltb b c = true -> F64.ltb a c = true.
Proof. start; cases; finish. Qed.

Lemma ltb_leb a b : F64.ltb a b = true -> F64.leb a b = true.
Proof. start; cases; finish. Qed.

Lemma not_ltb_leb a b :
  not_nan a -> not_nan b -> F64.ltb a b = false -> F64.leb b a = true.
Proof. unfold not_nan; start; cases; finish. Qed.

Lemma ltb_not_nan_r a b : F64.ltb a b = true -> not_nan b.
Proof. unfold not_nan; start. Qed.

Lemma leb_refl a : not_nan a -> F64.leb a a = true.
Proof. unfold not_nan; start; cases; finish. Qed.

End FloatOrder.

(* ------------------------------------------------------------------ *)
(** ** Speaker assignment *)

Section SpeakerAssignment.

Lemma overlap_cases a b :
  (overlap a b = F64.zero /\
   F64.ltb F64.zero
     (F64.sub (py_min (snd a) (snd b)) (py_max (fst a) (fst b))) = false)
  \/ F64.ltb F64.zero (overlap a b) = true.
Proof.
  unfold overlap, py_max at 1.
  destruct (F64.ltb F64.zero _) eqn:E; [right | left]; auto.
  unfold py_max at 1. rewrite E. exact E.
Qed.

Lemma overlap_not_nan a b : FloatOrder.not_nan (overlap a b).
Proof.
  destruct (overlap_cases a b) as [[-> _] | H].
  - discriminate.
  - eapply FloatOrder.ltb_not_nan_r; eauto.
Qed.

Lemma overlap_zero_iff a b :
  F64.ltb F64.zero (overlap a b) = false <-> overlap a b = F64.zero.
Proof.
  split; intros H.
  - destruct (overlap_cases a b) as [[E _] | E]; congruence.
  - rewrite H. reflexivity.
Qed.

Lemma best_step_inv s pre acc d :
  best_inv s pre acc -> best_inv s (pre ++ [d]) (best_step s acc d).
Proof.
  unfold best_inv, best_step. fold (ov s d).
  destruct acc as [[b|] bov]; simpl.
  - intros (-> & Hpos & p1 & p2 & -> & H1 & H2).
    destruct (F64.ltb (ov s b) (ov s d)) eqn:E; simpl.
    + split; [reflexivity|]. split.
      { exact (FloatOrder.ltb_trans _ _ _ Hpos E). }
      exists (p1 ++ b :: p2), []. split; [reflexivity|]. split; [|constructor].
      apply Forall_app. split.
      * eapply Forall_impl; [|exact H1]. intros x Hx. cbv beta in Hx.
        exact (FloatOrder.ltb_trans _ _ _ Hx E).
      * constructor; [exact E|].
        eapply Forall_impl; [|exact H2]. intros x Hx. cbv beta in Hx.
        exact (FloatOrder.leb_ltb_trans _ _ _ Hx E).
    + split; [reflexivity|]. split; [exact Hpos|].
      exists p1, (p2 ++ [d]). split.
      { rewrite <- app_assoc. reflexivity. }
      split; [exact H1|]. apply Forall_app. split; [exact H2|].
      constructor; [|constructor].
      apply FloatOrder.not_ltb_leb; auto; apply overlap_not_nan.
  - intros (-> & H).
    destruct (F64.ltb F64.zero (ov s d)) eqn:E; simpl.
    + split; [reflexivity|]. split; [exact E|].
      exists pre, []. split; [reflexivity|]. split; [|constructor].
      eapply Forall_impl; [|exact H]. intros x Hx. simpl in Hx.
      rewrite Hx. exact E.
    + split; [reflexivity|]. apply Forall_app. split; [exact H|].
      constructor; [|constructor]. apply overlap_zero_iff. exact E.
Qed.

Lemma best_fold_inv s l : forall pre acc,
  best_inv s pre acc ->
  best_inv s (pre ++ l) (fold_left (best_step s) l acc).
Proof.
  induction l as [|d l IH]; intros pre acc H; simpl.
  - rewrite app_nil_r. exact H.
  - replace (pre ++ d :: l) with ((pre ++ [d]) ++ l)
      by (rewrite <- app_assoc; reflexivity).
    apply IH. apply best_step_inv. exact H.
Qed.

Lemma best_overlap_chosen s spk :
  chosen s spk (match fst (best_overlap s spk) with
                | Some best => d_speaker best
                | None => DEFAULT_SPEAKER
                end).
Proof.
  assert (H : best_inv s ([] ++ spk) (best_overlap s spk)).
  { apply best_fold_inv. simpl. split; [reflexivity | constructor]. }
  simpl in H. unfold best_inv in H.
  destruct (fst (best_overlap s spk)) as [d|].
  - destruct H as (_ & Hpos & p1 & p2 & E & H1 & H2).
    eapply chosen_best; eauto.
  - destruct H as (_ & H). apply chosen_default; auto.
Qed.



(** C8. With no diarization segments every recognition segment is
    labelled SPEAKER_00 and keeps its start, end and text. *)
Theorem assign_speakers_no_diarization (stt : list Segment) :
  Forall2 (fun s s' => speaker s' = Some "SPEAKER_00"%string
                       /\ same_span s s')
          stt (assign_speakers stt [])
  /\ assign_speakers [mkSegment (F64.of_Z 0) (F64.of_Z 1) "hi" None] []
     = [mkSegment (F64.of_Z 0) (F64.of_Z 1) "hi"
                  (Some "SPEAKER_00"%string)].
Proof.
  split; [|reflexivity].
  induction stt as [|s stt IH]; simpl; constructor; auto.
  repeat split.
Qed.

(** C10. The result has the recognition segments in their order, each
    with its start, end and text; only the speaker entry is set. *)
Theorem assign_speakers_frame (stt : list Segment)
    (spk : list DiarSegment) :
  Forall2 (fun s s' => same_span s s'
                       /\ exists name, s' = set_speaker s name)
          stt (assign_speakers stt spk)
  /\ List.length (assign_speakers stt spk) = List.length stt.
Proof.
  assert (H : Forall2 (fun s s' => same_span s s'
                                   /\ exists name, s' = set_speaker s name)
                      stt (assign_speakers stt spk)).
  { destruct spk as [|d0 spk']; unfold assign_speakers;
      induction stt as [|s stt IH]; simpl; constructor; auto.
    - split; [repeat split | eexists; reflexivity].
    - destruct (fst (best_overlap s (d0 :: spk')));
        (split; [repeat split | eexists; reflexivity]). }
  split; [exact H|].
  symmetry. eapply Forall2_length. exact H.
Qed.

End SpeakerAssignment.

(* ------------------------------------------------------------------ *)
(** ** Audio framing: the WAV container *)

Section WavFraming.

Local Arguments byte_of_Z : simpl never.
Local Arguments Z.mul : simpl never.
Local Arguments Z.add : simpl never.
Local Arguments Z.div : simpl never.

Lemma byte_to_of_Z z : byte_to_Z (byte_of_Z z) = z mod 256.
Proof.
  unfold byte_to_Z, byte_of_Z.
  pose proof (Z.mod_pos_bound z 256 ltac:(lia)) as Hb.
  destruct (Byte.of_N (Z.to_N (z mod 256))) eqn:E.
  - apply Byte.to_of_N in E. rewrite E. lia.
  - apply Byte.of_N_None_iff in E. lia.
Qed.

Lemma byte_to_Z_range b : 0 <= byte_to_Z b < 256.
Proof.
  unfold byte_to_Z. pose proof (Byte.to_N_bounded b). lia.
Qed.

Lemma pack_L_ok v : 0 <= v < 4294967296 -> struct.pack_L v = Ok (le32 v).
Proof.
  intros H. unfold struct.pack_L.
  replace ((0 <=? v) && (v <? 4294967296)) with true; [reflexivity|].
  symmetry. apply andb_true_iff. split; [apply Z.leb_le | apply Z.ltb_lt]; lia.
Qed.

Lemma pack_H_ok v : 0 <= v < 65536 -> struct.pack_H v = Ok (le16 v).
Proof.
  intros H. unfold struct.pack_H.
  replace ((0 <=? v) && (v <? 65536)) with true; [reflexivity|].
  symmetry. apply andb_true_iff. split; [apply Z.leb_le | apply Z.ltb_lt]; lia.
Qed.

Lemma unpack_le32 v rest :
  0 <= v < 4294967296 -> struct.unpack_L (le32 v ++ rest) = Ok v.
Proof.
  intros H. unfold le32. simpl. f_equal.
  rewrite !byte_to_of_Z.
  pose proof (Z.div_mod v 256 ltac:(lia)).
  pose proof (Z.div_mod (v / 256) 256 ltac:(lia)).
  pose proof (Z.div_mod (v / 256 / 256) 256 ltac:(lia)).
  replace (v / 65536) with (v / 256 / 256)
    by (rewrite Z.div_div by lia; reflexivity).
  replace (v / 16777216) with (v / 256 / 256 / 256)
    by (rewrite !Z.div_div by lia; reflexivity).
  assert (v / 256 / 256 / 256 < 256).
  { apply Z.div_lt_upper_bound; [lia|].
    apply Z.div_lt_upper_bound; [lia|].
    apply Z.div_lt_upper_bound; lia. }
  assert (0 <= v / 256 / 256 / 256).
  { repeat apply Z.div_pos; lia. }
  rewrite (Z.mod_small (v / 256 / 256 / 256)) by lia.
  lia.
Qed.

Lemma unpack_le16 v rest :
  0 <= v < 65536 -> struct.unpack_H (le16 v ++ rest) = Ok v.
Proof.
  intros H. unfold le16. simpl. f_equal.
  rewrite !byte_to_of_Z.
  pose proof (Z.div_mod v 256 ltac:(lia)).
  assert (v / 256 < 256) by (apply Z.div_lt_upper_bound; lia).
  assert (0 <= v / 256) by (apply Z.div_pos; lia).
  rewrite (Z.mod_small (v / 256)) by lia.
  lia.
Qed.

Lemma frombuffer_samples pcm :
  frombuffer_int16 (take (2 * (len pcm / 2)) pcm) = Ok (samples_of pcm).
Proof.
  unfold take, len.
  assert (H : forall n (l : bytes), (List.length l <= n)%nat ->
            frombuffer_int16
              (firstn (Z.to_nat (2 * (Z.of_nat (List.length l) / 2))) l)
            = Ok (samples_of l)).
  { induction n as [|n IH]; intros l Hl.
    - destruct l; [reflexivity | simpl in Hl; lia].
    - destruct l as [|lo [|hi rest]]; try reflexivity.
      replace (Z.to_nat (2 * (Z.of_nat (List.length (lo :: hi :: rest)) / 2)))
        with (S (S (Z.to_nat (2 * (Z.of_nat (List.length rest) / 2))))).
      + simpl. rewrite IH by (simpl in Hl; lia). reflexivity.
      + simpl List.length.
        replace (Z.of_nat (S (S (List.length rest))))
          with (Z.of_nat (List.length rest) + 1 * 2) by lia.
        rewrite Z.div_add by lia.
        pose proof (Z.div_pos (Z.of_nat (List.length rest)) 2
                      ltac:(lia) ltac:(lia)).
        lia. }
  apply (H (List.length pcm)). lia.
Qed.

Lemma pack_header_ok D sr :
  0 <= D -> D + 36 < 4294967296 -> 0 < sr < 2147483648 ->
  wave.pack_header D 1 sr 2
  = Ok (le32 (36 + D) ++ bytes_of_string "WAVEfmt " ++ le32 16 ++ le16 1
        ++ le16 1 ++ le32 sr ++ le32 (1 * sr * 2) ++ le16 (1 * 2)
        ++ le16 (2 * 8) ++ bytes_of_string "data").
Proof.
  intros HD HD' Hsr. unfold wave.pack_header, wave.WAVE_FORMAT_PCM.
  rewrite (pack_L_ok (36 + D)) by lia.
  rewrite (pack_L_ok 16) by lia.
  rewrite !(pack_H_ok 1) by lia.
  rewrite (pack_L_ok sr) by lia.
  rewrite (pack_L_ok (1 * sr * 2)) by lia.
  rewrite (pack_H_ok (1 * 2)) by lia.
  rewrite (pack_H_ok (2 * 8)) by lia.
  reflexivity.
Qed.

Lemma pcm16_to_wav_bytes_ok pcm sr :
  0 < sr < 2147483648 -> len pcm + 36 < 4294967296 ->
  pcm16_to_wav_bytes pcm sr = Ok (wav_header sr (len pcm) ++ pcm).
Proof.
  intros Hsr Hlen.
  assert (Hn : 0 <= len pcm) by (unfold len; lia).
  unfold pcm16_to_wav_bytes, wave.with_open_wb, wave.seq.
  unfold wave.setnchannels, wave.setsampwidth, wave.setframerate. simpl.
  replace (sr <=? 0) with false by (symmetry; apply Z.leb_gt; lia).
  unfold wave.writeframes, wave.writeframesraw, wave.seq,
    wave._ensure_header_written. simpl.
  replace (sr =? 0) with false by (symmetry; apply Z.eqb_neq; lia).
  unfold wave._write_header. simpl.
  set (D := len pcm / (1 * 2) * 1 * 2).
  assert (HD : 0 <= D <= len pcm).
  { unfold D. pose proof (Z.div_mod (len pcm) 2 ltac:(lia)).
    pose proof (Z.mod_pos_bound (len pcm) 2 ltac:(lia)).
    change (1 * 2) with 2. lia. }
  rewrite (pack_header_ok D sr) by lia.
  rewrite (pack_L_ok D) by lia.
  cbv iota beta. simpl wave.w_file. simpl wave.w_datalength.
  simpl wave.w_datawritten.
  replace (0 + len pcm) with (len pcm) by lia.
  destruct (D =? len pcm) eqn:ED.
  - apply Z.eqb_eq in ED. unfold wave.close, wave.seq,
      wave._ensure_header_written. simpl.
    rewrite ED, Z.eqb_refl. reflexivity.
  - unfold wave._patchheader. simpl.
    rewrite Z.eqb_sym, ED.
    rewrite (pack_L_ok (36 + len pcm)) by lia.
    rewrite (pack_L_ok (len pcm)) by lia.
    unfold wave.close, wave.seq, wave._ensure_header_written. simpl.
    rewrite Z.eqb_refl.
    unfold wave.overwrite, take, drop, len, le32.
    cbn [List.length].
    change (Z.to_nat 4) with 4%nat.
    change (Z.to_nat (4 + Z.of_nat 4)) with 8%nat.
    change (Z.to_nat 40) with 40%nat.
    change (Z.to_nat (40 + Z.of_nat 4)) with 44%nat.
    cbn [firstn skipn app wave.w_file].
    reflexivity.
Qed.

Lemma len_take_drop {A} (l : list A) p size :
  0 <= p -> 0 <= size -> p + size <= len l ->
  len (take size (drop p l)) = size.
Proof.
  unfold len, take, drop. intros.
  rewrite length_firstn, length_skipn. lia.
Qed.

Lemma riff_read_inside content name csize pos size :
  0 <= pos -> 0 < size -> pos + size <= csize ->
  pos + size < csize \/ Z.odd csize = false ->
  8 + pos + size <= len content ->
  chunk.riff_read (chunk.mkRiff content name csize pos) size
  = (take size (drop (8 + pos) content),
     chunk.mkRiff content name csize (pos + size)).
Proof.
  intros H1 H2 H3 H4 H5. unfold chunk.riff_read. simpl.
  replace (csize <=? pos) with false by (symmetry; apply Z.leb_gt; lia).
  rewrite Z.min_l by lia.
  unfold chunk.file_read. rewrite len_take_drop by lia.
  replace ((pos + size =? csize) && Z.odd csize) with false; [reflexivity|].
  symmetry. destruct H4 as [H4|H4].
  - replace (pos + size =? csize) with false; [reflexivity|].
    symmetry. apply Z.eqb_neq. lia.
  - rewrite H4. apply andb_false_r.
Qed.

Lemma chunk_read_inside cname csz cread content name rsz pos size :
  0 <= cread < csz -> 0 < size -> cread + size <= csz ->
  cread + size < csz \/ Z.odd csz = false ->
  0 <= pos -> pos + size <= rsz ->
  pos + size < rsz \/ Z.odd rsz = false ->
  8 + pos + size <= len content ->
  chunk.chunk_read (chunk.mkChunk cname csz cread)
                   (chunk.mkRiff content name rsz pos) size
  = (take size (drop (8 + pos) content),
     chunk.mkChunk cname csz (cread + size),
     chunk.mkRiff content name rsz (pos + size)).
Proof.
  intros H1 H2 H3 H4 H5 H6 H6' H7. unfold chunk.chunk_read.
  cbn [chunk.c_size chunk.c_read chunk.c_name].
  replace (csz <=? cread) with false by (symmetry; apply Z.leb_gt; lia).
  rewrite Z.min_l by lia.
  rewrite riff_read_inside by (try lia; assumption).
  rewrite len_take_drop by lia.
  replace ((cread + size =? csz) && Z.odd csz) with false; [reflexivity|].
  symmetry. destruct H4 as [H4|H4].
  - replace (cread + size =? csz) with false; [reflexivity|].
    symmetry. apply Z.eqb_neq. lia.
  - rewrite H4. apply andb_false_r.
Qed.

Lemma unpack_fmt_ok tag nch rate rest :
  0 <= tag < 65536 -> 0 <= nch < 65536 -> 0 <= rate < 4294967296 ->
  6 <= len rest ->
  wave.unpack_fmt (le16 tag ++ le16 nch ++ le32 rate ++ rest)
  = Ok (tag, nch, rate).
Proof.
  intros. unfold wave.unpack_fmt.
  replace (len (le16 tag ++ le16 nch ++ le32 rate ++ rest) <? 14)
    with false.
  2:{ symmetry. apply Z.ltb_ge. unfold len in *.
      rewrite !length_app. simpl List.length. lia. }
  rewrite unpack_le16 by lia. cbn [bind].
  change (drop 2 (le16 tag ++ le16 nch ++ le32 rate ++ rest))
    with (le16 nch ++ le32 rate ++ rest).
  rewrite unpack_le16 by lia. cbn [bind].
  change (drop 4 (le16 tag ++ le16 nch ++ le32 rate ++ rest))
    with (le32 rate ++ rest).
  rewrite unpack_le32 by lia. reflexivity.
Qed.

Lemma read_chunks_S fuel r f :
  wave.read_chunks (S fuel) r f
  = match chunk.open_chunk r with
    | Raise _ => Ok (f, None)
    | Ok (c, r) =>
        if list_eq_dec Byte.byte_eq_dec (chunk.c_name c)
             (bytes_of_string "fmt ") then
          '(f', c, r) <- wave._read_fmt_chunk c r ;;
          r <- chunk.chunk_skip c r ;;
          wave.read_chunks fuel r (Some f')
        else if list_eq_dec Byte.byte_eq_dec (chunk.c_name c)
                  (bytes_of_string "data") then
          match f with
          | None => Raise (WaveError "data chunk before fmt chunk")
          | Some _ => Ok (f, Some (c, r))
          end
        else
          r <- chunk.chunk_skip c r ;;
          wave.read_chunks fuel r f
    end.
Proof. reflexivity. Qed.

Lemma open_rb_canonical pcm sr :
  0 <= sr < 2147483648 -> len pcm + 36 < 4294967296 ->
  wave.open_rb (wav_header sr (len pcm) ++ pcm)
  = Ok (wave.mkRead 1 2 sr 2 (len pcm / 2)
          (chunk.mkChunk (bytes_of_string "data") (len pcm) 0)
          (chunk.mkRiff (wav_header sr (len pcm) ++ pcm)
                        (bytes_of_string "RIFF") (36 + len pcm) 36)).
Proof.
  intros Hsr Hlen.
  assert (Hn : 0 <= len pcm) by (unfold len; lia).
  set (content := wav_header sr (len pcm) ++ pcm).
  assert (Hc : len content = 44 + len pcm).
  { unfold content, len. rewrite length_app. simpl List.length. lia. }
  unfold wave.open_rb, wave.open_rb_fuel, chunk.open_riff.
  replace (chunk.file_read content 0 4) with (bytes_of_string "RIFF") by reflexivity.
  replace (chunk.file_read content 4 4) with (le32 (36 + len pcm) ++ []) by reflexivity.
  rewrite unpack_le32 by lia.
  replace (len (bytes_of_string "RIFF") <? 4) with false by reflexivity.
  cbn [bind chunk.chunkname].
  destruct (list_eq_dec Byte.byte_eq_dec (bytes_of_string "RIFF")
              (bytes_of_string "RIFF")) as [_|]; [|congruence].
  cbn [negb].
  rewrite riff_read_inside by lia.
  replace (take 4 (drop (8 + 0) content)) with (bytes_of_string "WAVE") by reflexivity.
  destruct (list_eq_dec Byte.byte_eq_dec (bytes_of_string "WAVE")
              (bytes_of_string "WAVE")) as [_|]; [|congruence].
  cbn [negb].
  (* the fmt chunk *)
  rewrite read_chunks_S. unfold chunk.open_chunk.
  rewrite riff_read_inside by lia.
  replace (take 4 (drop (8 + (0 + 4)) content)) with (bytes_of_string "fmt ") by reflexivity.
  replace (len (bytes_of_string "fmt ") <? 4) with false by reflexivity. cbv iota.
  rewrite riff_read_inside by lia.
  replace (take 4 (drop (8 + (0 + 4 + 4)) content)) with (le32 16 ++ []) by reflexivity.
  rewrite unpack_le32 by lia.
  cbn [chunk.c_name].
  destruct (list_eq_dec Byte.byte_eq_dec (bytes_of_string "fmt ")
              (bytes_of_string "fmt ")) as [_|]; [|congruence].
  unfold wave._read_fmt_chunk.
  rewrite chunk_read_inside by (try lia; left; lia).
  replace (take 14 (drop (8 + (0 + 4 + 4 + 4)) content)) with (le16 1 ++ le16 1 ++ le32 sr ++ le32 (1 * sr * 2) ++ le16 (1 * 2)) by reflexivity.
  rewrite unpack_fmt_ok by (try lia; unfold len; simpl; lia).
  replace (1 =? wave.WAVE_FORMAT_PCM) with true by reflexivity. cbv iota.
  rewrite chunk_read_inside
    by first [lia | right; reflexivity | left; lia].
  replace (take 2 (drop (8 + (0 + 4 + 4 + 4 + 14)) content)) with (le16 (2 * 8) ++ []) by reflexivity.
  rewrite unpack_le16 by lia.
  replace ((2 * 8 + 7) / 8 =? 0) with false by reflexivity.
  replace (1 =? 0) with false by reflexivity. cbv iota. cbn [bind].
  unfold chunk.chunk_skip, chunk.riff_seek_rel.
  cbn [chunk.c_size chunk.c_read chunk.size_read chunk.chunksize
       chunk.content chunk.chunkname].
  replace (Z.odd 16) with false by reflexivity. cbv iota.
  replace ((16 - (0 + 14 + 2) + (0 + 4 + 4 + 4 + 14 + 2) <? 0)
           || (36 + len pcm <? 16 - (0 + 14 + 2) + (0 + 4 + 4 + 4 + 14 + 2)))
    with false.
  2:{ symmetry. apply orb_false_iff. split;
        [apply Z.ltb_ge | apply Z.ltb_ge]; lia. }
  cbn [bind].
  (* the data chunk *)
  replace (Datatypes.length content) with (S (43 + Datatypes.length pcm))%nat by reflexivity.
  rewrite read_chunks_S. unfold chunk.open_chunk.
  rewrite riff_read_inside by lia.
  replace (take 4 (drop (8 + (16 - (0 + 14 + 2) + (0 + 4 + 4 + 4 + 14 + 2)))
                    content)) with (bytes_of_string "data") by reflexivity.
  replace (len (bytes_of_string "data") <? 4) with false by reflexivity. cbv iota.
  assert (Hpar : 36 < 36 + len pcm \/ Z.odd (36 + len pcm) = false).
  { destruct (Z.eq_dec (len pcm) 0) as [E|E]; [right; rewrite E | left; lia].
    reflexivity. }
  rewrite riff_read_inside by first [lia | destruct Hpar; [left; lia | right; assumption]].
  replace (take 4
            (drop (8 + (16 - (0 + 14 + 2) + (0 + 4 + 4 + 4 + 14 + 2) + 4))
               content)) with (le32 (len pcm) ++ []) by reflexivity.
  rewrite unpack_le32 by lia.
  cbn [chunk.c_name].
  destruct (list_eq_dec Byte.byte_eq_dec (bytes_of_string "data")
              (bytes_of_string "fmt ")) as [E|_]; [discriminate E|].
  destruct (list_eq_dec Byte.byte_eq_dec (bytes_of_string "data")
              (bytes_of_string "data")) as [_|]; [|congruence].
  cbn [bind wave.f_nchannels wave.f_sampwidth wave.f_framerate
       wave.f_framesize chunk.c_size].
  reflexivity.
Qed.

Lemma frombuffer_even raw :
  Nat.even (List.length raw) = true ->
  frombuffer_int16 raw = Ok (samples_of raw).
Proof.
  assert (H : forall n (l : bytes), (List.length l <= n)%nat ->
            Nat.even (List.length l) = true ->
            frombuffer_int16 l = Ok (samples_of l)).
  { induction n as [|n IH]; intros l Hl He.
    - destruct l; [reflexivity | simpl in Hl; lia].
    - destruct l as [|lo [|hi rest]]; try reflexivity; try discriminate.
      simpl. rewrite IH; [reflexivity | simpl in Hl; lia | exact He]. }
  apply (H (List.length raw)). lia.
Qed.

Lemma samples_of_short pcm : len pcm / 2 = 0 -> samples_of pcm = [].
Proof.
  intros H. destruct pcm as [|lo [|hi rest]]; try reflexivity.
  exfalso. unfold len in H. simpl List.length in H.
  replace (Z.of_nat (S (S (List.length rest))))
    with (Z.of_nat (List.length rest) + 1 * 2) in H by lia.
  rewrite Z.div_add in H by lia.
  pose proof (Z.div_pos (Z.of_nat (List.length rest)) 2
                ltac:(lia) ltac:(lia)).
  lia.
Qed.

Lemma readframes_canonical pcm sr :
  len pcm + 36 < 4294967296 ->
  wave.readframes
    (wave.mkRead 1 2 sr 2 (len pcm / 2)
       (chunk.mkChunk (bytes_of_string "data") (len pcm) 0)
       (chunk.mkRiff (wav_header sr (len pcm) ++ pcm)
                     (bytes_of_string "RIFF") (36 + len pcm) 36))
    (len pcm / 2)
  = take (2 * (len pcm / 2)) pcm.
Proof.
  intros Hlen.
  assert (Hn : 0 <= len pcm) by (unfold len; lia).
  pose proof (Z.div_mod (len pcm) 2 ltac:(lia)) as Hdm.
  pose proof (Z.mod_pos_bound (len pcm) 2 ltac:(lia)) as Hmb.
  pose proof (Z.div_pos (len pcm) 2 ltac:(lia) ltac:(lia)) as Hdp.
  unfold wave.readframes. cbn [wave.data_chunk wave.riff wave.framesize].
  destruct (len pcm / 2 =? 0) eqn:E0.
  - apply Z.eqb_eq in E0. rewrite E0. reflexivity.
  - apply Z.eqb_neq in E0.
    set (content := wav_header sr (len pcm) ++ pcm).
    assert (Hc : len content = 44 + len pcm).
    { unfold content, len. rewrite length_app. simpl List.length. lia. }
    assert (Hpar : len pcm / 2 * 2 < len pcm \/ Z.odd (len pcm) = false).
    { destruct (Z.eq_dec (len pcm mod 2) 0) as [E|E]; [right | left; lia].
      rewrite <- Z.negb_even. replace (Z.even (len pcm)) with true; auto.
      symmetry. rewrite Zeven_mod. apply Z.eqb_eq. exact E. }
    rewrite chunk_read_inside.
    + replace (drop (8 + 36) content) with pcm by reflexivity.
      f_equal. lia.
    + lia.
    + lia.
    + lia.
    + destruct Hpar; [left; lia | right; assumption].
    + lia.
    + lia.
    + destruct Hpar as [Hp|Hp]; [left; lia | right].
      replace (36 + len pcm) with (len pcm + 2 * 18) by lia.
      rewrite Z.odd_add_mul_2. exact Hp.
    + lia.
Qed.

Lemma wav_decode_canonical pcm sr :
  0 <= sr < 2147483648 -> len pcm + 36 < 4294967296 ->
  wav_bytes_to_float_np (wav_header sr (len pcm) ++ pcm)
  = Ok (map normalize (samples_of pcm), sr).
Proof.
  intros Hsr Hlen. unfold wav_bytes_to_float_np.
  rewrite open_rb_canonical by assumption.
  cbn [bind wave.nchannels wave.sampwidth wave.framerate wave.nframes].
  replace (negb (1 =? 1) || negb (2 =? 2)) with false by reflexivity.
  cbv iota.
  rewrite readframes_canonical by assumption.
  rewrite frombuffer_samples. cbn [bind].
  destruct (len (samples_of pcm) =? 0) eqn:E; [|reflexivity].
  apply Z.eqb_eq in E. destruct (samples_of pcm); [reflexivity|].
  unfold len in E. simpl in E. lia.
Qed.

Lemma byte_of_to_Z b : byte_of_Z (byte_to_Z b) = b.
Proof.
  unfold byte_of_Z. rewrite Z.mod_small by apply byte_to_Z_range.
  unfold byte_to_Z. rewrite N2Z.id, Byte.of_to_N. reflexivity.
Qed.

Lemma forall_bytes (P : byte -> bool) :
  forallb (fun n => P (byte_of_Z (Z.of_nat n))) (List.seq 0 256) = true ->
  forall b, P b = true.
Proof.
  intros H b. rewrite forallb_forall in H.
  rewrite <- (byte_of_to_Z b).
  pose proof (byte_to_Z_range b) as Hb.
  replace (byte_to_Z b) with (Z.of_nat (Z.to_nat (byte_to_Z b))) by lia.
  apply H. apply in_seq. lia.
Qed.

Lemma sample_ok_all lo hi : sample_ok (struct.int16_of lo hi) = true.
Proof.
  revert hi. apply (forall_bytes (fun hi => sample_ok (struct.int16_of lo hi))).
  revert lo.
  apply (forall_bytes
           (fun lo => forallb (fun n => sample_ok
                         (struct.int16_of lo (byte_of_Z (Z.of_nat n))))
                        (List.seq 0 256))).
  vm_cast_no_check (eq_refl true).
Qed.

Lemma samples_of_ok pcm :
  Forall (fun x => sample_ok x = true) (samples_of pcm).
Proof.
  assert (H : forall n (l : bytes), (List.length l <= n)%nat ->
            Forall (fun x => sample_ok x = true) (samples_of l)).
  { induction n as [|n IH]; intros l Hl.
    - destruct l; [constructor | simpl in Hl; lia].
    - destruct l as [|lo [|hi rest]]; try constructor.
      + apply sample_ok_all.
      + apply IH. simpl in Hl. lia. }
  apply (H (List.length pcm)). lia.
Qed.

Lemma pack_L_inv v b : struct.pack_L v = Ok b -> 0 <= v < 4294967296.
Proof.
  unfold struct.pack_L.
  destruct ((0 <=? v) && (v <? 4294967296)) eqn:E; [|discriminate].
  apply andb_true_iff in E. destruct E as [E1 E2].
  apply Z.leb_le in E1. apply Z.ltb_lt in E2. lia.
Qed.

Lemma pack_header_raises D sr :
  4294967296 <= 36 + D \/ 2147483648 <= sr ->
  exists e, wave.pack_header D 1 sr 2 = Raise e.
Proof.
  intros H. unfold wave.pack_header.
  destruct (struct.pack_L (36 + D)) as [b1|] eqn:E1; cbn [bind];
    [|eexists; reflexivity].
  destruct (struct.pack_L 16); cbn [bind]; [|eexists; reflexivity].
  destruct (struct.pack_H wave.WAVE_FORMAT_PCM); cbn [bind];
    [|eexists; reflexivity].
  destruct (struct.pack_H 1); cbn [bind]; [|eexists; reflexivity].
  destruct (struct.pack_L sr); cbn [bind]; [|eexists; reflexivity].
  destruct (struct.pack_L (1 * sr * 2)) as [b6|] eqn:E6; cbn [bind];
    [|eexists; reflexivity].
  apply pack_L_inv in E1. apply pack_L_inv in E6. lia.
Qed.

(** The bounds of the round trip are sharp: outside them the encoder
    raises. *)
Lemma pcm16_to_wav_bytes_raises pcm sr :
  sr <= 0 \/ 2147483648 <= sr \/ 4294967296 <= len pcm + 36 ->
  exists e, pcm16_to_wav_bytes pcm sr = Raise e.
Proof.
  intros H.
  assert (Hn : 0 <= len pcm) by (unfold len; lia).
  unfold pcm16_to_wav_bytes, wave.with_open_wb, wave.seq.
  unfold wave.setnchannels, wave.setsampwidth, wave.setframerate. simpl.
  destruct (sr <=? 0) eqn:Es.
  - unfold wave.close, wave.seq, wave._ensure_header_written. simpl.
    eexists. reflexivity.
  - apply Z.leb_gt in Es.
    unfold wave.writeframes, wave.writeframesraw, wave.seq,
      wave._ensure_header_written. simpl.
    replace (sr =? 0) with false by (symmetry; apply Z.eqb_neq; lia).
    unfold wave._write_header. simpl.
    set (D := len pcm / (1 * 2) * 1 * 2).
    assert (HD : len pcm - 1 <= D <= len pcm /\ D mod 2 = 0).
    { unfold D. pose proof (Z.div_mod (len pcm) 2 ltac:(lia)).
      pose proof (Z.mod_pos_bound (len pcm) 2 ltac:(lia)).
      change (1 * 2) with 2. split; [lia|].
      replace (len pcm / 2 * 1 * 2) with (0 + (len pcm / 2) * 2) by lia.
      rewrite Z.mod_add by lia. reflexivity. }
    assert (Hbad : 4294967296 <= 36 + D \/ 2147483648 <= sr).
    { destruct H as [H | [H | H]]; [lia | right; lia | left].
      destruct HD as [HD1 HD2].
      destruct (Z.eq_dec D (len pcm - 1)) as [E|E]; [|lia].
      assert (Hm : (36 + D) mod 2 = 0).
      { replace (36 + D) with (D + 18 * 2) by lia.
        rewrite Z.mod_add by lia. exact HD2. }
      pose proof (Z.div_mod (36 + D) 2 ltac:(lia)). lia. }
    destruct (pack_header_raises D sr Hbad) as [e He]. rewrite He.
    cbv iota beta.
    unfold wave.close, wave.seq, wave._ensure_header_written. simpl.
    replace (sr =? 0) with false by (symmetry; apply Z.eqb_neq; lia).
    unfold wave._write_header. simpl.
    destruct (len pcm / (1 * 2) =? 0) eqn:E0.
    + destruct H as [H | [H | H]]; [lia | |].
      * destruct (pack_header_raises (0 / (1 * 2) * 1 * 2) sr
                    (or_intror H)) as [e2 He2].
        rewrite He2. eexists. reflexivity.
      * exfalso. apply Z.eqb_eq in E0. unfold D in HD. rewrite E0 in HD.
        simpl in HD. lia.
    + fold D. rewrite He. eexists. reflexivity.
Qed.

(** C1 (as amended).  For a sample rate in 1 .. 2^31-1 and a buffer of
    less than 2^32-36 bytes, decoding the encoded buffer gives the
    buffer's 16-bit samples, each exactly its integer over 32768 as a
    float32, and the same rate. *)
Theorem wav_roundtrip (pcm : bytes) (sr : Z) :
  0 < sr < 2147483648 -> len pcm + 36 < 4294967296 ->
  roundtrip pcm sr = Ok (map normalize (samples_of pcm), sr)
  /\ Forall (fun x => is_quotient (normalize x) x 32768 = true)
            (samples_of pcm).
Proof.
  intros Hsr Hlen. split.
  - unfold roundtrip. rewrite pcm16_to_wav_bytes_ok by assumption.
    cbn [bind]. apply wav_decode_canonical; [lia | assumption].
  - eapply Forall_impl; [|apply samples_of_ok].
    intros x Hx. unfold sample_ok in Hx. cbv zeta in Hx.
    apply andb_true_iff in Hx. apply Hx.
Qed.

Lemma wav_roundtrip_witness :
  roundtrip [Byte.x01; Byte.x02; Byte.x03; Byte.xff] 16000
  = Ok (map normalize [513; -253], 16000).
Proof.
  apply (wav_roundtrip [Byte.x01; Byte.x02; Byte.x03; Byte.xff] 16000).
  - lia.
  - vm_compute. reflexivity.
Defined.

(** C1 as stated fails: a non-empty buffer at the positive rate 2^31
    cannot be encoded, the byte-rate field of the header overflows. *)
Lemma wav_roundtrip_counterexample :
  [Byte.x00; Byte.x00] <> [] /\ 0 < 2147483648
  /\ (exists msg,
        roundtrip [Byte.x00; Byte.x00] 2147483648 = Raise (StructError msg))
  /\ roundtrip [Byte.x00; Byte.x00] 2147483648
     <> Ok (map normalize (samples_of [Byte.x00; Byte.x00]), 2147483648).
Proof.
  split; [discriminate|]. split; [lia|]. split.
  - eexists. vm_compute. reflexivity.
  - vm_compute. discriminate.
Qed.

Lemma open_rb_nframes wav wf :
  wave.open_rb wav = Ok wf ->
  wave.nframes wf = chunk.c_size (wave.data_chunk wf) / wave.framesize wf.
Proof.
  unfold wave.open_rb, wave.open_rb_fuel. intros H.
  destruct (chunk.open_riff wav) as [r|]; cbn [bind] in H; [|discriminate].
  destruct (negb _); [discriminate|].
  destruct (chunk.riff_read r 4) as [form r0].
  destruct (negb _); [discriminate|].
  destruct (wave.read_chunks _ r0 None) as [[[f|] [[c r1]|]]|];
    cbn [bind] in H; try discriminate.
  inversion H. reflexivity.
Qed.

Lemma frombuffer_odd raw :
  Nat.even (List.length raw) = false ->
  frombuffer_int16 raw
  = Raise (ValueError "buffer size must be a multiple of element size").
Proof.
  assert (H : forall n (l : bytes), (List.length l <= n)%nat ->
            Nat.even (List.length l) = false ->
            frombuffer_int16 l
            = Raise (ValueError
                       "buffer size must be a multiple of element size")).
  { induction n as [|n IH]; intros l Hl He.
    - destruct l; [discriminate He | simpl in Hl; lia].
    - destruct l as [|lo [|hi rest]]; [discriminate He | reflexivity |].
      cbn [frombuffer_int16]. rewrite IH; [reflexivity | simpl in Hl; lia|].
      exact He. }
  apply (H (List.length raw)). lia.
Qed.

(** C7 (as amended).  For a file [wave] can open, decoding fails with
    the format error exactly when it is not mono or not 2 bytes wide.
    Otherwise it reads the frames of the data chunk, as far as the file
    and its RIFF size hold them: when they are whole samples it returns
    every sample over 32768, each within [-1.0, 1.0], with the declared
    rate, and when they are an odd number of bytes it raises
    [ValueError], which is neither the format error nor a result.  An
    empty data chunk gives the empty audio. *)
Theorem wav_decode_cases (wav : bytes) (wf : wave.Wave_read) :
  wave.open_rb wav = Ok wf ->
  let raw := wave.readframes wf (wave.nframes wf) in
  (is_format_error (wav_bytes_to_float_np wav)
   <-> wave.nchannels wf <> 1 \/ wave.sampwidth wf <> 2)
  /\ (wave.nchannels wf = 1 -> wave.sampwidth wf = 2 ->
      (Nat.even (List.length raw) = true ->
       wav_bytes_to_float_np wav
       = Ok (map normalize (samples_of raw), wave.framerate wf)
       /\ Forall (fun x => is_quotient (normalize x) x 32768 = true
                           /\ in_unit_range (normalize x) = true)
                 (samples_of raw))
      /\ (Nat.even (List.length raw) = false ->
          wav_bytes_to_float_np wav
          = Raise (ValueError
                     "buffer size must be a multiple of element size")))
  /\ (wave.nchannels wf = 1 -> wave.sampwidth wf = 2 ->
      chunk.c_size (wave.data_chunk wf) = 0 ->
      wav_bytes_to_float_np wav = Ok ([], wave.framerate wf)).
Proof.
  intros Hopen raw. unfold wav_bytes_to_float_np. rewrite Hopen.
  cbn [bind]. fold raw.
  split; [|split].
  - split.
    + intros [d Hd].
      destruct (wave.nchannels wf =? 1) eqn:E1;
        [|apply Z.eqb_neq in E1; auto].
      destruct (wave.sampwidth wf =? 2) eqn:E2;
        [|apply Z.eqb_neq in E2; auto].
      exfalso. cbn [negb orb] in Hd.
      destruct (Nat.even (List.length raw)) eqn:Ee.
      * rewrite (frombuffer_even raw Ee) in Hd. cbn [bind] in Hd.
        destruct (len (samples_of raw) =? 0); discriminate.
      * rewrite (frombuffer_odd raw Ee) in Hd. discriminate.
    + intros H.
      replace (negb (wave.nchannels wf =? 1) || negb (wave.sampwidth wf =? 2))
        with true; [eexists; reflexivity|].
      symmetry. apply orb_true_iff.
      destruct H as [H|H]; [left | right];
        apply negb_true_iff, Z.eqb_neq; exact H.
  - intros H1 H2. rewrite H1, H2. cbn [Z.eqb Pos.eqb negb orb]. split.
    + intros He. rewrite (frombuffer_even raw He). cbn [bind]. split.
      * destruct (len (samples_of raw) =? 0) eqn:E; [|reflexivity].
        apply Z.eqb_eq in E. destruct (samples_of raw); [reflexivity|].
        unfold len in E. simpl in E. lia.
      * eapply Forall_impl; [|apply samples_of_ok].
        intros x Hx. unfold sample_ok in Hx. cbv zeta in Hx.
        apply andb_true_iff in Hx. split; apply Hx.
    + intros He. rewrite (frombuffer_odd raw He). reflexivity.
  - intros H1 H2 H0. rewrite H1, H2. cbn [Z.eqb Pos.eqb negb orb].
    assert (Hr : raw = []).
    { unfold raw, wave.readframes.
      rewrite (open_rb_nframes wav wf Hopen), H0. reflexivity. }
    rewrite Hr. reflexivity.
Qed.

Lemma wav_decode_cases_witness :
  wav_bytes_to_float_np two_samples_wav
  = Ok (map normalize [1; -32768], 8000)
  /\ wav_bytes_to_float_np (wav_header 8000 0) = Ok ([], 8000).
Proof.
  split.
  - refine (proj1 (proj1 (proj1 (proj2
              (wav_decode_cases two_samples_wav
                 (wave.mkRead 1 2 8000 2 2
                    (chunk.mkChunk (bytes_of_string "data") 4 0)
                    (chunk.mkRiff two_samples_wav
                                  (bytes_of_string "RIFF") 40 36))
                 _)) _ _) _));
      vm_compute; reflexivity.
  - refine (proj2 (proj2
              (wav_decode_cases (wav_header 8000 0)
                 (wave.mkRead 1 2 8000 2 0
                    (chunk.mkChunk (bytes_of_string "data") 0 0)
                    (chunk.mkRiff (wav_header 8000 0)
                                  (bytes_of_string "RIFF") 36 36))
                 _)) _ _ _);
      vm_compute; reflexivity.
Defined.

(** C7 as stated fails: [wave] opens the truncated file as mono 16-bit,
    and decoding it ends in a [ValueError], neither the format error nor
    a result.  So does a file that is all there, when its RIFF size stops
    one byte short of the end. *)
Lemma wav_decode_counterexample :
  (exists wf, wave.open_rb truncated_wav = Ok wf
     /\ wave.nchannels wf = 1 /\ wave.sampwidth wf = 2
     /\ wav_bytes_to_float_np truncated_wav
        = Raise (ValueError "buffer size must be a multiple of element size"))
  /\ (exists wf, wave.open_rb short_riff_wav = Ok wf
        /\ wave.nchannels wf = 1 /\ wave.sampwidth wf = 2
        /\ len short_riff_wav = 48
        /\ chunk.c_size (wave.data_chunk wf) = 4
        /\ wave.readframes wf (wave.nframes wf)
           = [Byte.x01; Byte.x02; Byte.x03]
        /\ wav_bytes_to_float_np short_riff_wav
           = Raise (ValueError
                      "buffer size must be a multiple of element size")).
Proof.
  split.
  - eexists. split; [vm_compute; reflexivity|].
    split; [reflexivity|]. split; [reflexivity|].
    vm_compute. reflexivity.
  - eexists. split; [vm_compute; reflexivity|].
    repeat split; vm_compute; reflexivity.
Qed.

End WavFraming.

(* ------------------------------------------------------------------ *)
(** ** The chunk loop of [wave.open] terminates within its fuel *)

Section WaveFuel.

Lemma len_file_read content pos size :
  0 <= pos ->
  len (chunk.file_read content pos size) <= Z.max size 0
  /\ (0 < len (chunk.file_read content pos size) ->
      pos + len (chunk.file_read content pos size) <= len content).
Proof.
  intros Hp. unfold chunk.file_read, take, drop, len.
  rewrite length_firstn, length_skipn.
  set (k := Z.to_nat size). set (p := Z.to_nat pos).
  set (n := List.length content).
  pose proof (Nat.le_min_l k (n - p)) as Hl.
  pose proof (Nat.le_min_r k (n - p)) as Hr.
  set (m := Nat.min k (n - p)) in *.
  change (Init.Nat.min k (n - p)) with m.
  clearbody m. unfold k, p in *. lia.
Qed.

Lemma riff_read_spec r n data r' :
  0 <= chunk.size_read r ->
  chunk.riff_read r n = (data, r') ->
  chunk.content r' = chunk.content r
  /\ chunk.chunksize r' = chunk.chunksize r
  /\ chunk.size_read r + len data <= chunk.size_read r'
  /\ len data <= Z.max n 0
  /\ (0 < len data ->
      8 + chunk.size_read r + len data <= len (chunk.content r)).
Proof.
  intros H0. unfold chunk.riff_read.
  destruct (chunk.chunksize r <=? chunk.size_read r).
  - intros E. inversion E; subst. unfold len. simpl.
    repeat split; try reflexivity; lia.
  - intros E.
    set (size := Z.min n (chunk.chunksize r - chunk.size_read r)) in E.
    set (d := chunk.file_read (chunk.content r) (8 + chunk.size_read r) size)
      in E.
    pose proof (len_file_read (chunk.content r) (8 + chunk.size_read r) size
                  ltac:(lia)) as [H1 H2].
    fold d in H1, H2.
    set (extra := chunk.file_read (chunk.content r)
                    (8 + (chunk.size_read r + len d)) 1) in E.
    assert (Hx : 0 <= len extra) by (unfold len; lia).
    destruct ((chunk.size_read r + len d =? chunk.chunksize r)
              && Z.odd (chunk.chunksize r));
      injection E as Ed Er; subst data r';
      cbn [chunk.content chunk.chunksize chunk.size_read];
      repeat split; try reflexivity; try lia.
Qed.

Lemma unpack_L_spec b v :
  struct.unpack_L b = Ok v -> 0 <= v /\ 4 <= len b.
Proof.
  destruct b as [|b0 [|b1 [|b2 [|b3 rest]]]]; try discriminate.
  intros H.
  assert (Hv : v = byte_to_Z b0 + 256 * byte_to_Z b1
                   + 65536 * byte_to_Z b2 + 16777216 * byte_to_Z b3)
    by (unfold struct.unpack_L in H; congruence).
  pose proof (byte_to_Z_range b0). pose proof (byte_to_Z_range b1).
  pose proof (byte_to_Z_range b2). pose proof (byte_to_Z_range b3).
  unfold len. cbn [List.length]. lia.
Qed.

Lemma open_chunk_spec r c r' :
  0 <= chunk.size_read r ->
  chunk.open_chunk r = Ok (c, r') ->
  chunk.content r' = chunk.content r
  /\ chunk.chunksize r' = chunk.chunksize r
  /\ chunk.size_read r + 8 <= chunk.size_read r'
  /\ 8 <= avail r
  /\ 0 <= chunk.c_size c /\ chunk.c_read c = 0.
Proof.
  intros H0. unfold chunk.open_chunk.
  destruct (chunk.riff_read r 4) as [name r1] eqn:E1.
  destruct (len name <? 4) eqn:En; [discriminate|].
  apply Z.ltb_ge in En.
  destruct (chunk.riff_read r1 4) as [szb r2] eqn:E2.
  destruct (struct.unpack_L szb) as [size|] eqn:Eu; [|discriminate].
  intros H. inversion H; subst. clear H.
  apply riff_read_spec in E1; [|exact H0].
  destruct E1 as (Hc1 & Hs1 & Hr1 & Hl1 & Hb1).
  apply riff_read_spec in E2; [|lia].
  destruct E2 as (Hc2 & Hs2 & Hr2 & Hl2 & Hb2).
  apply unpack_L_spec in Eu. destruct Eu as [Hv Hl].
  cbn [chunk.c_size chunk.c_read]. unfold avail.
  specialize (Hb1 ltac:(lia)). specialize (Hb2 ltac:(lia)).
  rewrite Hc1 in Hb2.
  repeat split; try congruence; lia.
Qed.

Lemma chunk_read_spec c r size data c' r' :
  0 <= chunk.size_read r -> chunk_inv c ->
  chunk.chunk_read c r size = (data, c', r') ->
  chunk.content r' = chunk.content r
  /\ chunk.chunksize r' = chunk.chunksize r
  /\ chunk.size_read r <= chunk.size_read r'
  /\ chunk_inv c'.
Proof.
  intros H0 Hinv. unfold chunk.chunk_read.
  destruct (chunk.c_size c <=? chunk.c_read c) eqn:Ec.
  - intros E. injection E as _ <- <-. repeat split; try lia. exact Hinv.
  - apply Z.leb_gt in Ec.
    set (size' := Z.min size (chunk.c_size c - chunk.c_read c)).
    destruct (chunk.riff_read r size') as [d r1] eqn:E1.
    apply riff_read_spec in E1; [|exact H0].
    destruct E1 as (Hc1 & Hs1 & Hr1 & Hl1 & _).
    assert (Hd : 0 <= len d) by (unfold len; lia).
    destruct ((chunk.c_read c + len d =? chunk.c_size c)
              && Z.odd (chunk.c_size c)) eqn:Eo.
    + destruct (chunk.riff_read r1 1) as [dummy r2] eqn:E2.
      apply riff_read_spec in E2; [|lia].
      destruct E2 as (Hc2 & Hs2 & Hr2 & Hl2 & _).
      assert (Hd2 : 0 <= len dummy) by (unfold len; lia).
      apply andb_true_iff in Eo. destruct Eo as [Eq Eodd].
      apply Z.eqb_eq in Eq.
      intros E. injection E as _ <- <-.
      repeat split; try congruence; try lia.
      right. cbn [chunk.c_size chunk.c_read]. split; [exact Eodd | lia].
    + intros E. injection E as _ <- <-.
      repeat split; try congruence; try lia.
      left. cbn [chunk.c_size chunk.c_read]. lia.
Qed.

Lemma chunk_skip_spec c r r' :
  chunk_inv c -> chunk.chunk_skip c r = Ok r' ->
  chunk.content r' = chunk.content r
  /\ chunk.chunksize r' = chunk.chunksize r
  /\ chunk.size_read r <= chunk.size_read r'.
Proof.
  intros Hinv. unfold chunk.chunk_skip, chunk.riff_seek_rel.
  destruct (_ || _); [discriminate|].
  intros E. injection E as <-.
  cbn [chunk.content chunk.chunksize chunk.size_read].
  repeat split. destruct Hinv as [H | [Ho H]].
  - destruct (Z.odd (chunk.c_size c)); lia.
  - rewrite Ho. lia.
Qed.

Lemma read_fmt_chunk_spec c r f c' r' :
  0 <= chunk.size_read r -> chunk_inv c ->
  wave._read_fmt_chunk c r = Ok (f, c', r') ->
  chunk.content r' = chunk.content r
  /\ chunk.chunksize r' = chunk.chunksize r
  /\ chunk.size_read r <= chunk.size_read r'
  /\ chunk_inv c'.
Proof.
  intros H0 Hinv. unfold wave._read_fmt_chunk.
  destruct (chunk.chunk_read c r 14) as [[b c1] r1] eqn:E1.
  apply chunk_read_spec in E1; [|exact H0|exact Hinv].
  destruct E1 as (Hc1 & Hs1 & Hr1 & Hi1).
  destruct (wave.unpack_fmt b) as [[[tag nch] rate]|]; [|discriminate].
  destruct (tag =? wave.WAVE_FORMAT_PCM); [|discriminate].
  destruct (chunk.chunk_read c1 r1 2) as [[b2 c2] r2] eqn:E2.
  apply chunk_read_spec in E2; [|lia|exact Hi1].
  destruct E2 as (Hc2 & Hs2 & Hr2 & Hi2).
  destruct (struct.unpack_H b2) as [bits|]; [|discriminate].
  destruct (_ =? 0); [discriminate|].
  destruct (nch =? 0); [discriminate|].
  intros E. injection E as _ <- <-.
  repeat split; try congruence; lia.
Qed.

(** One more round of fuel changes nothing once the fuel exceeds an
    eighth of what is left of the file. *)
Lemma read_chunks_fuel fuel : forall r f,
  0 <= chunk.size_read r -> avail r < 8 * Z.of_nat fuel ->
  wave.read_chunks (S fuel) r f = wave.read_chunks fuel r f.
Proof.
  induction fuel as [|fuel IH]; intros r f H0 Ha.
  - rewrite read_chunks_S. cbn [wave.read_chunks].
    destruct (chunk.open_chunk r) as [[c r1]|] eqn:E; [|reflexivity].
    apply open_chunk_spec in E; [|exact H0]. lia.
  - rewrite (read_chunks_S (S fuel)), (read_chunks_S fuel).
    destruct (chunk.open_chunk r) as [[c r1]|] eqn:E; [|reflexivity].
    apply open_chunk_spec in E; [|exact H0].
    destruct E as (Hc & Hs & Hr & Hav & Hsz & Hrd).
    assert (Hinv : chunk_inv c) by (left; lia).
    assert (Ha1 : avail r1 < 8 * Z.of_nat fuel)
      by (unfold avail in *; rewrite Hc; lia).
    destruct (list_eq_dec _ _ _).
    + destruct (wave._read_fmt_chunk c r1) as [[[f' c'] r2]|] eqn:Ef;
        [|reflexivity].
      apply read_fmt_chunk_spec in Ef; [|lia|exact Hinv].
      destruct Ef as (Hc2 & Hs2 & Hr2 & Hi2). cbn [bind].
      destruct (chunk.chunk_skip c' r2) as [r3|] eqn:Ek; [|reflexivity].
      apply chunk_skip_spec in Ek; [|exact Hi2].
      destruct Ek as (Hc3 & Hs3 & Hr3). cbn [bind].
      apply IH; [lia|]. unfold avail in *. rewrite Hc3, Hc2. lia.
    + destruct (list_eq_dec _ _ _); [reflexivity|].
      destruct (chunk.chunk_skip c r1) as [r3|] eqn:Ek; [|reflexivity].
      apply chunk_skip_spec in Ek; [|exact Hinv].
      destruct Ek as (Hc3 & Hs3 & Hr3). cbn [bind].
      apply IH; [lia|]. unfold avail in *. rewrite Hc3. lia.
Qed.

Lemma read_chunks_more fuel k : forall r f,
  0 <= chunk.size_read r -> avail r < 8 * Z.of_nat fuel ->
  wave.read_chunks (k + fuel) r f = wave.read_chunks fuel r f.
Proof.
  induction k as [|k IH]; intros r f H0 Ha; [reflexivity|].
  cbn [Nat.add]. rewrite read_chunks_fuel by (try assumption; lia).
  apply IH; assumption.
Qed.

(** The loop of [Wave_read.initfp] never runs out of rounds: with any
    larger fuel [wave.open] gives the same result. *)
Lemma open_rb_fuel_enough (wav : bytes) (fuel : nat) :
  (List.length wav < fuel)%nat ->
  wave.open_rb_fuel fuel wav = wave.open_rb wav.
Proof.
  intros Hf. unfold wave.open_rb, wave.open_rb_fuel.
  destruct (chunk.open_riff wav) as [r|] eqn:Er; [|reflexivity].
  cbn [bind]. destruct (negb _); [reflexivity|].
  assert (Hr : chunk.content r = wav /\ chunk.size_read r = 0).
  { unfold chunk.open_riff in Er. destruct (_ <? 4); [discriminate|].
    destruct (struct.unpack_L _); [|discriminate].
    injection Er as <-. split; reflexivity. }
  destruct Hr as [Hc Hs].
  destruct (chunk.riff_read r 4) as [form r0] eqn:E0.
  apply riff_read_spec in E0; [|lia].
  destruct E0 as (Hc0 & _ & Hr0 & _).
  destruct (negb _); [reflexivity|].
  assert (Hd : 0 <= len form) by (unfold len; lia).
  assert (Ha : avail r0 < 8 * Z.of_nat (S (List.length wav))).
  { unfold avail. rewrite Hc0, Hc. unfold len. lia. }
  replace fuel with ((fuel - S (List.length wav)) + S (List.length wav))%nat
    by lia.
  rewrite read_chunks_more by (try assumption; lia).
  reflexivity.
Qed.

End WaveFuel.

(* ------------------------------------------------------------------ *)
(** ** The scanner of [json.loads] terminates within its fuel *)

Section JsonFuel.

Local Abbreviation L := String.length.

Lemma skip_ws_le s : (L (json.skip_ws s) <= L s)%nat.
Proof.
  induction s as [|c s IH]; [apply Nat.le_refl|].
  cbn [json.skip_ws]. destruct (json.is_ws c); cbn [String.length]; lia.
Qed.

Lemma drop_prefix_le p : forall s r,
  drop_prefix p s = Some r -> (L r <= L s)%nat.
Proof.
  induction p as [|a p IH]; intros s r H.
  - cbn [drop_prefix] in H. injection H as <-. apply Nat.le_refl.
  - cbn [drop_prefix] in H. destruct s as [|b s]; [discriminate|].
    destruct (Ascii.eqb a b); [|discriminate].
    apply IH in H. cbn [String.length]. lia.
Qed.

Lemma digits_le s : forall acc n v k r,
  json.digits s acc n = (v, k, r) -> (L r <= L s)%nat.
Proof.
  induction s as [|c s IH]; intros acc n v k r H; cbn [json.digits] in H.
  - injection H as _ _ <-. apply Nat.le_refl.
  - destruct (json.digit_val c).
    + apply IH in H. cbn [String.length]. lia.
    + injection H as _ _ <-. apply Nat.le_refl.
Qed.

Lemma sign_part_le s b r : json.sign_part s = (b, r) -> (L r <= L s)%nat.
Proof.
  unfold json.sign_part. destruct s as [|c s].
  - intros H. injection H as _ <-. apply Nat.le_refl.
  - destruct (Ascii.eqb c "-"); intros H; injection H as _ <-;
      cbn [String.length]; lia.
Qed.

Lemma int_part_le s v k r :
  json.int_part s = Some (v, k, r) -> (L r <= L s)%nat.
Proof.
  unfold json.int_part. destruct s as [|c s]; [discriminate|].
  destruct (Ascii.eqb c "0").
  - intros H. injection H as _ _ <-. cbn [String.length]. lia.
  - destruct (json.digit_val c); [|discriminate].
    intros H.
    assert (H' : json.digits (String c s) 0 0 = (v, k, r)) by congruence.
    apply digits_le in H'. exact H'.
Qed.

Lemma frac_part_le s v k r :
  json.frac_part s = (v, k, r) -> (L r <= L s)%nat.
Proof.
  unfold json.frac_part. destruct s as [|c s].
  - intros H. injection H as _ _ <-. apply Nat.le_refl.
  - destruct (Ascii.eqb c ".").
    + destruct (json.digits s 0 0) as [[v' n'] r'] eqn:E.
      apply digits_le in E.
      destruct (n' =? 0); intros H; injection H as _ _ <-;
        cbn [String.length]; lia.
    + intros H. injection H as _ _ <-. apply Nat.le_refl.
Qed.

Lemma exp_part_le s e r : json.exp_part s = (e, r) -> (L r <= L s)%nat.
Proof.
  unfold json.exp_part. destruct s as [|c s].
  - intros H. injection H as _ <-. apply Nat.le_refl.
  - destruct (_ || _).
    + set (sg := match s with
                 | EmptyString => (false, s)
                 | String c' r' => _
                 end).
      assert (Hsg : (L (snd sg) <= L s)%nat).
      { unfold sg. destruct s as [|c' r']; [apply Nat.le_refl|].
        destruct (Ascii.eqb c' "-"); [cbn; lia|].
        destruct (Ascii.eqb c' "+"); cbn; lia. }
      destruct sg as [eneg r1]. cbn [snd] in Hsg.
      destruct (json.digits r1 0 0) as [[v' n'] r'] eqn:E.
      apply digits_le in E.
      destruct (n' =? 0); intros H; injection H as _ <-;
        cbn [String.length]; lia.
    + intros H. injection H as _ <-. apply Nat.le_refl.
Qed.

Lemma number_le s res r :
  json.number s = Some (res, r) -> (L r <= L s)%nat.
Proof.
  unfold json.number.
  destruct (json.sign_part s) as [neg s1] eqn:E1. apply sign_part_le in E1.
  destruct (json.int_part s1) as [[[iv ilen] s2]|] eqn:E2; [|discriminate].
  apply int_part_le in E2.
  destruct (json.frac_part s2) as [[fv flen] s3] eqn:E3.
  apply frac_part_le in E3.
  destruct (json.exp_part s3) as [ev s4] eqn:E4. apply exp_part_le in E4.
  destruct (_ && _); [destruct (_ <? _)|];
    intros H; injection H as _ <-; lia.
Qed.

Lemma scalar_le s v r : json.scalar s = Ok (v, r) -> (L r <= L s)%nat.
Proof.
  unfold json.scalar.
  destruct (drop_prefix "null" s) eqn:E1.
  { intros H. injection H as _ <-. eapply drop_prefix_le; exact E1. }
  destruct (drop_prefix "true" s) eqn:E2.
  { intros H. injection H as _ <-. eapply drop_prefix_le; exact E2. }
  destruct (drop_prefix "false" s) eqn:E3.
  { intros H. injection H as _ <-. eapply drop_prefix_le; exact E3. }
  destruct (json.number s) as [[[w|e] r0]|] eqn:E4.
  { intros H. injection H as _ <-. eapply number_le; exact E4. }
  { discriminate. }
  destruct (drop_prefix "NaN" s) eqn:E5.
  { intros H. injection H as _ <-. eapply drop_prefix_le; exact E5. }
  destruct (drop_prefix "Infinity" s) eqn:E6.
  { intros H. injection H as _ <-. eapply drop_prefix_le; exact E6. }
  destruct (drop_prefix "-Infinity" s) eqn:E7.
  { intros H. injection H as _ <-. eapply drop_prefix_le; exact E7. }
  discriminate.
Qed.

Lemma hex4_length s v r : json.hex4 s = Some (v, r) -> L s = (4 + L r)%nat.
Proof.
  unfold json.hex4.
  destruct s as [|a [|b [|c [|d rest]]]]; try discriminate.
  destruct (json.hex_val a); [|discriminate].
  destruct (json.hex_val b); [|discriminate].
  destruct (json.hex_val c); [|discriminate].
  destruct (json.hex_val d); [|discriminate].
  intros H. injection H as _ <-. reflexivity.
Qed.

Lemma low_surrogate_le u s p r :
  json.low_surrogate u s = Some (p, r) -> (L r <= L s)%nat.
Proof.
  unfold json.low_surrogate.
  destruct s as [|c1 [|c2 r2]]; try discriminate.
  destruct (_ && _); [|discriminate].
  destruct (json.hex4 r2) as [[u2 r3]|] eqn:E; [|discriminate].
  apply hex4_length in E.
  destruct (_ && _); [|discriminate].
  intros H. injection H as _ <-. cbn [String.length]. lia.
Qed.

Lemma scanstring_S fuel s :
  json.scanstring (S fuel) s
  = match s with
    | EmptyString => None
    | String c rest =>
        if Ascii.eqb c "034" then Some (EmptyString, rest)
        else if Ascii.eqb c "\" then
          match rest with
          | EmptyString => None
          | String e rest' =>
              if Ascii.eqb e "u" then
                match json.hex4 rest' with
                | None => None
                | Some (u1, r1) =>
                    let '(cp, r) :=
                      match (if (55296 <=? u1) && (u1 <=? 56319)
                             then json.low_surrogate u1 r1 else None) with
                      | Some p => p
                      | None => (u1, r1)
                      end in
                    match json.scanstring fuel r with
                    | Some (t, r') =>
                        Some (String.append (json.utf8 cp) t, r')
                    | None => None
                    end
                end
              else
                match json.escape_char e with
                | None => None
                | Some ch =>
                    match json.scanstring fuel rest' with
                    | Some (t, r) => Some (String ch t, r)
                    | None => None
                    end
                end
          end
        else if Nat.ltb (nat_of_ascii c) 32 then None
        else match json.scanstring fuel rest with
             | Some (t, r) => Some (String c t, r)
             | None => None
             end
    end.
Proof. reflexivity. Qed.

(** What follows a high surrogate: the text after one or two escapes. *)
Lemma surrogate_rest_le u1 r1 cp r :
  match (if (55296 <=? u1) && (u1 <=? 56319)
         then json.low_surrogate u1 r1 else None) with
  | Some p => p
  | None => (u1, r1)
  end = (cp, r) -> (L r <= L r1)%nat.
Proof.
  destruct (_ && _).
  - destruct (json.low_surrogate u1 r1) as [[p q]|] eqn:E.
    + apply low_surrogate_le in E. intros H. injection H as _ <-. exact E.
    + intros H. injection H as _ <-. apply Nat.le_refl.
  - intros H. injection H as _ <-. apply Nat.le_refl.
Qed.

(** A string literal ends strictly further in the text. *)
Lemma scanstring_lt fuel : forall s t r,
  json.scanstring fuel s = Some (t, r) -> (L r < L s)%nat.
Proof.
  induction fuel as [|fuel IH]; intros s t r H; [discriminate|].
  rewrite scanstring_S in H.
  destruct s as [|c rest]; [discriminate|]. cbn [String.length].
  destruct (Ascii.eqb c "034"); [injection H as _ <-; lia|].
  destruct (Ascii.eqb c "\").
  - destruct rest as [|e rest']; [discriminate|]. cbn [String.length].
    destruct (Ascii.eqb e "u").
    + destruct (json.hex4 rest') as [[u1 r1]|] eqn:Eh; [|discriminate].
      apply hex4_length in Eh.
      destruct (match (if (55296 <=? u1) && (u1 <=? 56319)
                       then json.low_surrogate u1 r1 else None) with
                | Some p => p
                | None => (u1, r1)
                end) as [cp r0] eqn:Es.
      apply surrogate_rest_le in Es.
      destruct (json.scanstring fuel r0) as [[t' r']|] eqn:E; [|discriminate].
      apply IH in E. injection H as _ <-. lia.
    + destruct (json.escape_char e); [|discriminate].
      destruct (json.scanstring fuel rest') as [[t' r']|] eqn:E;
        [|discriminate].
      apply IH in E. injection H as _ <-. lia.
  - destruct (Nat.ltb _ _); [discriminate|].
    destruct (json.scanstring fuel rest) as [[t' r']|] eqn:E; [|discriminate].
    apply IH in E. injection H as _ <-. lia.
Qed.

(** One more round changes nothing once the fuel exceeds the length. *)
Lemma scanstring_fuel fuel : forall s,
  (L s < fuel)%nat -> json.scanstring (S fuel) s = json.scanstring fuel s.
Proof.
  induction fuel as [|fuel IH]; intros s Hs; [lia|].
  rewrite (scanstring_S (S fuel)), (scanstring_S fuel).
  destruct s as [|c rest]; [reflexivity|]. cbn [String.length] in Hs.
  destruct (Ascii.eqb c "034"); [reflexivity|].
  destruct (Ascii.eqb c "\").
  - destruct rest as [|e rest']; [reflexivity|]. cbn [String.length] in Hs.
    destruct (Ascii.eqb e "u").
    + destruct (json.hex4 rest') as [[u1 r1]|] eqn:Eh; [|reflexivity].
      apply hex4_length in Eh.
      destruct (match (if (55296 <=? u1) && (u1 <=? 56319)
                       then json.low_surrogate u1 r1 else None) with
                | Some p => p
                | None => (u1, r1)
                end) as [cp r0] eqn:Es.
      apply surrogate_rest_le in Es.
      rewrite IH by lia. reflexivity.
    + destruct (json.escape_char e); [|reflexivity].
      rewrite IH by lia. reflexivity.
  - destruct (Nat.ltb _ _); [reflexivity|].
    rewrite IH by lia. reflexivity.
Qed.

Lemma string_literal_lt s t r :
  json.string_literal s = Some (t, r) -> (L r < L s)%nat.
Proof. apply scanstring_lt. Qed.

(** [json.string_literal] has all the rounds it can use. *)
Lemma string_literal_fuel_enough k s :
  json.scanstring (k + S (L s)) s = json.string_literal s.
Proof.
  induction k as [|k IH]; [reflexivity|].
  cbn [Nat.add]. rewrite scanstring_fuel by lia. exact IH.
Qed.

Lemma scan_once_S fuel room s :
  json.scan_once (S fuel) room s
  = match s with
    | EmptyString => Raise json.decode_error
    | String c rest =>
        if Ascii.eqb c "034" then
          match json.string_literal rest with
          | Some (t, r) => Ok (PStr t, r)
          | None => Raise json.decode_error
          end
        else if Ascii.eqb c "{" then
          match room with
          | O => Raise (json.recursion_error "object")
          | S room =>
              match json.skip_ws rest with
              | EmptyString => Raise json.decode_error
              | String c' r =>
                  if Ascii.eqb c' "}" then Ok (PDict [], r)
                  else if Ascii.eqb c' "034"
                  then json.object_items fuel room r []
                  else Raise json.decode_error
              end
          end
        else if Ascii.eqb c "[" then
          match room with
          | O => Raise (json.recursion_error "array")
          | S room =>
              match json.skip_ws rest with
              | EmptyString => Raise json.decode_error
              | String c' r =>
                  if Ascii.eqb c' "]" then Ok (PList [], r)
                  else json.array_items fuel room (String c' r) []
              end
          end
        else json.scalar s
    end.
Proof. reflexivity. Qed.

Lemma array_items_S fuel room s acc :
  json.array_items (S fuel) room s acc
  = ('(v, r) <- json.scan_once fuel room s ;;
     match json.skip_ws r with
     | EmptyString => Raise json.decode_error
     | String c r' =>
         if Ascii.eqb c "]" then Ok (PList (rev (v :: acc)), r')
         else if Ascii.eqb c ","
         then json.array_items fuel room (json.skip_ws r') (v :: acc)
         else Raise json.decode_error
     end).
Proof. reflexivity. Qed.

Lemma object_items_S fuel room s acc :
  json.object_items (S fuel) room s acc
  = match json.string_literal s with
    | None => Raise json.decode_error
    | Some (key, r) =>
        match json.skip_ws r with
        | EmptyString => Raise json.decode_error
        | String c r1 =>
            if Ascii.eqb c ":" then
              '(v, r2) <- json.scan_once fuel room (json.skip_ws r1) ;;
              let acc := dict_set acc key v in
              match json.skip_ws r2 with
              | EmptyString => Raise json.decode_error
              | String c2 r3 =>
                  if Ascii.eqb c2 "}" then Ok (PDict acc, r3)
                  else if Ascii.eqb c2 "," then
                    match json.skip_ws r3 with
                    | EmptyString => Raise json.decode_error
                    | String c4 r4 =>
                        if Ascii.eqb c4 "034"
                        then json.object_items fuel room r4 acc
                        else Raise json.decode_error
                    end
                  else Raise json.decode_error
              end
            else Raise json.decode_error
        end
    end.
Proof. reflexivity. Qed.

(** A value, and the items up to a closing bracket, end no earlier in the
    text than they start. *)
Lemma scan_le fuel :
  (forall room s v r,
     json.scan_once fuel room s = Ok (v, r) -> (L r <= L s)%nat)
  /\ (forall room s acc v r,
        json.array_items fuel room s acc = Ok (v, r) -> (L r <= L s)%nat)
  /\ (forall room s acc v r,
        json.object_items fuel room s acc = Ok (v, r) -> (L r <= L s)%nat).
Proof.
  induction fuel as [|fuel (IHs & IHa & IHo)].
  { repeat split; intros; discriminate. }
  split; [|split].
  - intros room s v r H. rewrite scan_once_S in H.
    destruct s as [|c rest]; [discriminate|].
    destruct (Ascii.eqb c "034").
    { destruct (json.string_literal rest) as [[t r0]|] eqn:E; [|discriminate].
      apply string_literal_lt in E. injection H as _ <-.
      cbn [String.length]. lia. }
    destruct (Ascii.eqb c "{").
    { destruct room as [|room]; [discriminate|].
      pose proof (skip_ws_le rest) as Hw.
      destruct (json.skip_ws rest) as [|c' r0]; [discriminate|].
      cbn [String.length] in *.
      destruct (Ascii.eqb c' "}"); [injection H as _ <-; lia|].
      destruct (Ascii.eqb c' "034"); [|discriminate].
      apply IHo in H. lia. }
    destruct (Ascii.eqb c "[").
    { destruct room as [|room]; [discriminate|].
      pose proof (skip_ws_le rest) as Hw.
      destruct (json.skip_ws rest) as [|c' r0]; [discriminate|].
      destruct (Ascii.eqb c' "]");
        [injection H as _ <-; cbn [String.length] in *; lia|].
      apply IHa in H. cbn [String.length] in *. lia. }
    apply scalar_le in H. exact H.
  - intros room s acc v r H. rewrite array_items_S in H.
    destruct (json.scan_once fuel room s) as [[w r0]|] eqn:E; [|discriminate].
    apply IHs in E. cbn [bind] in H.
    pose proof (skip_ws_le r0) as Hw.
    destruct (json.skip_ws r0) as [|c r']; [discriminate|].
    cbn [String.length] in Hw.
    destruct (Ascii.eqb c "]"); [injection H as _ <-; lia|].
    destruct (Ascii.eqb c ","); [|discriminate].
    apply IHa in H. pose proof (skip_ws_le r'). lia.
  - intros room s acc v r H. rewrite object_items_S in H.
    destruct (json.string_literal s) as [[key r0]|] eqn:E; [|discriminate].
    apply string_literal_lt in E.
    pose proof (skip_ws_le r0) as Hw.
    destruct (json.skip_ws r0) as [|c r1]; [discriminate|].
    cbn [String.length] in Hw.
    destruct (Ascii.eqb c ":"); [|discriminate].
    destruct (json.scan_once fuel room (json.skip_ws r1)) as [[w r2]|] eqn:E2;
      [|discriminate].
    apply IHs in E2. pose proof (skip_ws_le r1) as Hw1.
    cbn [bind] in H. cbv zeta in H.
    pose proof (skip_ws_le r2) as Hw2.
    destruct (json.skip_ws r2) as [|c2 r3]; [discriminate|].
    cbn [String.length] in Hw2.
    destruct (Ascii.eqb c2 "}"); [injection H as _ <-; lia|].
    destruct (Ascii.eqb c2 ","); [|discriminate].
    pose proof (skip_ws_le r3) as Hw3.
    destruct (json.skip_ws r3) as [|c4 r4]; [discriminate|].
    cbn [String.length] in Hw3.
    destruct (Ascii.eqb c4 "034"); [|discriminate].
    apply IHo in H. lia.
Qed.

(** One more round changes nothing once the fuel exceeds twice the length
    of the text: a value inside a bracket starts at least one character
    further, and each item takes one round for itself and one for the
    rest of the items. *)
Lemma scan_fuel fuel :
  (forall room s, (2 * L s < fuel)%nat ->
     json.scan_once (S fuel) room s = json.scan_once fuel room s)
  /\ (forall room s acc, (2 * L s + 1 < fuel)%nat ->
        json.array_items (S fuel) room s acc
        = json.array_items fuel room s acc)
  /\ (forall room s acc, (2 * L s + 1 < fuel)%nat ->
        json.object_items (S fuel) room s acc
        = json.object_items fuel room s acc).
Proof.
  induction fuel as [|fuel (IHs & IHa & IHo)].
  { repeat split; intros; lia. }
  destruct (scan_le fuel) as (Ls & La & Lo).
  split; [|split].
  - intros room s Hs.
    rewrite (scan_once_S (S fuel)), (scan_once_S fuel).
    destruct s as [|c rest]; [reflexivity|]. cbn [String.length] in Hs.
    destruct (Ascii.eqb c "034"); [reflexivity|].
    destruct (Ascii.eqb c "{").
    { destruct room as [|room]; [reflexivity|].
      pose proof (skip_ws_le rest) as Hw.
      destruct (json.skip_ws rest) as [|c' r0]; [reflexivity|].
      cbn [String.length] in Hw.
      destruct (Ascii.eqb c' "}"); [reflexivity|].
      destruct (Ascii.eqb c' "034"); [|reflexivity].
      apply IHo. lia. }
    destruct (Ascii.eqb c "["); [|reflexivity].
    destruct room as [|room]; [reflexivity|].
    pose proof (skip_ws_le rest) as Hw.
    destruct (json.skip_ws rest) as [|c' r0]; [reflexivity|].
    destruct (Ascii.eqb c' "]"); [reflexivity|].
    apply IHa. cbn [String.length] in *. lia.
  - intros room s acc Hs.
    rewrite (array_items_S (S fuel)), (array_items_S fuel).
    rewrite IHs by lia.
    destruct (json.scan_once fuel room s) as [[w r0]|] eqn:E; [|reflexivity].
    apply Ls in E. cbn [bind].
    pose proof (skip_ws_le r0) as Hw.
    destruct (json.skip_ws r0) as [|c r']; [reflexivity|].
    cbn [String.length] in Hw.
    destruct (Ascii.eqb c "]"); [reflexivity|].
    destruct (Ascii.eqb c ","); [|reflexivity].
    apply IHa. pose proof (skip_ws_le r'). lia.
  - intros room s acc Hs.
    rewrite (object_items_S (S fuel)), (object_items_S fuel).
    destruct (json.string_literal s) as [[key r0]|] eqn:E; [|reflexivity].
    apply string_literal_lt in E.
    pose proof (skip_ws_le r0) as Hw.
    destruct (json.skip_ws r0) as [|c r1]; [reflexivity|].
    cbn [String.length] in Hw.
    destruct (Ascii.eqb c ":"); [|reflexivity].
    pose proof (skip_ws_le r1) as Hw1.
    rewrite IHs by lia.
    destruct (json.scan_once fuel room (json.skip_ws r1)) as [[w r2]|] eqn:E2;
      [|reflexivity].
    apply Ls in E2. cbn [bind]. cbv zeta.
    pose proof (skip_ws_le r2) as Hw2.
    destruct (json.skip_ws r2) as [|c2 r3]; [reflexivity|].
    cbn [String.length] in Hw2.
    destruct (Ascii.eqb c2 "}"); [reflexivity|].
    destruct (Ascii.eqb c2 ","); [|reflexivity].
    pose proof (skip_ws_le r3) as Hw3.
    destruct (json.skip_ws r3) as [|c4 r4]; [reflexivity|].
    cbn [String.length] in Hw3.
    destruct (Ascii.eqb c4 "034"); [|reflexivity].
    apply IHo. lia.
Qed.

Lemma scan_once_more k : forall fuel room s,
  (2 * L s < fuel)%nat ->
  json.scan_once (k + fuel) room s = json.scan_once fuel room s.
Proof.
  induction k as [|k IH]; intros fuel room s Hs; [reflexivity|].
  cbn [Nat.add]. destruct (scan_fuel (k + fuel)) as [H _].
  rewrite H by lia. apply IH. exact Hs.
Qed.

(** The scanner never runs out of rounds: with any larger fuel
    [json.loads] gives the same result. *)
Lemma loads_fuel_enough (room : positive) (text : string) (fuel : nat) :
  (2 * L text < fuel)%nat ->
  json.loads_fuel fuel (Pos.to_nat room) text = json.loads room text.
Proof.
  intros Hf. unfold json.loads, json.loads_fuel.
  destruct (drop_prefix _ text); [reflexivity|].
  pose proof (skip_ws_le text) as Hw.
  replace fuel with ((fuel - S (2 * L text)) + S (2 * L text))%nat by lia.
  rewrite scan_once_more by lia. reflexivity.
Qed.

End JsonFuel.

(* ------------------------------------------------------------------ *)
(** ** [str.strip] removes all the surrounding whitespace *)

Section Strip.

Lemma drop_prefix_length p : forall s r,
  drop_prefix p s = Some r
  -> String.length s = (String.length p + String.length r)%nat.
Proof.
  induction p as [|a p IH]; intros s r H.
  - cbn [drop_prefix] in H. injection H as <-. reflexivity.
  - cbn [drop_prefix] in H. destruct s as [|b s]; [discriminate|].
    destruct (Ascii.eqb a b); [|discriminate].
    apply IH in H. cbn [String.length]. lia.
Qed.

Lemma drop_one_of_lt ws s r :
  forallb nonempty ws = true -> drop_one_of ws s = Some r ->
  (String.length r < String.length s)%nat.
Proof.
  induction ws as [|p ws IH]; intros Hne H; [discriminate|].
  cbn [forallb] in Hne. apply andb_true_iff in Hne. destruct Hne as [Hp Hws].
  cbn [drop_one_of fold_right] in H.
  destruct (drop_prefix p s) as [r0|] eqn:E.
  - apply drop_prefix_length in E. injection H as <-.
    destruct p; [discriminate|]. cbn [String.length] in E. lia.
  - apply IH; assumption.
Qed.

Lemma lstrip_fuel_S fuel ws s :
  lstrip_fuel (S fuel) ws s
  = match drop_one_of ws s with
    | Some r => lstrip_fuel fuel ws r
    | None => s
    end.
Proof. reflexivity. Qed.

(** With a round per character nothing of [ws] is left in front. *)
Lemma lstrip_fuel_done ws :
  forallb nonempty ws = true ->
  forall fuel s, (String.length s <= fuel)%nat ->
  drop_one_of ws (lstrip_fuel fuel ws s) = None.
Proof.
  intros Hne. induction fuel as [|fuel IH]; intros s Hs.
  - destruct s; [|cbn [String.length] in Hs; lia].
    cbn [lstrip_fuel]. destruct (drop_one_of ws EmptyString) eqn:E;
      [|reflexivity].
    apply drop_one_of_lt in E; [|exact Hne]. cbn [String.length] in E. lia.
  - cbn [lstrip_fuel]. destruct (drop_one_of ws s) as [r|] eqn:E.
    + apply IH. apply drop_one_of_lt in E; [|exact Hne]. lia.
    + exact E.
Qed.

(** Further rounds change nothing. *)
Lemma lstrip_fuel_enough ws :
  forallb nonempty ws = true ->
  forall fuel s, (String.length s <= fuel)%nat ->
  lstrip_fuel (S fuel) ws s = lstrip_fuel fuel ws s.
Proof.
  intros Hne. induction fuel as [|fuel IH]; intros s Hs.
  - destruct s; [|cbn [String.length] in Hs; lia].
    cbn [lstrip_fuel]. destruct (drop_one_of ws EmptyString) eqn:E;
      [|reflexivity].
    apply drop_one_of_lt in E; [|exact Hne]. cbn [String.length] in E. lia.
  - rewrite (lstrip_fuel_S (S fuel)), (lstrip_fuel_S fuel).
    destruct (drop_one_of ws s) as [r|] eqn:E; [|reflexivity].
    apply drop_one_of_lt in E; [|exact Hne]. apply IH. lia.
Qed.

Lemma whitespace_nonempty :
  forallb nonempty whitespace = true
  /\ forallb nonempty (map string_rev whitespace) = true.
Proof. split; vm_compute; reflexivity. Qed.

End Strip.

(* ------------------------------------------------------------------ *)
(** ** Resampling inside the recognition adapter *)

Section Resampling.








End Resampling.

(* ------------------------------------------------------------------ *)
(** ** The HTTP endpoint *)

Section Http.

Variable get_whisper : result WhisperModel.

Lemma assign_speakers_labelled stt spk :
  Forall labelled (map segment_to_py (assign_speakers stt spk)).
Proof.
  apply Forall_map.
  assert (H : Forall2 (fun s s' => exists name, s' = set_speaker s name)
                      stt (assign_speakers stt spk)).
  { destruct spk as [|d0 spk']; unfold assign_speakers;
      induction stt as [|s stt IH]; simpl; constructor; auto.
    - eexists; reflexivity.
    - destruct (fst (best_overlap s (d0 :: spk'))); eexists; reflexivity. }
  induction H as [|s s' l l' [name ->] _ IH]; constructor; auto.
  unfold labelled, segment_to_py. simpl. repeat eexists.
Qed.

Lemma pipeline_labelled content final :
  snd (pipeline get_whisper content) = Ok final ->
  Forall labelled (map segment_to_py final).
Proof.
  unfold pipeline. destruct (run_whisper get_whisper content) as [stt|];
    cbn [snd]; intros H; [|discriminate].
  assert (E : final = assign_speakers stt (run_diarization content))
    by congruence.
  rewrite E. apply assign_speakers_labelled.
Qed.

End Http.

(* ------------------------------------------------------------------ *)
(** ** The WebSocket session *)

Section WebSocket.

Variable get_whisper : result WhisperModel.
Variable send_text : pyval -> result unit.
Variable room : positive.

Lemma contains_nonempty needle text :
  needle <> EmptyString -> contains needle text = true ->
  text <> EmptyString.
Proof.
  intros Hn H ->. destruct needle; [congruence|]. discriminate.
Qed.

Lemma ws_loop_text text rest buffer sr :
  text <> EmptyString ->
  ws_loop get_whisper send_text room (text_frame text :: rest) buffer sr
  = if contains "sampleRate" text
    then ws_loop get_whisper send_text room rest buffer (configure room text sr)
    else if is_end text then finalize get_whisper send_text buffer sr
    else ws_loop get_whisper send_text room rest buffer sr.
Proof.
  intros H. destruct text as [|c t]; [congruence|]. reflexivity.
Qed.

(** C4 (as amended).  In the streaming state a text frame without the
    word sampleRate that is the token end, or holds the exact
    characters "type":"end", starts the final processing: the buffer is
    wrapped as WAV at the declared rate, recognition, diarization and
    assignment run in that order, and when none of them nor the send
    fails exactly the final message with the assigned segments is
    sent and the loop is left. *)
Theorem ws_end_of_stream (text : string) (rest : list Event)
    (buffer : bytes) (sr : Z) :
  contains "sampleRate" text = false ->
  text = "end"%string \/ contains END_FIELD text = true ->
  let o := ws_loop get_whisper send_text room (text_frame text :: rest)
                   buffer sr in
  o = finalize get_whisper send_text buffer sr
  /\ forall wav stt,
       pcm16_to_wav_bytes buffer sr = Ok wav ->
       run_whisper get_whisper wav = Ok stt ->
       send_text (final_message
                    (assign_speakers stt (run_diarization wav))) = Ok tt ->
       sent o = [final_message (assign_speakers stt (run_diarization wav))]
       /\ calls o = [Recognition; Diarization; Assignment]
       /\ exit o = Break
       /\ message_type (final_message
                          (assign_speakers stt (run_diarization wav)))
          = Some (PStr "final").
Proof.
  intros Hcfg Hend o.
  assert (Hne : text <> EmptyString).
  { destruct Hend as [-> | H]; [discriminate|].
    eapply contains_nonempty; [|exact H]. discriminate. }
  assert (Ho : o = finalize get_whisper send_text buffer sr).
  { unfold o. rewrite ws_loop_text by exact Hne. rewrite Hcfg.
    replace (is_end text) with true; [reflexivity|].
    symmetry. unfold is_end. destruct Hend as [-> | H].
    - reflexivity.
    - rewrite H. apply orb_true_r. }
  split; [exact Ho|].
  intros wav stt Hwav Hstt Hsend. rewrite Ho. unfold finalize, pipeline.
  rewrite Hwav, Hstt, Hsend. repeat split.
Qed.

Lemma configure_cases text sr :
  configure room text sr = sr
  \/ exists items v,
       json.loads room text = Ok (PDict items)
       /\ dict_get items "type" = Some (PStr "config")
       /\ dict_get items "sampleRate" = Some v
       /\ py_int v = Ok (configure room text sr)
       /\ 0 < configure room text sr.
Proof.
  unfold configure.
  destruct (json.loads room text) as [[| | | | | |items]|]; cbn [bind]; auto.
  destruct (dict_get items "type") as [[| | | |t| |]|] eqn:Et; auto.
  destruct (String.eqb t "config") eqn:Ec; auto.
  apply String.eqb_eq in Ec. subst t.
  destruct (dict_get items "sampleRate") as [v|] eqn:Es.
  - destruct (py_int v) as [n|] eqn:En; cbn [bind]; auto.
    destruct (0 <? n) eqn:Ep; auto.
    right. exists items, v. apply Z.ltb_lt in Ep. auto.
  - cbn [py_int bind]. destruct (0 <? sr); auto.
Qed.

(** C6 (as amended).  A text frame holding the word sampleRate never
    ends the loop or sends anything; it leaves the declared rate as it
    was when [json.loads] raises on it (it is not parseable as JSON, or
    nests deeper than the recursion limit allows), and changes it only
    when it parses to an object of type config whose sampleRate is turned
    by [int()] into a positive integer, which becomes the new rate. *)
Theorem ws_config_frame (text : string) (rest : list Event)
    (buffer : bytes) (sr : Z) :
  contains "sampleRate" text = true ->
  ws_loop get_whisper send_text room (text_frame text :: rest) buffer sr
  = ws_loop get_whisper send_text room rest buffer (configure room text sr)
  /\ (forall e, json.loads room text = Raise e -> configure room text sr = sr)
  /\ (forall items v n,
        json.loads room text = Ok (PDict items) ->
        dict_get items "type" = Some (PStr "config") ->
        dict_get items "sampleRate" = Some v ->
        py_int v = Ok n -> 0 < n ->
        configure room text sr = n)
  /\ (configure room text sr <> sr ->
      exists items v,
        json.loads room text = Ok (PDict items)
        /\ dict_get items "type" = Some (PStr "config")
        /\ dict_get items "sampleRate" = Some v
        /\ py_int v = Ok (configure room text sr)
        /\ 0 < configure room text sr).
Proof.
  intros Hc.
  assert (Hne : text <> EmptyString).
  { eapply contains_nonempty; [|exact Hc]. discriminate. }
  split; [|split; [|split]].
  - rewrite ws_loop_text by exact Hne. rewrite Hc. reflexivity.
  - intros e He. unfold configure. rewrite He. reflexivity.
  - intros items v n Hl Ht Hs Hv Hn. unfold configure.
    rewrite Hl. cbn [bind]. rewrite Ht, Hs.
    cbn [String.eqb Ascii.eqb Bool.eqb]. rewrite Hv. cbn [bind].
    replace (0 <? n) with true by (symmetry; apply Z.ltb_lt; lia).
    reflexivity.
  - intros Hd. destruct (configure_cases text sr) as [H|H];
      [congruence | exact H].
Qed.









End WebSocket.

(** *** Concrete sessions *)

Lemma ws_end_of_stream_witness :
  sent (ws_loop one_word_engine open_transport default_room [text_frame "end"]
                [Byte.x00; Byte.x00] 16000)
  = [final_message [mkSegment (F64.of_Z 0) (F64.of_Z 1) "hi"
                              (Some "SPEAKER_00"%string)]].
Proof.
  refine (proj1 (proj2 (ws_end_of_stream one_word_engine open_transport default_room
                          "end" [] [Byte.x00; Byte.x00] 16000 _ _)
                   (wav_header 16000 2 ++ [Byte.x00; Byte.x00])
                   [mkSegment (F64.of_Z 0) (F64.of_Z 1) "hi" None]
                   _ _ _)).
  - reflexivity.
  - left. reflexivity.
  - vm_compute. reflexivity.
  - vm_compute. reflexivity.
  - reflexivity.
Defined.

(** C4 as stated fails: the first frame is a JSON payload whose type
    field is end, and the session goes on waiting without any final
    processing; so it does on a payload of type end that also holds the
    word sampleRate; and at a declared rate of 2^32 the token end starts
    the final processing but no final message is sent. *)
Lemma ws_end_of_stream_counterexample :
  json.loads default_room spaced_end = Ok (PDict [("type"%string, PStr "end")])
  /\ ws_loop deaf_engine open_transport default_room [text_frame spaced_end] [] 16000
     = mkOutcome [] 16000 [] [] Awaiting
  /\ fst (ws deaf_engine open_transport default_room [text_frame spaced_end])
     = mkOutcome [] 16000 [] [] Awaiting
  /\ json.loads default_room end_with_rate
     = Ok (PDict [("type"%string, PStr "end");
                  ("sampleRate"%string, PInt 1)])
  /\ ws_loop deaf_engine open_transport default_room [text_frame end_with_rate] [] 16000
     = mkOutcome [] 16000 [] [] Awaiting
  /\ sent (ws_loop deaf_engine open_transport default_room [text_frame "end"] []
                   4294967296) = [].
Proof.
  repeat split; vm_compute; reflexivity.
Qed.



Lemma ws_config_frame_witness :
  current_sr (ws_loop deaf_engine open_transport default_room
                      [text_frame config_48000] [] 16000) = 48000
  /\ current_sr (ws_loop deaf_engine open_transport default_room
                         [text_frame config_fullwidth] [] 16000) = 8000.
Proof.
  split.
  - destruct (ws_config_frame deaf_engine open_transport default_room
                config_48000 [] [] 16000 eq_refl) as (H1 & _ & H3 & _).
    rewrite H1.
    rewrite (H3 [("type"%string, PStr "config");
                 ("sampleRate"%string, PInt 48000)] (PInt 48000) 48000
                eq_refl eq_refl eq_refl eq_refl eq_refl).
    reflexivity.
  - destruct (ws_config_frame deaf_engine open_transport default_room
                config_fullwidth [] [] 16000 eq_refl) as (H1 & _ & H3 & _).
    rewrite H1.
    erewrite (H3 _ _ 8000);
      [reflexivity | vm_compute; reflexivity | reflexivity | reflexivity
       | vm_compute; reflexivity | reflexivity].
Defined.

(** C6 as stated fails: 44100.5 is not an integer, so the frame holds no
    positive integer sampleRate, yet it is not ignored: the declared rate
    becomes 44100; a string of digits, of any script, sets the rate as
    well, where a string that [int()] refuses leaves it.  And a
    well-formed config message with a positive integer sampleRate is
    ignored when its key is written with an escape, so that the text does
    not hold the word sampleRate, and when it nests arrays deeper than
    the recursion limit allows: one level more of room, and it sets the
    rate. *)
Lemma ws_config_frame_counterexample :
  json.loads default_room config_float
  = Ok (PDict [("type"%string, PStr "config");
               ("sampleRate"%string,
                PFloat (F64.div (F64.of_int 88201) (F64.of_int 2)))])
  /\ F64.eqb (F64.div (F64.of_int 88201) (F64.of_int 2)) (F64.of_Z 44100)
     = false
  /\ configure default_room config_float 16000 = 44100
  /\ current_sr (ws_loop deaf_engine open_transport default_room
                         [text_frame config_float] [] 16000) = 44100
  /\ json.loads default_room config_escaped
     = Ok (PDict [("type"%string, PStr "config");
                  ("sampleRate"%string, PInt 48000)])
  /\ current_sr (ws_loop deaf_engine open_transport default_room
                         [text_frame config_escaped] [] 16000) = 16000
  /\ configure default_room config_fullwidth 16000 = 8000
  /\ configure default_room config_separator 16000 = 16000
  /\ json.loads default_room (config_nested 1000)
     = Raise (json.recursion_error "array")
  /\ configure default_room (config_nested 1000) 16000 = 16000
  /\ configure (Pos.succ default_room) (config_nested 1000) 16000 = 5.
Proof.
  repeat split; vm_compute; reflexivity.
Qed.

(* ================================================================== *)
(** * Further properties of [main.py]

    What the code shows beyond its specification: which uploads the
    encoder and the decoder accept, what reaches the engine, which
    labels the assignment gives, and what a session keeps. *)

(* ------------------------------------------------------------------ *)
(** ** What the encoder accepts and the decoder reads *)

Section Uploads.

Local Arguments byte_of_Z : simpl never.
Local Arguments Z.mul : simpl never.
Local Arguments Z.add : simpl never.
Local Arguments Z.div : simpl never.

Lemma pcm16_to_wav_bytes_inv pcm sr wav :
  pcm16_to_wav_bytes pcm sr = Ok wav ->
  0 < sr < 2147483648 /\ len pcm + 36 < 4294967296.
Proof.
  intros H.
  destruct (Z_lt_le_dec 0 sr) as [H1|H1].
  2:{ destruct (pcm16_to_wav_bytes_raises pcm sr (or_introl H1)) as [e He].
      congruence. }
  destruct (Z_lt_le_dec sr 2147483648) as [H2|H2].
  2:{ destruct (pcm16_to_wav_bytes_raises pcm sr (or_intror (or_introl H2)))
        as [e He].
      congruence. }
  destruct (Z_lt_le_dec (len pcm + 36) 4294967296) as [H3|H3].
  2:{ destruct (pcm16_to_wav_bytes_raises pcm sr (or_intror (or_intror H3)))
        as [e He].
      congruence. }
  lia.
Qed.

Lemma len_wav_header sr n body :
  len (wav_header sr n ++ body) = 44 + len body.
Proof.
  unfold len. rewrite length_app. simpl List.length. lia.
Qed.

(** X1. [pcm16_to_wav_bytes] returns exactly for a rate in 1 .. 2^31-1
    and a buffer under 2^32-36 bytes, and then the file is the 44-byte
    header followed by the buffer as it is. *)
Theorem pcm16_to_wav_bytes_layout (pcm : bytes) (sr : Z) :
  ((exists wav, pcm16_to_wav_bytes pcm sr = Ok wav)
   <-> 0 < sr < 2147483648 /\ len pcm + 36 < 4294967296)
  /\ (forall wav, pcm16_to_wav_bytes pcm sr = Ok wav ->
        wav = wav_header sr (len pcm) ++ pcm
        /\ len wav = 44 + len pcm
        /\ drop 44 wav = pcm).
Proof.
  split.
  - split.
    + intros [wav H]. eapply pcm16_to_wav_bytes_inv; exact H.
    + intros [H1 H2]. eexists. apply pcm16_to_wav_bytes_ok; assumption.
  - intros wav H.
    destruct (pcm16_to_wav_bytes_inv _ _ _ H) as [H1 H2].
    rewrite pcm16_to_wav_bytes_ok in H by assumption.
    assert (E : wav = wav_header sr (len pcm) ++ pcm) by congruence.
    subst wav. split; [reflexivity|]. split.
    + apply len_wav_header.
    + reflexivity.
Qed.

(** The reader on a canonical header announcing [n] data bytes, followed
    by at least that many bytes. *)
Lemma open_rb_announced sr n body :
  0 <= sr < 4294967296 -> 0 <= n <= len body -> n + 36 < 4294967296 ->
  wave.open_rb (wav_header sr n ++ body)
  = Ok (wave.mkRead 1 2 sr 2 (n / 2)
          (chunk.mkChunk (bytes_of_string "data") n 0)
          (chunk.mkRiff (wav_header sr n ++ body)
                        (bytes_of_string "RIFF") (36 + n) 36)).
Proof.
  intros Hsr Hn Hlen.
  set (content := wav_header sr n ++ body).
  assert (Hc : len content = 44 + len body) by apply len_wav_header.
  unfold wave.open_rb, wave.open_rb_fuel, chunk.open_riff.
  replace (chunk.file_read content 0 4) with (bytes_of_string "RIFF")
    by reflexivity.
  replace (chunk.file_read content 4 4) with (le32 (36 + n) ++ [])
    by reflexivity.
  rewrite unpack_le32 by lia.
  replace (len (bytes_of_string "RIFF") <? 4) with false by reflexivity.
  cbn [bind chunk.chunkname].
  destruct (list_eq_dec Byte.byte_eq_dec (bytes_of_string "RIFF")
              (bytes_of_string "RIFF")) as [_|]; [|congruence].
  cbn [negb].
  rewrite riff_read_inside by lia.
  replace (take 4 (drop (8 + 0) content)) with (bytes_of_string "WAVE")
    by reflexivity.
  destruct (list_eq_dec Byte.byte_eq_dec (bytes_of_string "WAVE")
              (bytes_of_string "WAVE")) as [_|]; [|congruence].
  cbn [negb].
  rewrite read_chunks_S. unfold chunk.open_chunk.
  rewrite riff_read_inside by lia.
  replace (take 4 (drop (8 + (0 + 4)) content))
    with (bytes_of_string "fmt ") by reflexivity.
  replace (len (bytes_of_string "fmt ") <? 4) with false by reflexivity.
  cbv iota.
  rewrite riff_read_inside by lia.
  replace (take 4 (drop (8 + (0 + 4 + 4)) content)) with (le32 16 ++ [])
    by reflexivity.
  rewrite unpack_le32 by lia.
  cbn [chunk.c_name].
  destruct (list_eq_dec Byte.byte_eq_dec (bytes_of_string "fmt ")
              (bytes_of_string "fmt ")) as [_|]; [|congruence].
  unfold wave._read_fmt_chunk.
  rewrite chunk_read_inside by (try lia; left; lia).
  replace (take 14 (drop (8 + (0 + 4 + 4 + 4)) content))
    with (le16 1 ++ le16 1 ++ le32 sr ++ le32 (1 * sr * 2) ++ le16 (1 * 2))
    by reflexivity.
  rewrite unpack_fmt_ok by (try lia; unfold len; simpl; lia).
  replace (1 =? wave.WAVE_FORMAT_PCM) with true by reflexivity. cbv iota.
  rewrite chunk_read_inside
    by first [lia | right; reflexivity | left; lia].
  replace (take 2 (drop (8 + (0 + 4 + 4 + 4 + 14)) content))
    with (le16 (2 * 8) ++ []) by reflexivity.
  rewrite unpack_le16 by lia.
  replace ((2 * 8 + 7) / 8 =? 0) with false by reflexivity.
  replace (1 =? 0) with false by reflexivity. cbv iota. cbn [bind].
  unfold chunk.chunk_skip, chunk.riff_seek_rel.
  cbn [chunk.c_size chunk.c_read chunk.size_read chunk.chunksize
       chunk.content chunk.chunkname].
  replace (Z.odd 16) with false by reflexivity. cbv iota.
  replace ((16 - (0 + 14 + 2) + (0 + 4 + 4 + 4 + 14 + 2) <? 0)
           || (36 + n <? 16 - (0 + 14 + 2) + (0 + 4 + 4 + 4 + 14 + 2)))
    with false.
  2:{ symmetry. apply orb_false_iff. split;
        [apply Z.ltb_ge | apply Z.ltb_ge]; lia. }
  cbn [bind].
  replace (Datatypes.length content)
    with (S (43 + Datatypes.length body))%nat by reflexivity.
  rewrite read_chunks_S. unfold chunk.open_chunk.
  rewrite riff_read_inside by lia.
  replace (take 4 (drop (8 + (16 - (0 + 14 + 2) + (0 + 4 + 4 + 4 + 14 + 2)))
                    content)) with (bytes_of_string "data") by reflexivity.
  replace (len (bytes_of_string "data") <? 4) with false by reflexivity.
  cbv iota.
  assert (Hpar : 36 < 36 + n \/ Z.odd (36 + n) = false).
  { destruct (Z.eq_dec n 0) as [E|E]; [right; rewrite E | left; lia].
    reflexivity. }
  rewrite riff_read_inside
    by first [lia | destruct Hpar; [left; lia | right; assumption]].
  replace (take 4
            (drop (8 + (16 - (0 + 14 + 2) + (0 + 4 + 4 + 4 + 14 + 2) + 4))
               content)) with (le32 n ++ []) by reflexivity.
  rewrite unpack_le32 by lia.
  cbn [chunk.c_name].
  destruct (list_eq_dec Byte.byte_eq_dec (bytes_of_string "data")
              (bytes_of_string "fmt ")) as [E|_]; [discriminate E|].
  destruct (list_eq_dec Byte.byte_eq_dec (bytes_of_string "data")
              (bytes_of_string "data")) as [_|]; [|congruence].
  cbn [bind wave.f_nchannels wave.f_sampwidth wave.f_framerate
       wave.f_framesize chunk.c_size].
  reflexivity.
Qed.

Lemma readframes_announced sr n body :
  0 <= n <= len body -> n + 36 < 4294967296 ->
  wave.readframes
    (wave.mkRead 1 2 sr 2 (n / 2)
       (chunk.mkChunk (bytes_of_string "data") n 0)
       (chunk.mkRiff (wav_header sr n ++ body)
                     (bytes_of_string "RIFF") (36 + n) 36))
    (n / 2)
  = take (2 * (n / 2)) body.
Proof.
  intros Hn Hlen.
  pose proof (Z.div_mod n 2 ltac:(lia)) as Hdm.
  pose proof (Z.mod_pos_bound n 2 ltac:(lia)) as Hmb.
  pose proof (Z.div_pos n 2 ltac:(lia) ltac:(lia)) as Hdp.
  unfold wave.readframes. cbn [wave.data_chunk wave.riff wave.framesize].
  destruct (n / 2 =? 0) eqn:E0.
  - apply Z.eqb_eq in E0. rewrite E0. reflexivity.
  - apply Z.eqb_neq in E0.
    set (content := wav_header sr n ++ body).
    assert (Hc : len content = 44 + len body) by apply len_wav_header.
    assert (Hpar : n / 2 * 2 < n \/ Z.odd n = false).
    { destruct (Z.eq_dec (n mod 2) 0) as [E|E]; [right | left; lia].
      rewrite <- Z.negb_even. replace (Z.even n) with true; auto.
      symmetry. rewrite Zeven_mod. apply Z.eqb_eq. exact E. }
    rewrite chunk_read_inside.
    + replace (drop (8 + 36) content) with body by reflexivity.
      f_equal. lia.
    + lia.
    + lia.
    + lia.
    + destruct Hpar; [left; lia | right; assumption].
    + lia.
    + lia.
    + destruct Hpar as [Hp|Hp]; [left; lia | right].
      replace (36 + n) with (n + 2 * 18) by lia.
      rewrite Z.odd_add_mul_2. exact Hp.
    + lia.
Qed.

Lemma wav_decode_announced sr n body :
  0 <= sr < 4294967296 -> 0 <= n <= len body -> n + 36 < 4294967296 ->
  wav_bytes_to_float_np (wav_header sr n ++ body)
  = Ok (map normalize (samples_of (take n body)), sr).
Proof.
  intros Hsr Hn Hlen. unfold wav_bytes_to_float_np.
  rewrite open_rb_announced by assumption.
  cbn [bind wave.nchannels wave.sampwidth wave.framerate wave.nframes].
  replace (negb (1 =? 1) || negb (2 =? 2)) with false by reflexivity.
  cbv iota.
  rewrite readframes_announced by assumption.
  assert (Hl : len (take n body) = n).
  { unfold len, take in *. rewrite length_firstn. lia. }
  pose proof (Z.div_mod n 2 ltac:(lia)) as Hdm.
  pose proof (Z.mod_pos_bound n 2 ltac:(lia)) as Hmb.
  replace (take (2 * (n / 2)) body)
    with (take (2 * (len (take n body) / 2)) (take n body)).
  2:{ rewrite Hl. unfold take. rewrite firstn_firstn. f_equal. lia. }
  rewrite frombuffer_samples. cbn [bind].
  destruct (len (samples_of (take n body)) =? 0) eqn:E; [|reflexivity].
  apply Z.eqb_eq in E. destruct (samples_of (take n body)); [reflexivity|].
  unfold len in E. simpl in E. lia.
Qed.

(** X2. Bytes that follow an encoded file are not read: the decoder
    returns the samples and the rate of the file itself. *)
Theorem wav_decode_ignores_trailing (pcm extra wav : bytes) (sr : Z) :
  pcm16_to_wav_bytes pcm sr = Ok wav ->
  wav_bytes_to_float_np (wav ++ extra)
  = Ok (map normalize (samples_of pcm), sr)
  /\ wav_bytes_to_float_np (wav ++ extra) = wav_bytes_to_float_np wav.
Proof.
  intros H.
  destruct (pcm16_to_wav_bytes_inv _ _ _ H) as [H1 H2].
  rewrite pcm16_to_wav_bytes_ok in H by assumption.
  assert (E : wav = wav_header sr (len pcm) ++ pcm) by congruence.
  subst wav.
  assert (Hn : 0 <= len pcm) by (unfold len; lia).
  assert (Ht : take (len pcm) (pcm ++ extra) = pcm).
  { unfold take, len. rewrite Nat2Z.id.
    rewrite firstn_app, Nat.sub_diag, firstn_all. simpl.
    apply app_nil_r. }
  assert (E1 : wav_bytes_to_float_np ((wav_header sr (len pcm) ++ pcm)
                                      ++ extra)
               = Ok (map normalize (samples_of pcm), sr)).
  { rewrite <- app_assoc. rewrite wav_decode_announced.
    - rewrite Ht. reflexivity.
    - lia.
    - unfold len in *. rewrite length_app. lia.
    - assumption. }
  split; [exact E1|].
  rewrite E1. symmetry. apply wav_decode_canonical; [lia | assumption].
Qed.

End Uploads.

Lemma wav_decode_ignores_trailing_witness :
  wav_bytes_to_float_np
    ((wav_header 8000 2 ++ [Byte.x00; Byte.x40]) ++ [Byte.xff; Byte.xff;
                                                      Byte.xff])
  = Ok (map normalize [16384], 8000).
Proof.
  refine (proj1 (wav_decode_ignores_trailing [Byte.x00; Byte.x40]
                   [Byte.xff; Byte.xff; Byte.xff]
                   (wav_header 8000 2 ++ [Byte.x00; Byte.x40]) 8000 _)).
  vm_compute. reflexivity.
Defined.

(* ------------------------------------------------------------------ *)
(** ** The exceptions of the decoder and of the resampling *)

Section Exceptions.

Lemma open_riff_raises wav e : chunk.open_riff wav = Raise e -> e = EOFError.
Proof.
  unfold chunk.open_riff. destruct (_ <? 4); [congruence|].
  destruct (struct.unpack_L _); congruence.
Qed.

Lemma read_fmt_chunk_raises c r e :
  wave._read_fmt_chunk c r = Raise e -> is_HTTPException e = false.
Proof.
  unfold wave._read_fmt_chunk.
  destruct (chunk.chunk_read c r 14) as [[b c1] r1].
  destruct (wave.unpack_fmt b) as [[[tag nch] rate]|];
    [|intros H; inversion H; reflexivity].
  destruct (tag =? wave.WAVE_FORMAT_PCM);
    [|intros H; inversion H; reflexivity].
  destruct (chunk.chunk_read c1 r1 2) as [[b2 c2] r2].
  destruct (struct.unpack_H b2) as [bits|];
    [|intros H; inversion H; reflexivity].
  destruct (_ =? 0); [intros H; inversion H; reflexivity|].
  destruct (nch =? 0); [intros H; inversion H; reflexivity|].
  discriminate.
Qed.

Lemma chunk_skip_raises c r e :
  chunk.chunk_skip c r = Raise e -> e = RuntimeError EmptyString.
Proof.
  unfold chunk.chunk_skip, chunk.riff_seek_rel.
  destruct (_ || _); congruence.
Qed.

Lemma read_chunks_raises fuel : forall r f e,
  wave.read_chunks fuel r f = Raise e -> is_HTTPException e = false.
Proof.
  induction fuel as [|fuel IH]; intros r f e H; [discriminate|].
  rewrite read_chunks_S in H.
  destruct (chunk.open_chunk r) as [[c r1]|]; [|discriminate].
  destruct (list_eq_dec _ _ _).
  - destruct (wave._read_fmt_chunk c r1) as [[[f' c'] r2]|e1] eqn:Ef.
    + cbn [bind] in H.
      destruct (chunk.chunk_skip c' r2) as [r3|e2] eqn:Ek.
      * cbn [bind] in H. eapply IH; exact H.
      * apply chunk_skip_raises in Ek. cbn [bind] in H.
        inversion H; subst. reflexivity.
    + cbn [bind] in H. inversion H; subst.
      eapply read_fmt_chunk_raises; exact Ef.
  - destruct (list_eq_dec _ _ _).
    + destruct f; [discriminate|]. inversion H; reflexivity.
    + destruct (chunk.chunk_skip c r1) as [r3|e2] eqn:Ek.
      * cbn [bind] in H. eapply IH; exact H.
      * apply chunk_skip_raises in Ek. cbn [bind] in H.
        inversion H; subst. reflexivity.
Qed.

(** [wave.open] raises [EOFError] or [wave.Error], never the format
    error of the decoder. *)
Lemma open_rb_raises wav e :
  wave.open_rb wav = Raise e -> is_HTTPException e = false.
Proof.
  unfold wave.open_rb, wave.open_rb_fuel.
  destruct (chunk.open_riff wav) as [r|e0] eqn:Er.
  - cbn [bind]. destruct (negb _); [intros H; inversion H; reflexivity|].
    destruct (chunk.riff_read r 4) as [form r0].
    destruct (negb _); [intros H; inversion H; reflexivity|].
    destruct (wave.read_chunks _ r0 None) as [[f d]|e1] eqn:Ec.
    + cbn [bind]. destruct f as [f|]; [destruct d as [[c r1]|]|];
        intros H; inversion H; reflexivity.
    + cbn [bind]. intros H. inversion H; subst.
      eapply read_chunks_raises; exact Ec.
  - apply open_riff_raises in Er. cbn [bind]. intros H.
    inversion H; subst. reflexivity.
Qed.

Lemma frombuffer_raises raw e :
  frombuffer_int16 raw = Raise e -> is_HTTPException e = false.
Proof.
  assert (H : forall n (l : bytes), (List.length l <= n)%nat ->
            frombuffer_int16 l = Raise e -> is_HTTPException e = false).
  { induction n as [|n IH]; intros l Hl.
    - destruct l; [discriminate | simpl in Hl; lia].
    - destruct l as [|lo [|hi rest]]; [discriminate| |].
      + intros E. inversion E; reflexivity.
      + cbn [frombuffer_int16].
        destruct (frombuffer_int16 rest) as [xs|e1] eqn:Er;
          cbn [bind]; [discriminate|].
        intros E. inversion E; subst.
        apply (IH rest); [simpl in Hl; lia | exact Er]. }
  apply (H (List.length raw)). lia.
Qed.

Lemma resample_raises audio sr e :
  resample audio sr = Raise e -> is_HTTPException e = false.
Proof.
  unfold resample, py_truediv.
  destruct (sr =? 0); [cbn [bind]; intros H; inversion H; reflexivity|].
  destruct (F64.div _ _) as [s| s | |s m x] eqn:Ed; cbn [bind];
    try (intros H; inversion H; reflexivity);
    (destruct (py_int_of_float _) as [k|e1] eqn:Ei; cbn [bind];
     [destruct (k <=? 0); discriminate|];
     intros H; inversion H; subst;
     unfold py_int_of_float in Ei;
     destruct (F64.mul _ _); inversion Ei; reflexivity).
Qed.

(** The decoder raises its format error exactly on a file [wave] opens
    that is not mono or not 2 bytes wide. *)
Lemma wav_decode_http wav c d :
  wav_bytes_to_float_np wav = Raise (HTTPException c d)
  <-> c = 400 /\ d = "Expect mono 16-bit WAV"%string
      /\ exists wf, wave.open_rb wav = Ok wf
                    /\ (wave.nchannels wf <> 1 \/ wave.sampwidth wf <> 2).
Proof.
  unfold wav_bytes_to_float_np.
  destruct (wave.open_rb wav) as [wf|e] eqn:Eo; cbn [bind].
  - destruct (negb (wave.nchannels wf =? 1) || negb (wave.sampwidth wf =? 2))
      eqn:Ef.
    + split.
      * intros H. inversion H; subst. split; [reflexivity|].
        split; [reflexivity|]. exists wf. split; [reflexivity|].
        apply orb_true_iff in Ef. destruct Ef as [Ef|Ef];
          apply negb_true_iff in Ef; apply Z.eqb_neq in Ef; auto.
      * intros (-> & -> & _). reflexivity.
    + apply orb_false_iff in Ef. destruct Ef as [E1 E2].
      apply negb_false_iff in E1, E2. apply Z.eqb_eq in E1, E2.
      split.
      * destruct (frombuffer_int16 _) as [xs|e] eqn:Eb; cbn [bind].
        -- destruct (_ =? 0); discriminate.
        -- intros H. inversion H; subst.
           apply frombuffer_raises in Eb. discriminate Eb.
      * intros (_ & _ & wf' & Hw & Hbad).
        assert (wf' = wf) by congruence. subst wf'.
        destruct Hbad; congruence.
  - split.
    + intros H. inversion H; subst.
      apply open_rb_raises in Eo. discriminate Eo.
    + intros (_ & _ & wf & Hw & _). discriminate Hw.
Qed.

End Exceptions.

(* ------------------------------------------------------------------ *)
(** ** The replies of [/transcribe] *)

Section Replies.

Variable get_whisper : result WhisperModel.

Lemma len_nonempty (content : bytes) :
  content <> [] -> (len content =? 0) = false.
Proof.
  intros H. apply Z.eqb_neq. destruct content; [congruence|].
  unfold len. simpl. lia.
Qed.

(** The reply by the outcome of the three calls. *)
Lemma reply_cases content :
  content <> [] ->
  match snd (pipeline get_whisper content) with
  | Ok final =>
      status_code (reply (transcribe get_whisper content)) = 200
      \/ status_code (reply (transcribe get_whisper content)) = 500
  | Raise (HTTPException c d) =>
      reply (transcribe get_whisper content)
      = mkResponse c (PDict [("detail"%string, PStr d)])
  | Raise e =>
      reply (transcribe get_whisper content)
      = mkResponse 500 (PDict [("detail"%string, PStr (str_exn e))])
  end.
Proof.
  intros Hne. unfold transcribe. rewrite (len_nonempty _ Hne).
  destruct (snd (pipeline get_whisper content)) as [final|e]; cbn [bind].
  - unfold JSONResponse. destruct (nan_free _); [left | right]; reflexivity.
  - destruct e; reflexivity.
Qed.

Lemma pipeline_raises content e :
  snd (pipeline get_whisper content) = Raise e ->
  run_whisper get_whisper content = Raise e.
Proof.
  unfold pipeline. destruct (run_whisper get_whisper content);
    cbn [snd]; congruence.
Qed.

(** An [HTTPException] out of [run_whisper] is the loader's, the
    engine's or the format error of the decoder. *)
Lemma run_whisper_http content c d :
  (forall e, get_whisper = Raise e -> is_HTTPException e = false) ->
  (forall model audio e, get_whisper = Ok model -> model audio = Raise e ->
                         is_HTTPException e = false) ->
  run_whisper get_whisper content = Raise (HTTPException c d) ->
  wav_bytes_to_float_np content = Raise (HTTPException c d)
  /\ exists model, get_whisper = Ok model.
Proof.
  intros H1 H2. unfold run_whisper.
  destruct get_whisper as [model|e0] eqn:Eg; cbn [bind].
  2:{ intros H. inversion H; subst. specialize (H1 _ eq_refl).
      discriminate H1. }
  destruct (wav_bytes_to_float_np content) as [[audio sr]|e1] eqn:Ew;
    cbn [bind].
  2:{ intros H. inversion H; subst. split; [reflexivity|].
      exists model. reflexivity. }
  destruct (len audio =? 0); [discriminate|].
  destruct (negb (sr =? TARGET_SAMPLE_RATE)).
  - destruct (resample audio sr) as [[out|]|e2] eqn:Er; cbn [bind].
    + destruct (model out) as [segs|e3] eqn:Em; cbn [bind]; [discriminate|].
      intros H. inversion H; subst.
      specialize (H2 _ _ _ eq_refl Em). discriminate H2.
    + discriminate.
    + intros H. inversion H; subst. apply resample_raises in Er.
      discriminate Er.
  - cbn [bind].
    destruct (model audio) as [segs|e3] eqn:Em; cbn [bind]; [discriminate|].
    intros H. inversion H; subst.
    specialize (H2 _ _ _ eq_refl Em). discriminate H2.
Qed.

Lemma run_whisper_format_error content model wf :
  get_whisper = Ok model -> wave.open_rb content = Ok wf ->
  wave.nchannels wf <> 1 \/ wave.sampwidth wf <> 2 ->
  run_whisper get_whisper content
  = Raise (HTTPException 400 "Expect mono 16-bit WAV").
Proof.
  intros Hm Hw Hbad. unfold run_whisper. rewrite Hm. cbn [bind].
  rewrite (proj2 (wav_decode_http content 400 "Expect mono 16-bit WAV")
             (conj eq_refl (conj eq_refl (ex_intro _ wf (conj Hw Hbad))))).
  reflexivity.
Qed.

(** C9 (as amended).  The reply is 400 for an empty upload and, once
    the model is loaded, for an upload that [wave] opens and that is not
    mono or not 2 bytes wide; an [HTTPException] raised inside passes
    through unchanged and any other exception gives 500 with [str(e)] as
    detail: so a failing loader, whatever the upload, and an upload
    [wave] cannot open; otherwise the reply is 200 with the segment list,
    every segment carrying start, end, text and speaker, unless a time of
    a segment is not finite, which gives 500. *)
Theorem transcribe_status (content : bytes) :
  (content = [] ->
     reply (transcribe get_whisper content)
     = mkResponse 400 (PDict [("detail"%string, PStr "Empty audio")]))
  /\ (content <> [] ->
      (forall model wf,
         get_whisper = Ok model -> wave.open_rb content = Ok wf ->
         wave.nchannels wf <> 1 \/ wave.sampwidth wf <> 2 ->
         reply (transcribe get_whisper content)
         = mkResponse 400
             (PDict [("detail"%string, PStr "Expect mono 16-bit WAV")]))
      /\ (forall e,
            snd (pipeline get_whisper content) = Raise e ->
            reply (transcribe get_whisper content)
            = match e with
              | HTTPException code detail =>
                  mkResponse code (PDict [("detail"%string, PStr detail)])
              | _ =>
                  mkResponse 500
                    (PDict [("detail"%string, PStr (str_exn e))])
              end)
      /\ (forall e,
            get_whisper = Raise e -> is_HTTPException e = false ->
            reply (transcribe get_whisper content)
            = mkResponse 500 (PDict [("detail"%string, PStr (str_exn e))]))
      /\ (forall model e,
            get_whisper = Ok model -> wave.open_rb content = Raise e ->
            reply (transcribe get_whisper content)
            = mkResponse 500 (PDict [("detail"%string, PStr (str_exn e))]))
      /\ (forall final,
            snd (pipeline get_whisper content) = Ok final ->
            (nan_free (segments_payload final) = false ->
               reply (transcribe get_whisper content)
               = mkResponse 500
                   (PDict [("detail"%string,
                            PStr "Out of range float values are not JSON compliant")]))
            /\ (nan_free (segments_payload final) = true ->
                  reply (transcribe get_whisper content)
                  = mkResponse 200
                      (PDict [("segments"%string,
                               PList (map segment_to_py final))])
                  /\ Forall labelled (map segment_to_py final)))).
Proof.
  split; [intros ->; reflexivity|].
  intros Hne.
  assert (Hraise : forall e,
            snd (pipeline get_whisper content) = Raise e ->
            reply (transcribe get_whisper content)
            = match e with
              | HTTPException code detail =>
                  mkResponse code (PDict [("detail"%string, PStr detail)])
              | _ =>
                  mkResponse 500
                    (PDict [("detail"%string, PStr (str_exn e))])
              end).
  { intros e He. pose proof (reply_cases content Hne) as Hr.
    rewrite He in Hr. destruct e; exact Hr. }
  split; [|split; [exact Hraise|split; [|split]]].
  - intros model wf Hm Hw Hbad.
    apply (Hraise (HTTPException 400 "Expect mono 16-bit WAV")).
    unfold pipeline.
    rewrite (run_whisper_format_error _ _ _ Hm Hw Hbad). reflexivity.
  - intros e Hg Hk.
    assert (Hp : snd (pipeline get_whisper content) = Raise e).
    { unfold pipeline, run_whisper. rewrite Hg. reflexivity. }
    rewrite (Hraise e Hp). destruct e; try reflexivity. discriminate Hk.
  - intros model e Hm Hw.
    assert (Hp : snd (pipeline get_whisper content) = Raise e).
    { unfold pipeline, run_whisper, wav_bytes_to_float_np.
      rewrite Hm. cbn [bind]. rewrite Hw. reflexivity. }
    rewrite (Hraise e Hp). pose proof (open_rb_raises _ _ Hw) as Hk.
    destruct e; try reflexivity. discriminate Hk.
  - intros final Hf. unfold transcribe. rewrite (len_nonempty _ Hne), Hf.
    cbn [bind]. unfold JSONResponse. cbn [nan_free forallb snd].
    rewrite andb_true_r. fold (segments_payload final).
    split; intros Hn; rewrite Hn.
    + reflexivity.
    + split; [reflexivity|]. eapply pipeline_labelled; eauto.
Qed.

(** X3. When neither the loader nor the engine raises an
    [HTTPException] of its own, the status of the reply is 200, 400 or
    500, and it is 400 exactly for an empty upload or, the model being
    loaded, for a file [wave] opens that is not mono 16-bit. *)
Theorem transcribe_status_400 (content : bytes) :
  (forall e, get_whisper = Raise e -> is_HTTPException e = false) ->
  (forall model audio e, get_whisper = Ok model -> model audio = Raise e ->
                         is_HTTPException e = false) ->
  let status := status_code (reply (transcribe get_whisper content)) in
  (status = 200 \/ status = 400 \/ status = 500)
  /\ (status = 400
      <-> content = []
          \/ (exists model, get_whisper = Ok model)
             /\ exists wf, wave.open_rb content = Ok wf
                  /\ (wave.nchannels wf <> 1 \/ wave.sampwidth wf <> 2)).
Proof.
  intros H1 H2 status.
  assert (Hc : content = [] \/ content <> [])
    by (destruct content; [left; reflexivity | right; discriminate]).
  destruct Hc as [Hc|Hne].
  { subst status. rewrite Hc. split; [right; left; reflexivity|].
    split; [intros _; left; reflexivity | reflexivity]. }
  pose proof (reply_cases content Hne) as Hr.
  destruct (snd (pipeline get_whisper content)) as [final|e] eqn:Ep.
  - assert (Hs : status = 200 \/ status = 500) by exact Hr.
    split; [destruct Hs; auto|].
    split.
    + intros E. destruct Hs; lia.
    + intros [E | [[model Hm] (wf & Hw & Hbad)]]; [congruence|].
      exfalso. unfold pipeline in Ep.
      rewrite (run_whisper_format_error _ _ _ Hm Hw Hbad) in Ep.
      discriminate Ep.
  - apply pipeline_raises in Ep.
    destruct (is_HTTPException e) eqn:Eh.
    + destruct e; try discriminate Eh.
      destruct (run_whisper_http _ _ _ H1 H2 Ep) as [Hw Hm].
      pose proof (proj1 (wav_decode_http _ _ _) Hw) as (-> & -> & Hwf).
      assert (Hs : status = 400) by (subst status; rewrite Hr; reflexivity).
      split; [auto|]. split; [|intros _; exact Hs].
      intros _. right. split; assumption.
    + assert (Hs : status = 500).
      { subst status. destruct e; try discriminate Eh; rewrite Hr;
          reflexivity. }
      split; [auto|]. split; [intros E; lia|].
      intros [E | [[model Hm] (wf & Hw & Hbad)]]; [congruence|].
      exfalso. rewrite (run_whisper_format_error _ _ _ Hm Hw Hbad) in Ep.
      inversion Ep; subst. discriminate Eh.
Qed.

(** X4. A non-empty upload that [wave] cannot open is answered 500 with
    the message of [wave]'s exception, whatever the engine: an empty
    detail for a file of less than 8 bytes, and the RIFF message for a
    longer one that does not start with RIFF. *)
Theorem transcribe_unreadable (model : WhisperModel) (content : bytes) :
  content <> [] ->
  (forall e, wave.open_rb content = Raise e ->
     reply (transcribe (Ok model) content)
     = mkResponse 500 (PDict [("detail"%string, PStr (str_exn e))]))
  /\ (len content < 8 ->
      reply (transcribe (Ok model) content)
      = mkResponse 500 (PDict [("detail"%string, PStr EmptyString)]))
  /\ (8 <= len content -> take 4 content <> bytes_of_string "RIFF" ->
      reply (transcribe (Ok model) content)
      = mkResponse 500
          (PDict [("detail"%string,
                   PStr "file does not start with RIFF id")])).
Proof.
  intros Hne.
  assert (Hgen : forall e, wave.open_rb content = Raise e ->
            reply (transcribe (Ok model) content)
            = mkResponse 500 (PDict [("detail"%string, PStr (str_exn e))])).
  { intros e He. unfold transcribe. rewrite (len_nonempty _ Hne).
    unfold pipeline, run_whisper, wav_bytes_to_float_np.
    cbn [bind]. rewrite He. cbn [bind snd].
    rewrite (open_rb_raises _ _ He). reflexivity. }
  split; [exact Hgen|]. split.
  - intros Hlen. apply (Hgen EOFError).
    unfold wave.open_rb, wave.open_rb_fuel, chunk.open_riff, chunk.file_read.
    destruct (len (take 4 (drop 0 content)) <? 4) eqn:E4; [reflexivity|].
    assert (Hs : struct.unpack_L (take 4 (drop 4 content))
                 = Raise (StructError
                     "unpack_from requires a buffer of at least 4 bytes")).
    { clear - Hlen. unfold len in Hlen.
      destruct content as [|a [|b [|c [|d [|e0 [|f [|g [|h t]]]]]]]];
        try reflexivity.
      simpl List.length in Hlen. lia. }
    rewrite Hs. reflexivity.
  - intros Hlen Hriff.
    apply (Hgen (WaveError "file does not start with RIFF id")).
    unfold wave.open_rb, wave.open_rb_fuel, chunk.open_riff, chunk.file_read.
    change (drop 0 content) with content.
    assert (H4 : len (take 4 content) = 4).
    { unfold len, take in *. rewrite length_firstn. lia. }
    rewrite H4. replace (4 <? 4) with false by reflexivity.
    destruct (struct.unpack_L (take 4 (drop 4 content))) as [size|e0] eqn:Eu.
    + cbn [bind chunk.chunkname].
      destruct (list_eq_dec Byte.byte_eq_dec (take 4 content)
                  (bytes_of_string "RIFF")) as [E|_]; [congruence|].
      reflexivity.
    + exfalso. clear - Hlen Eu. unfold len in Hlen.
      destruct content as [|a [|b [|c [|d [|e1 [|f [|g [|h t]]]]]]]];
        try (simpl List.length in Hlen; lia).
      discriminate Eu.
Qed.

(** X5. A mono 16-bit file that declares the rate 0 and holds at least
    one sample is not refused as a format error: the duration cannot be
    computed and the reply is 500. *)
Theorem transcribe_zero_rate (model : WhisperModel) (pcm : bytes) :
  2 <= len pcm -> len pcm + 36 < 4294967296 ->
  reply (transcribe (Ok model) (wav_header 0 (len pcm) ++ pcm))
  = mkResponse 500 (PDict [("detail"%string, PStr "division by zero")]).
Proof.
  intros H2 Hlen.
  assert (Hne : wav_header 0 (len pcm) ++ pcm <> []) by discriminate.
  unfold transcribe. rewrite (len_nonempty _ Hne).
  unfold pipeline, run_whisper. cbn [bind].
  rewrite wav_decode_canonical by (try lia; assumption). cbn [bind].
  destruct pcm as [|lo [|hi rest]];
    try (unfold len in H2; simpl List.length in H2; lia).
  cbn [samples_of map].
  replace (len (normalize (struct.int16_of lo hi)
                  :: map normalize (samples_of rest)) =? 0) with false.
  2:{ symmetry. apply Z.eqb_neq. unfold len. simpl List.length. lia. }
  reflexivity.
Qed.

End Replies.

(** The replies to an 8-bit file and to a stereo file of float samples
    with the model loaded, and to the 8-bit file when the loader fails. *)
Lemma transcribe_status_witness :
  reply (transcribe deaf_engine eight_bit_wav)
  = mkResponse 400 (PDict [("detail"%string, PStr "Expect mono 16-bit WAV")])
  /\ reply (transcribe deaf_engine float_wav)
     = mkResponse 500 (PDict [("detail"%string, PStr "unknown format: 3")])
  /\ reply (transcribe (Raise (OtherException "no model")) eight_bit_wav)
     = mkResponse 500 (PDict [("detail"%string, PStr "no model")]).
Proof.
  split; [|split].
  - refine (proj1 (proj2 (transcribe_status deaf_engine eight_bit_wav) _)
              (fun _ => Ok [])
              (wave.mkRead 1 1 16000 1 0
                 (chunk.mkChunk (bytes_of_string "data") 0 0)
                 (chunk.mkRiff eight_bit_wav (bytes_of_string "RIFF") 36 36))
              _ _ _).
    + discriminate.
    + reflexivity.
    + vm_compute. reflexivity.
    + right. discriminate.
  - refine (proj1 (proj2 (proj2 (proj2
              (proj2 (transcribe_status deaf_engine float_wav) _))))
              (fun _ => Ok []) (WaveError "unknown format: 3") _ _).
    + discriminate.
    + reflexivity.
    + vm_compute. reflexivity.
  - refine (proj1 (proj2 (proj2
              (proj2 (transcribe_status (Raise (OtherException "no model"))
                        eight_bit_wav) _)))
              (OtherException "no model") _ _).
    + discriminate.
    + reflexivity.
    + reflexivity.
Defined.

(** C9 as stated fails: the upload is not empty, yet the reply is 400,
    neither the 500 of a failure nor a 200. *)
Lemma transcribe_status_counterexample :
  eight_bit_wav <> []
  /\ reply (transcribe (Ok (fun _ => Ok [])) eight_bit_wav)
     = mkResponse 400 (PDict [("detail"%string,
                               PStr "Expect mono 16-bit WAV")])
  /\ status_code (reply (transcribe (Ok (fun _ => Ok [])) eight_bit_wav))
     <> 500
  /\ status_code (reply (transcribe (Ok (fun _ => Ok [])) eight_bit_wav))
     <> 200.
Proof.
  split; [discriminate|]. split; [vm_compute; reflexivity|].
  split; vm_compute; discriminate.
Qed.

Lemma transcribe_status_400_witness :
  status_code (reply (transcribe deaf_engine eight_bit_wav)) = 400
  <-> eight_bit_wav = []
      \/ (exists model, deaf_engine = Ok model)
         /\ exists wf, wave.open_rb eight_bit_wav = Ok wf
              /\ (wave.nchannels wf <> 1 \/ wave.sampwidth wf <> 2).
Proof.
  refine (proj2 (transcribe_status_400 deaf_engine eight_bit_wav _ _)).
  - intros e H. discriminate H.
  - intros model audio e H Hm. unfold deaf_engine in H.
    assert (E : model = fun _ => Ok []) by congruence.
    rewrite E in Hm. discriminate Hm.
Defined.

Lemma transcribe_unreadable_witness :
  reply (transcribe (Ok (fun _ => Ok [])) [Byte.x52; Byte.x49; Byte.x46])
  = mkResponse 500 (PDict [("detail"%string, PStr EmptyString)])
  /\ reply (transcribe (Ok (fun _ => Ok [])) float_wav)
     = mkResponse 500 (PDict [("detail"%string, PStr "unknown format: 3")]).
Proof.
  split.
  - refine (proj1 (proj2 (transcribe_unreadable (fun _ => Ok [])
                            [Byte.x52; Byte.x49; Byte.x46] _)) _).
    + discriminate.
    + vm_compute. reflexivity.
  - refine (proj1 (transcribe_unreadable (fun _ => Ok []) float_wav _)
              (WaveError "unknown format: 3") _).
    + discriminate.
    + vm_compute. reflexivity.
Defined.

Lemma transcribe_zero_rate_witness :
  reply (transcribe (Ok (fun _ => Ok []))
           (wav_header 0 (len [Byte.x01; Byte.x00])
            ++ [Byte.x01; Byte.x00]))
  = mkResponse 500 (PDict [("detail"%string, PStr "division by zero")]).
Proof.
  apply (transcribe_zero_rate (fun _ => Ok []) [Byte.x01; Byte.x00]).
  - vm_compute. discriminate.
  - vm_compute. reflexivity.
Defined.

(* ------------------------------------------------------------------ *)
(** ** What reaches the engine, and what comes back *)

Section Recognition.

Variable get_whisper : result WhisperModel.

(** [run_whisper] on a canonical file. *)
Lemma run_whisper_canonical pcm sr :
  0 <= sr < 2147483648 -> len pcm + 36 < 4294967296 ->
  run_whisper get_whisper (wav_header sr (len pcm) ++ pcm)
  = (model <- get_whisper ;;
     let audio := map normalize (samples_of pcm) in
     if len audio =? 0 then Ok [] else
     resampled <-
       (if negb (sr =? TARGET_SAMPLE_RATE)
        then resample audio sr
        else Ok (Some audio)) ;;
     match resampled with
     | None => Ok []
     | Some audio =>
         segments <- model audio ;;
         Ok (collect segments)
     end).
Proof.
  intros Hsr Hlen. unfold run_whisper.
  destruct get_whisper as [model|e]; cbn [bind]; [|reflexivity].
  rewrite wav_decode_canonical by assumption. reflexivity.
Qed.

(** X6. At the target rate nothing is resampled: the engine is given
    the samples of the buffer over 32768, and it is not called at all
    when the buffer holds no whole sample. *)
Theorem run_whisper_target_rate (model : WhisperModel) (pcm wav : bytes) :
  pcm16_to_wav_bytes pcm TARGET_SAMPLE_RATE = Ok wav ->
  run_whisper (Ok model) wav
  = match samples_of pcm with
    | [] => Ok []
    | _ :: _ =>
        segments <- model (map normalize (samples_of pcm)) ;;
        Ok (collect segments)
    end.
Proof.
  intros H.
  destruct (pcm16_to_wav_bytes_inv _ _ _ H) as [H1 H2].
  rewrite pcm16_to_wav_bytes_ok in H by assumption.
  assert (E : wav = wav_header TARGET_SAMPLE_RATE (len pcm) ++ pcm)
    by congruence.
  subst wav. unfold run_whisper. cbn [bind].
  rewrite wav_decode_canonical by (try lia; assumption). cbn [bind].
  destruct (samples_of pcm) as [|x xs]; [reflexivity|].
  replace (len (map normalize (x :: xs)) =? 0) with false.
  2:{ symmetry. apply Z.eqb_neq. unfold len. simpl List.length. lia. }
  reflexivity.
Qed.

Lemma length_string_of_list_ascii l :
  String.length (string_of_list_ascii l) = List.length l.
Proof. induction l as [|a l IH]; simpl; congruence. Qed.

Lemma length_list_ascii_of_string s :
  List.length (list_ascii_of_string s) = String.length s.
Proof. induction s as [|a s IH]; simpl; congruence. Qed.

Lemma length_string_rev s : String.length (string_rev s) = String.length s.
Proof.
  unfold string_rev.
  rewrite length_string_of_list_ascii, length_rev.
  apply length_list_ascii_of_string.
Qed.

Lemma string_rev_involutive s : string_rev (string_rev s) = s.
Proof.
  unfold string_rev.
  rewrite list_ascii_of_string_of_list_ascii, rev_involutive.
  apply string_of_list_ascii_of_string.
Qed.

Lemma list_ascii_of_string_app a b :
  list_ascii_of_string (String.append a b)
  = list_ascii_of_string a ++ list_ascii_of_string b.
Proof. induction a as [|c a IH]; simpl; congruence. Qed.

Lemma string_of_list_ascii_app x y :
  string_of_list_ascii (x ++ y)
  = String.append (string_of_list_ascii x) (string_of_list_ascii y).
Proof. induction x as [|c x IH]; simpl; congruence. Qed.

Lemma string_rev_app a b :
  string_rev (String.append a b)
  = String.append (string_rev b) (string_rev a).
Proof.
  unfold string_rev.
  rewrite list_ascii_of_string_app, rev_app_distr.
  apply string_of_list_ascii_app.
Qed.

Lemma drop_prefix_split p : forall s r,
  drop_prefix p s = Some r -> s = String.append p r.
Proof.
  induction p as [|a p IH]; intros s r H.
  - cbn [drop_prefix] in H. injection H as <-. reflexivity.
  - cbn [drop_prefix] in H. destruct s as [|b s]; [discriminate|].
    destruct (Ascii.eqb a b) eqn:E; [|discriminate].
    apply Ascii.eqb_eq in E. subst b. apply IH in H. subst s. reflexivity.
Qed.

Lemma drop_prefix_more p : forall s r t,
  drop_prefix p s = Some r ->
  drop_prefix p (String.append s t) = Some (String.append r t).
Proof.
  induction p as [|a p IH]; intros s r t H.
  - cbn [drop_prefix] in H. injection H as <-. destruct (String.append s t);
      reflexivity.
  - cbn [drop_prefix] in H. destruct s as [|b s]; [discriminate|].
    cbn [String.append drop_prefix].
    destruct (Ascii.eqb a b); [|discriminate].
    apply IH. exact H.
Qed.

Lemma drop_one_of_more ws s t :
  drop_one_of ws s <> None -> drop_one_of ws (String.append s t) <> None.
Proof.
  induction ws as [|p ws IH]; cbn [drop_one_of fold_right]; [congruence|].
  destruct (drop_prefix p s) as [r|] eqn:E.
  - intros _. rewrite (drop_prefix_more _ _ _ t E). discriminate.
  - intros H. destruct (drop_prefix p (String.append s t)); [discriminate|].
    apply IH. exact H.
Qed.

Lemma drop_one_of_split ws s r :
  drop_one_of ws s = Some r -> exists p, s = String.append p r.
Proof.
  induction ws as [|p ws IH]; cbn [drop_one_of fold_right]; [discriminate|].
  destruct (drop_prefix p s) as [r0|] eqn:E.
  - intros H. injection H as <-. exists p. apply drop_prefix_split. exact E.
  - exact IH.
Qed.

Lemma append_assoc (a b c : string) :
  String.append (String.append a b) c = String.append a (String.append b c).
Proof. induction a as [|x a IH]; simpl; congruence. Qed.

(** What [lstrip_fuel] returns is the end of its argument. *)
Lemma lstrip_fuel_split ws fuel : forall s,
  exists p, s = String.append p (lstrip_fuel fuel ws s).
Proof.
  induction fuel as [|fuel IH]; intros s.
  - exists EmptyString. reflexivity.
  - rewrite lstrip_fuel_S. destruct (drop_one_of ws s) as [r|] eqn:E.
    + apply drop_one_of_split in E. destruct E as [p ->].
      destruct (IH r) as [q Hq]. exists (String.append p q).
      rewrite append_assoc. congruence.
    + exists EmptyString. reflexivity.
Qed.

(** [str.strip] leaves no whitespace at either end. *)
Lemma strip_stripped s : stripped (strip s).
Proof.
  unfold strip.
  set (l := lstrip_fuel (String.length s) whitespace s).
  set (r := lstrip_fuel (String.length l) (map string_rev whitespace)
                        (string_rev l)).
  destruct whitespace_nonempty as [Hw Hr].
  split.
  - destruct (drop_one_of whitespace (string_rev r)) as [x|] eqn:E;
      [exfalso | reflexivity].
    destruct (lstrip_fuel_split (map string_rev whitespace)
                (String.length l) (string_rev l)) as [p Hp].
    fold r in Hp.
    assert (Hl : l = String.append (string_rev r) (string_rev p)).
    { rewrite <- string_rev_app, <- Hp. symmetry.
      apply string_rev_involutive. }
    assert (Hn : drop_one_of whitespace l <> None).
    { rewrite Hl. apply drop_one_of_more. congruence. }
    apply Hn. unfold l. apply lstrip_fuel_done; [exact Hw | lia].
  - rewrite string_rev_involutive. unfold r.
    apply lstrip_fuel_done; [exact Hr|].
    rewrite length_string_rev. lia.
Qed.

Lemma collect_texts segments :
  Forall (fun s => text s <> EmptyString /\ stripped (text s)
                   /\ speaker s = None
                   /\ exists seg, In seg segments
                        /\ start s = es_start seg /\ end' s = es_end seg
                        /\ text s = strip (engine_text seg))
         (collect segments).
Proof.
  induction segments as [|seg rest IH]; [constructor|].
  cbn [collect]. fold (engine_text seg).
  assert (IH' : Forall
            (fun s => text s <> EmptyString /\ stripped (text s)
                      /\ speaker s = None
                      /\ exists seg0, In seg0 (seg :: rest)
                           /\ start s = es_start seg0
                           /\ end' s = es_end seg0
                           /\ text s = strip (engine_text seg0))
            (collect rest)).
  { eapply Forall_impl; [|exact IH].
    intros s (H1 & H2 & H3 & seg0 & H4 & H5).
    split; [exact H1|]. split; [exact H2|]. split; [exact H3|].
    exists seg0. split; [right; exact H4 | exact H5]. }
  destruct (String.eqb (strip (engine_text seg)) EmptyString) eqn:E;
    [exact IH'|].
  constructor; [|exact IH'].
  cbn [text speaker start end'].
  split; [apply String.eqb_neq; exact E|].
  split; [apply strip_stripped|]. split; [reflexivity|].
  exists seg. split; [left; reflexivity|]. repeat split.
Qed.

(** X7. Every segment [run_whisper] returns has a text that is not
    empty and has no whitespace at either end, and carries no speaker
    yet. *)
Theorem run_whisper_texts (wav : bytes) (stt : list Segment) :
  run_whisper get_whisper wav = Ok stt ->
  Forall (fun s => text s <> EmptyString /\ stripped (text s)
                   /\ speaker s = None) stt.
Proof.
  unfold run_whisper.
  destruct get_whisper as [model|e]; cbn [bind]; [|discriminate].
  destruct (wav_bytes_to_float_np wav) as [[audio sr]|e]; cbn [bind];
    [|discriminate].
  assert (Hnil : Ok (@nil Segment) = Ok stt ->
            Forall (fun s => text s <> EmptyString /\ stripped (text s)
                             /\ speaker s = None) stt).
  { intros H. injection H as <-. constructor. }
  assert (Hrun : forall a, (segments <- model a ;; Ok (collect segments))
                           = Ok stt ->
            Forall (fun s => text s <> EmptyString /\ stripped (text s)
                             /\ speaker s = None) stt).
  { intros a. destruct (model a) as [segments|e]; cbn [bind];
      [|discriminate].
    intros H. injection H as <-.
    eapply Forall_impl; [|apply collect_texts].
    intros s (H1 & H2 & H3 & _). auto. }
  destruct (len audio =? 0); [exact Hnil|].
  destruct (negb (sr =? TARGET_SAMPLE_RATE)).
  - destruct (resample audio sr) as [[out|]|e]; cbn [bind];
      [apply Hrun | exact Hnil | discriminate].
  - cbn [bind]. apply Hrun.
Qed.

End Recognition.

Lemma run_whisper_target_rate_witness :
  run_whisper one_word_engine
    (wav_header 16000 2 ++ [Byte.x00; Byte.x40])
  = Ok [mkSegment (F64.of_Z 0) (F64.of_Z 1) "hi" None].
Proof.
  refine (eq_trans
            (run_whisper_target_rate
               (fun _ => Ok [mkEngineSegment (F64.of_Z 0) (F64.of_Z 1)
                                             (Some " hi "%string)])
               [Byte.x00; Byte.x40]
               (wav_header 16000 2 ++ [Byte.x00; Byte.x40]) _) _).
  - vm_compute. reflexivity.
  - vm_compute. reflexivity.
Defined.

Lemma run_whisper_texts_witness :
  Forall (fun s => text s <> EmptyString /\ stripped (text s)
                   /\ speaker s = None)
         [mkSegment (F64.of_Z 0) (F64.of_Z 1) "hi" None].
Proof.
  apply (run_whisper_texts one_word_engine
           (wav_header 16000 2 ++ [Byte.x00; Byte.x40])).
  vm_compute. reflexivity.
Defined.

(* ------------------------------------------------------------------ *)
(** ** The labels of the assignment *)

Section Labels.

Variable get_whisper : result WhisperModel.

(** X8. A second assignment replaces the labels of the first: only the
    start and the end of a segment decide its label. *)
Theorem assign_speakers_override (stt : list Segment)
    (spk1 spk2 : list DiarSegment) :
  assign_speakers (assign_speakers stt spk1) spk2 = assign_speakers stt spk2.
Proof.
  assert (H : forall f, (forall s, exists name, f s = set_speaker s name) ->
            assign_speakers (map f stt) spk2 = assign_speakers stt spk2).
  { intros f Hf. unfold assign_speakers. destruct spk2 as [|d spk2].
    - rewrite map_map. apply map_ext. intros s.
      destruct (Hf s) as [name ->]. reflexivity.
    - rewrite map_map. apply map_ext. intros s.
      destruct (Hf s) as [name ->]. reflexivity. }
  unfold assign_speakers at 2. destruct spk1 as [|d spk1].
  - apply H. intros s. eexists. reflexivity.
  - apply H. intros s.
    destruct (fst (best_overlap s (d :: spk1))); eexists; reflexivity.
Qed.

Lemma chosen_label s spk name :
  chosen s spk name ->
  name = DEFAULT_SPEAKER \/ exists d, In d spk /\ name = d_speaker d.
Proof.
  intros [pre post d Hs Hn _ _ _ | Hn _].
  - right. exists d. split; [|exact Hn].
    rewrite Hs. apply in_or_app. right. left. reflexivity.
  - left. exact Hn.
Qed.

Lemma assign_speakers_label_from stt spk :
  Forall (label_from spk) (assign_speakers stt spk).
Proof.
  unfold assign_speakers. destruct spk as [|d0 spk].
  - apply Forall_map. apply Forall_forall. intros s _. left. reflexivity.
  - apply Forall_map. apply Forall_forall. intros s _.
    pose proof (best_overlap_chosen s (d0 :: spk)) as Hc.
    apply chosen_label in Hc.
    destruct (fst (best_overlap s (d0 :: spk))) as [best|];
      [|left; reflexivity].
    destruct Hc as [Hc | (d & Hin & Hd)].
    + left. cbn [set_speaker speaker]. congruence.
    + right. exists d. split; [exact Hin|].
      cbn [set_speaker speaker]. congruence.
Qed.

(** X9. The assignment invents no label: every segment gets the
    default one or the label of one of the diarization segments, and its
    label is never missing. *)
Theorem assign_speakers_labels (stt : list Segment)
    (spk : list DiarSegment) :
  Forall (label_from spk) (assign_speakers stt spk)
  /\ Forall (fun s => speaker s <> None) (assign_speakers stt spk).
Proof.
  pose proof (assign_speakers_label_from stt spk) as H.
  split; [exact H|].
  eapply Forall_impl; [|exact H].
  intros s [Hs | (d & _ & Hs)]; rewrite Hs; discriminate.
Qed.

(** X10. With the diarization as it stands, one segment labelled
    SPEAKER_00, every segment both handlers return is labelled
    SPEAKER_00. *)
Theorem pipeline_single_speaker (content : bytes) (final : list Segment) :
  snd (pipeline get_whisper content) = Ok final ->
  Forall (fun s => speaker s = Some "SPEAKER_00"%string) final.
Proof.
  unfold pipeline.
  destruct (run_whisper get_whisper content) as [stt|e]; cbn [snd];
    [|discriminate].
  intros H.
  assert (E : final = assign_speakers stt (run_diarization content))
    by congruence.
  rewrite E.
  eapply Forall_impl; [|apply assign_speakers_label_from].
  intros s [Hs | (d & Hin & Hs)]; [exact Hs|].
  unfold run_diarization in Hin. destruct Hin as [<- | []]. exact Hs.
Qed.

(** X11. An overlap is never negative and never NaN, whatever the four
    bounds are (reversed, infinite or NaN): it is 0.0 or above it. *)
Theorem overlap_never_negative (a b : spec_float * spec_float) :
  (overlap a b = F64.zero \/ F64.ltb F64.zero (overlap a b) = true)
  /\ F64.is_nan (overlap a b) = false
  /\ F64.ltb (overlap a b) F64.zero = false.
Proof.
  set (x := F64.sub (py_min (snd a) (snd b)) (py_max (fst a) (fst b))).
  assert (E0 : overlap a b = if F64.ltb F64.zero x then x else F64.zero)
    by reflexivity.
  rewrite E0. clear E0.
  destruct (F64.ltb F64.zero x) eqn:E.
  - split; [right; exact E|]. split.
    + destruct x; try reflexivity. discriminate E.
    + destruct x as [s|s| |s m e]; try discriminate E;
        try (destruct s; [discriminate E | reflexivity]).
  - split; [left; reflexivity|]. split; reflexivity.
Qed.

End Labels.

Lemma pipeline_single_speaker_witness :
  Forall (fun s => speaker s = Some "SPEAKER_00"%string)
         [mkSegment (F64.of_Z 0) (F64.of_Z 1) "hi"
                    (Some "SPEAKER_00"%string)].
Proof.
  apply (pipeline_single_speaker one_word_engine
           (wav_header 16000 2 ++ [Byte.x00; Byte.x40])).
  vm_compute. reflexivity.
Defined.

(* ------------------------------------------------------------------ *)
(** ** What a session keeps *)

Section Sessions.

Variable get_whisper : result WhisperModel.
Variable send_text : pyval -> result unit.
Variable room : positive.

(** X12. Binary frames are appended to the buffer in the order they
    arrive; a text sent in the same message is not looked at, were it
    the end token, and the declared rate stays. *)
Theorem ws_loop_binary (msgs : list Message) (rest : list Event)
    (pcm : bytes) (sr : Z) :
  Forall has_payload msgs ->
  ws_loop get_whisper send_text room (map Receive msgs ++ rest) pcm sr
  = ws_loop get_whisper send_text room rest
            (pcm ++ List.concat (map payload msgs)) sr.
Proof.
  intros H. revert pcm.
  induction H as [|msg msgs (b & bs & Hb) _ IH]; intros pcm.
  - cbn [map List.concat app]. rewrite app_nil_r. reflexivity.
  - cbn [map List.concat app ws_loop]. unfold payload at 1. rewrite Hb.
    rewrite IH, app_assoc. reflexivity.
Qed.

(** X13. Messages with no payload and no text, or a text that neither
    holds the word sampleRate nor ends the stream, change nothing:
    nothing is sent, buffer and rate stay. *)
Theorem ws_loop_passed_over (msgs : list Message) (rest : list Event)
    (pcm : bytes) (sr : Z) :
  forallb passed_over msgs = true ->
  ws_loop get_whisper send_text room (map Receive msgs ++ rest) pcm sr
  = ws_loop get_whisper send_text room rest pcm sr.
Proof.
  induction msgs as [|msg msgs IH]; intros H; [reflexivity|].
  cbn [forallb] in H. apply andb_true_iff in H. destruct H as [Hm Hrest].
  cbn [map app ws_loop]. unfold passed_over in Hm.
  destruct (m_bytes msg) as [[|b bs]|]; try discriminate Hm;
    (destruct (m_text msg) as [[|c t]|];
     [apply IH; exact Hrest | | apply IH; exact Hrest];
     apply andb_true_iff in Hm; destruct Hm as [H1 H2];
     apply negb_true_iff in H1, H2; rewrite H1, H2;
     apply IH; exact Hrest).
Qed.

Lemma configure_positive text sr : 0 < sr -> 0 < configure room text sr.
Proof.
  intros H. destruct (configure_cases room text sr) as [E | (items & v & E)].
  - rewrite E. exact H.
  - apply E.
Qed.

Lemma finalize_state pcm sr :
  buffer (finalize get_whisper send_text pcm sr) = pcm
  /\ current_sr (finalize get_whisper send_text pcm sr) = sr.
Proof.
  unfold finalize.
  destruct (pcm16_to_wav_bytes pcm sr) as [wav|e];
    [|split; reflexivity].
  destruct (pipeline get_whisper wav) as [called [final|e]];
    [|split; reflexivity].
  destruct (send_text (final_message final)); split; reflexivity.
Qed.

Lemma ws_loop_state events : forall pcm sr,
  0 < sr ->
  0 < current_sr (ws_loop get_whisper send_text room events pcm sr)
  /\ exists more,
       buffer (ws_loop get_whisper send_text room events pcm sr) = pcm ++ more.
Proof.
  induction events as [|ev events IH]; intros pcm sr Hsr.
  - cbn [ws_loop current_sr buffer]. split; [exact Hsr|].
    exists []. symmetry. apply app_nil_r.
  - destruct ev as [msg|e].
    2:{ cbn [ws_loop current_sr buffer]. split; [exact Hsr|].
        exists []. symmetry. apply app_nil_r. }
    assert (Hgrow : forall b bs,
              0 < current_sr (ws_loop get_whisper send_text room events
                                      (pcm ++ b :: bs) sr)
              /\ exists more,
                   buffer (ws_loop get_whisper send_text room events
                                   (pcm ++ b :: bs) sr) = pcm ++ more).
    { intros b bs. destruct (IH (pcm ++ b :: bs) sr Hsr) as [H1 [more H2]].
      split; [exact H1|]. exists ((b :: bs) ++ more).
      rewrite H2, app_assoc. reflexivity. }
    assert (Htext : forall c t,
              0 < current_sr
                    (if contains "sampleRate" (String c t)
                     then ws_loop get_whisper send_text room events pcm
                            (configure room (String c t) sr)
                     else if is_end (String c t)
                          then finalize get_whisper send_text pcm sr
                          else ws_loop get_whisper send_text room events pcm sr)
              /\ exists more,
                   buffer
                     (if contains "sampleRate" (String c t)
                      then ws_loop get_whisper send_text room events pcm
                             (configure room (String c t) sr)
                      else if is_end (String c t)
                           then finalize get_whisper send_text pcm sr
                           else ws_loop get_whisper send_text room events pcm sr)
                   = pcm ++ more).
    { intros c t. destruct (contains "sampleRate" (String c t)).
      - apply IH. apply configure_positive. exact Hsr.
      - destruct (is_end (String c t)); [|apply IH; exact Hsr].
        destruct (finalize_state pcm sr) as [H1 H2]. rewrite H1, H2.
        split; [exact Hsr|]. exists []. symmetry. apply app_nil_r. }
    cbn [ws_loop].
    destruct (m_bytes msg) as [[|b bs]|]; [| apply Hgrow |];
      (destruct (m_text msg) as [[|c t]|];
       [apply IH; exact Hsr | apply Htext | apply IH; exact Hsr]).
Qed.

(** X14. The declared rate of a session is always positive, and the
    buffer only grows: what was received stays in front. *)
Theorem ws_loop_invariant (events : list Event) (pcm : bytes) (sr : Z) :
  0 < sr ->
  0 < current_sr (ws_loop get_whisper send_text room events pcm sr)
  /\ (exists more,
        buffer (ws_loop get_whisper send_text room events pcm sr) = pcm ++ more)
  /\ 0 < current_sr (fst (ws get_whisper send_text room events)).
Proof.
  intros Hsr.
  destruct (ws_loop_state events pcm sr Hsr) as [H1 H2].
  split; [exact H1|]. split; [exact H2|].
  destruct (ws_loop_state events [] 16000 ltac:(lia)) as [H3 _].
  unfold ws.
  destruct (exit (ws_loop get_whisper send_text room events [] 16000)) as [|e|];
    cbn [fst]; try exact H3.
  destruct e; cbn [fst]; try exact H3;
    destruct (send_text _); cbn [fst current_sr]; exact H3.
Qed.

(** X15. A declared rate of 2^31 or more cannot be written into a WAV
    header: at the end of the stream no adapter is called and no final
    message is sent, whatever the buffer holds. *)
Theorem ws_end_rate_too_high (rest : list Event) (pcm : bytes) (sr : Z) :
  2147483648 <= sr ->
  let o := ws_loop get_whisper send_text room (text_frame "end" :: rest) pcm sr in
  sent o = [] /\ calls o = [] /\ exists e, exit o = Raised e.
Proof.
  intros Hsr o.
  assert (E : o = finalize get_whisper send_text pcm sr) by reflexivity.
  rewrite E. unfold finalize.
  destruct (pcm16_to_wav_bytes_raises pcm sr (or_intror (or_introl Hsr)))
    as [e He].
  rewrite He. cbn [sent calls exit]. split; [reflexivity|].
  split; [reflexivity|]. exists e. reflexivity.
Qed.

End Sessions.

Section Streams.

Variable send_text : pyval -> result unit.
Variable room : positive.

Lemma ws_loop_binary_frames gw chunks rest : forall pcm sr,
  Forall (fun c : bytes => c <> []) chunks ->
  ws_loop gw send_text room (map binary_frame chunks ++ rest) pcm sr
  = ws_loop gw send_text room rest (pcm ++ List.concat chunks) sr.
Proof.
  induction chunks as [|c chunks IH]; intros pcm sr H.
  - cbn [map List.concat app]. rewrite app_nil_r. reflexivity.
  - inversion H as [|c' l' Hc Hrest]; subst.
    destruct c as [|b bs]; [congruence|].
    cbn [map List.concat app]. unfold binary_frame at 1.
    cbn [ws_loop m_bytes m_text].
    rewrite IH by exact Hrest. rewrite <- app_assoc. reflexivity.
Qed.

(** X16. A session of binary frames ended by the token end, at the
    default rate: the engine is given the samples of the concatenated
    frames over 32768, not resampled, and the one message sent is the
    final one with the engine's segments, stripped and labelled. *)
Theorem ws_stream_at_default_rate (model : WhisperModel)
    (chunks : list bytes) (segments : list EngineSegment) :
  Forall (fun c : bytes => c <> []) chunks ->
  len (List.concat chunks) + 36 < 4294967296 ->
  samples_of (List.concat chunks) <> [] ->
  model (map normalize (samples_of (List.concat chunks))) = Ok segments ->
  send_text (final_message
               (assign_speakers (collect segments) (run_diarization [])))
  = Ok tt ->
  ws (Ok model) send_text room (map binary_frame chunks ++ [text_frame "end"])
  = (mkOutcome (List.concat chunks) 16000
       [final_message
          (assign_speakers (collect segments) (run_diarization []))]
       [Recognition; Diarization; Assignment] Break, true).
Proof.
  intros Hc Hlen Hs Hm Hsend. unfold ws.
  rewrite ws_loop_binary_frames by exact Hc. cbn [app].
  assert (E : ws_loop (Ok model) send_text room [text_frame "end"]
                      (List.concat chunks) 16000
              = finalize (Ok model) send_text (List.concat chunks) 16000)
    by reflexivity.
  rewrite E. unfold finalize.
  rewrite pcm16_to_wav_bytes_ok by (try lia; assumption).
  unfold pipeline.
  rewrite run_whisper_canonical by (try lia; assumption).
  cbn [bind]. cbv zeta.
  destruct (samples_of (List.concat chunks)) as [|x xs] eqn:Ex; [congruence|].
  replace (len (map normalize (x :: xs)) =? 0) with false.
  2:{ symmetry. apply Z.eqb_neq. unfold len. simpl List.length. lia. }
  replace (negb (16000 =? TARGET_SAMPLE_RATE)) with false by reflexivity.
  cbn [bind]. rewrite Hm. cbn [bind].
  change (run_diarization (wav_header 16000 (len (List.concat chunks))
                           ++ List.concat chunks))
    with (run_diarization []).
  rewrite Hsend. reflexivity.
Qed.

(** X17. The stream ended before a whole sample has arrived: at any
    rate a header can hold, the final message with no segment is sent
    and the engine is not called. *)
Theorem ws_end_without_audio (model : WhisperModel) (rest : list Event)
    (pcm : bytes) (sr : Z) :
  0 < sr < 2147483648 -> len pcm < 2 ->
  send_text (final_message []) = Ok tt ->
  ws_loop (Ok model) send_text room (text_frame "end" :: rest) pcm sr
  = mkOutcome pcm sr [final_message []]
              [Recognition; Diarization; Assignment] Break.
Proof.
  intros Hsr Hlen Hsend.
  assert (E : ws_loop (Ok model) send_text room (text_frame "end" :: rest) pcm sr
              = finalize (Ok model) send_text pcm sr) by reflexivity.
  rewrite E. unfold finalize.
  assert (Hl : len pcm + 36 < 4294967296) by lia.
  rewrite pcm16_to_wav_bytes_ok by assumption.
  unfold pipeline.
  rewrite run_whisper_canonical by (try lia; assumption).
  cbn [bind]. cbv zeta.
  assert (Hs : samples_of pcm = []).
  { destruct pcm as [|a [|b l]]; try reflexivity.
    unfold len in Hlen. simpl List.length in Hlen. lia. }
  rewrite Hs. cbn [map]. replace (len (@nil spec_float) =? 0) with true
    by reflexivity.
  cbv iota.
  change (assign_speakers [] (run_diarization
                                (wav_header sr (len pcm) ++ pcm)))
    with (@nil Segment).
  rewrite Hsend. reflexivity.
Qed.

End Streams.

Lemma ws_loop_binary_witness :
  ws_loop deaf_engine open_transport default_room
    (map Receive [mkMessage (Some [Byte.x01; Byte.x02]) (Some "end"%string)]
     ++ [])
    [Byte.x00] 16000
  = ws_loop deaf_engine open_transport default_room []
      ([Byte.x00]
       ++ List.concat (map payload
                    [mkMessage (Some [Byte.x01; Byte.x02])
                               (Some "end"%string)]))
      16000.
Proof.
  apply (ws_loop_binary deaf_engine open_transport default_room
           [mkMessage (Some [Byte.x01; Byte.x02]) (Some "end"%string)]
           [] [Byte.x00] 16000).
  constructor; [|constructor].
  exists Byte.x01, [Byte.x02]. reflexivity.
Defined.

Lemma ws_loop_passed_over_witness :
  ws_loop deaf_engine open_transport default_room
    (map Receive [mkMessage None (Some "hello"%string);
                  mkMessage (Some []) None]
     ++ [text_frame "end"]) [] 16000
  = ws_loop deaf_engine open_transport default_room [text_frame "end"] [] 16000.
Proof.
  apply (ws_loop_passed_over deaf_engine open_transport default_room
           [mkMessage None (Some "hello"%string); mkMessage (Some []) None]
           [text_frame "end"] [] 16000).
  vm_compute. reflexivity.
Defined.

Lemma ws_loop_invariant_witness :
  0 < current_sr (ws_loop deaf_engine open_transport default_room
                          [text_frame config_48000] [] 16000).
Proof.
  refine (proj1 (ws_loop_invariant deaf_engine open_transport default_room
                   [text_frame config_48000] [] 16000 _)).
  lia.
Defined.

Lemma ws_end_rate_too_high_witness :
  sent (ws_loop deaf_engine open_transport default_room [text_frame "end"] []
                2147483648) = [].
Proof.
  refine (proj1 (ws_end_rate_too_high deaf_engine open_transport default_room []
                   [] 2147483648 _)).
  lia.
Defined.

Lemma ws_stream_at_default_rate_witness :
  ws one_word_engine open_transport default_room
     (map binary_frame [[Byte.x00]; [Byte.x40]] ++ [text_frame "end"])
  = (mkOutcome [Byte.x00; Byte.x40] 16000
       [final_message [mkSegment (F64.of_Z 0) (F64.of_Z 1) "hi"
                                 (Some "SPEAKER_00"%string)]]
       [Recognition; Diarization; Assignment] Break, true).
Proof.
  refine (ws_stream_at_default_rate open_transport default_room
            (fun _ => Ok [mkEngineSegment (F64.of_Z 0) (F64.of_Z 1)
                                          (Some " hi "%string)])
            [[Byte.x00]; [Byte.x40]]
            [mkEngineSegment (F64.of_Z 0) (F64.of_Z 1)
                             (Some " hi "%string)] _ _ _ _ _).
  - repeat constructor; discriminate.
  - vm_compute. reflexivity.
  - discriminate.
  - reflexivity.
  - reflexivity.
Defined.

Lemma ws_end_without_audio_witness :
  ws_loop deaf_engine open_transport default_room [text_frame "end"] [Byte.x01] 8000
  = mkOutcome [Byte.x01] 8000 [final_message []]
              [Recognition; Diarization; Assignment] Break.
Proof.
  apply (ws_end_without_audio open_transport default_room (fun _ => Ok []) []
           [Byte.x01] 8000).
  - lia.
  - vm_compute. reflexivity.
  - reflexivity.
Defined.

(* ------------------------------------------------------------------ *)
(** ** The recording page and the server *)

Section Page.

Local Arguments byte_of_Z : simpl never.
Local Arguments Z.mul : simpl never.
Local Arguments Z.add : simpl never.
Local Arguments Z.div : simpl never.

Lemma byte_of_Z_mod a b : a mod 256 = b mod 256 -> byte_of_Z a = byte_of_Z b.
Proof. intros H. unfold byte_of_Z. rewrite H. reflexivity. Qed.

(** The byte at weight [k] of [v] reduced modulo [k * 256 * q]. *)
Lemma byte_of_reduced v k q :
  0 < k -> 0 < q ->
  byte_of_Z (v mod (k * 256 * q) / k) = byte_of_Z (v / k).
Proof.
  intros Hk Hq. apply byte_of_Z_mod.
  set (M := k * 256 * q).
  pose proof (Z.div_mod v M ltac:(unfold M; nia)) as H.
  set (r := v mod M) in *. set (a := v / M) in *. clearbody r a.
  rewrite H.
  replace (M * a + r) with (256 * q * a * k + r) by (unfold M; ring).
  rewrite Z.div_add_l by lia.
  replace (256 * q * a + r / k) with (r / k + q * a * 256) by ring.
  rewrite Z.mod_add by lia. reflexivity.
Qed.

Lemma le16_mod v :
  [byte_of_Z (v mod 65536); byte_of_Z (v mod 65536 / 256)] = le16 v.
Proof.
  unfold le16.
  pose proof (byte_of_reduced v 1 256 ltac:(lia) ltac:(lia)) as H1.
  pose proof (byte_of_reduced v 256 1 ltac:(lia) ltac:(lia)) as H2.
  change (1 * 256 * 256) with 65536 in H1.
  change (256 * 256 * 1) with 65536 in H2.
  rewrite !Z.div_1_r in H1. rewrite H1, H2. reflexivity.
Qed.

Lemma le32_mod v :
  [byte_of_Z (v mod 4294967296); byte_of_Z (v mod 4294967296 / 256);
   byte_of_Z (v mod 4294967296 / 65536);
   byte_of_Z (v mod 4294967296 / 16777216)] = le32 v.
Proof.
  unfold le32.
  pose proof (byte_of_reduced v 1 16777216 ltac:(lia) ltac:(lia)) as H1.
  pose proof (byte_of_reduced v 256 65536 ltac:(lia) ltac:(lia)) as H2.
  pose proof (byte_of_reduced v 65536 256 ltac:(lia) ltac:(lia)) as H3.
  pose proof (byte_of_reduced v 16777216 1 ltac:(lia) ltac:(lia)) as H4.
  change (1 * 256 * 16777216) with 4294967296 in H1.
  change (256 * 256 * 65536) with 4294967296 in H2.
  change (65536 * 256 * 256) with 4294967296 in H3.
  change (16777216 * 256 * 1) with 4294967296 in H4.
  rewrite !Z.div_1_r in H1. rewrite H1, H2, H3, H4. reflexivity.
Qed.

(** A write right behind what has been written: the view is [done]
    followed by the rest of the buffer [view0]. *)
Lemma set_bytes_next (done view0 b : bytes) o :
  len done = o -> o + len b <= len view0 ->
  page.set_bytes (done ++ drop o view0) o b
  = Some ((done ++ b) ++ drop (o + len b) view0).
Proof.
  intros Hd Hb.
  assert (H0 : 0 <= o) by (unfold len in Hd; lia).
  assert (Hb0 : 0 <= len b) by (unfold len; lia).
  unfold page.set_bytes.
  assert (Hl : len (done ++ drop o view0) = len view0).
  { unfold len, drop in *. rewrite length_app, length_skipn. lia. }
  rewrite Hl.
  replace ((0 <=? o) && (o + len b <=? len view0)) with true.
  2:{ symmetry. apply andb_true_iff. split; apply Z.leb_le; lia. }
  f_equal. unfold wave.overwrite, take, drop.
  assert (Hn : Z.to_nat o = List.length done) by (unfold len in Hd; lia).
  rewrite firstn_app, Hn, Nat.sub_diag, firstn_all. cbn [firstn].
  rewrite app_nil_r, <- app_assoc. f_equal. f_equal.
  rewrite skipn_app.
  replace (Z.to_nat (o + len b)) with (List.length b + List.length done)%nat
    by (unfold len in *; lia).
  rewrite skipn_all2 by lia. cbn [app].
  replace (List.length b + List.length done - List.length done)%nat
    with (List.length b) by lia.
  rewrite skipn_skipn. reflexivity.
Qed.

Lemma setUint32_next (done view0 : bytes) o v :
  len done = o -> o + 4 <= len view0 ->
  page.setUint32 (done ++ drop o view0) o v
  = Some ((done ++ le32 v) ++ drop (o + 4) view0).
Proof.
  intros Hd Hb. unfold page.setUint32. cbv zeta. rewrite le32_mod.
  apply set_bytes_next; [exact Hd | exact Hb].
Qed.

Lemma setUint16_next (done view0 : bytes) o v :
  len done = o -> o + 2 <= len view0 ->
  page.setUint16 (done ++ drop o view0) o v
  = Some ((done ++ le16 v) ++ drop (o + 2) view0).
Proof.
  intros Hd Hb. unfold page.setUint16. cbv zeta. rewrite le16_mod.
  apply set_bytes_next; [exact Hd | exact Hb].
Qed.

Lemma byte_of_char c :
  byte_of_Z (Z.of_nat (nat_of_ascii c) mod 256) = byte_of_ascii c.
Proof.
  destruct c as [[] [] [] [] [] [] [] []]; vm_compute; reflexivity.
Qed.

Lemma len_app {A} (a b : list A) : len (a ++ b) = len a + len b.
Proof. unfold len. rewrite length_app. lia. Qed.

Lemma w_next s : forall (done view0 : bytes) o,
  len done = o -> o + len (bytes_of_string s) <= len view0 ->
  page.w (done ++ drop o view0) o s
  = Some ((done ++ bytes_of_string s)
          ++ drop (o + len (bytes_of_string s)) view0).
Proof.
  induction s as [|c s IH]; intros done view0 o Hd Hb.
  - cbn [page.w bytes_of_string list_byte_of_string].
    rewrite app_nil_r. change (len (@nil byte)) with 0.
    rewrite Z.add_0_r. reflexivity.
  - cbn [page.w]. unfold page.setUint8. rewrite byte_of_char.
    assert (Hc : len (bytes_of_string (String c s))
                 = 1 + len (bytes_of_string s)).
    { unfold len, bytes_of_string.
      cbn [list_byte_of_string List.length map list_ascii_of_string].
      rewrite Nat2Z.inj_succ. unfold Z.succ. rewrite Z.add_comm.
      reflexivity. }
    rewrite Hc in Hb |- *.
    change (bytes_of_string (String c s))
      with (byte_of_ascii c :: bytes_of_string s).
    assert (H0 : 0 <= len (bytes_of_string s)) by (unfold len; lia).
    assert (H1 : forall x : byte, len [x] = 1) by reflexivity.
    rewrite set_bytes_next
      by (try assumption; rewrite H1; unfold len in *; lia).
    cbn [page.obind]. rewrite H1.
    rewrite IH.
    + replace (o + 1 + len (bytes_of_string s))
        with (o + (1 + len (bytes_of_string s))) by lia.
      rewrite <- !app_assoc. reflexivity.
    + rewrite len_app, Hd. reflexivity.
    + unfold len in *. lia.
Qed.

(** [writeWavHeader] on a view of at least 44 bytes. *)
Lemma writeWavHeader_bytes view sampleRate numSamples :
  44 <= len view ->
  page.writeWavHeader view sampleRate numSamples
  = Some (wav_header sampleRate (numSamples * 2) ++ drop 44 view).
Proof.
  intros Hv. unfold page.writeWavHeader. cbv zeta.
  change (1 * 16 / 8) with 2.
  change view with ([] ++ drop 0 view) at 1.
  rewrite w_next by (try reflexivity; change (len (bytes_of_string "RIFF"))
                                         with 4; lia).
  cbn [page.obind]. change (0 + len (bytes_of_string "RIFF")) with 4.
  rewrite setUint32_next by (try reflexivity; lia).
  cbn [page.obind]. change (4 + 4) with 8.
  rewrite w_next by (try reflexivity; change (len (bytes_of_string "WAVE"))
                                         with 4; lia).
  cbn [page.obind]. change (8 + len (bytes_of_string "WAVE")) with 12.
  rewrite w_next by (try reflexivity; change (len (bytes_of_string "fmt "))
                                         with 4; lia).
  cbn [page.obind]. change (12 + len (bytes_of_string "fmt ")) with 16.
  rewrite setUint32_next by (try reflexivity; lia).
  cbn [page.obind]. change (16 + 4) with 20.
  rewrite setUint16_next by (try reflexivity; lia).
  cbn [page.obind]. change (20 + 2) with 22.
  rewrite setUint16_next by (try reflexivity; lia).
  cbn [page.obind]. change (22 + 2) with 24.
  rewrite setUint32_next by (try reflexivity; lia).
  cbn [page.obind]. change (24 + 4) with 28.
  rewrite setUint32_next by (try reflexivity; lia).
  cbn [page.obind]. change (28 + 4) with 32.
  rewrite setUint16_next by (try reflexivity; lia).
  cbn [page.obind]. change (32 + 2) with 34.
  rewrite setUint16_next by (try reflexivity; lia).
  cbn [page.obind]. change (34 + 2) with 36.
  rewrite w_next by (try reflexivity; change (len (bytes_of_string "data"))
                                         with 4; lia).
  cbn [page.obind]. change (36 + len (bytes_of_string "data")) with 40.
  rewrite setUint32_next by (try reflexivity; lia).
  change (40 + 4) with 44. f_equal. f_equal.
  unfold wav_header.
  replace (1 * sampleRate * 2) with (sampleRate * 2) by lia.
  reflexivity.
Qed.

Lemma ToInt16_range x : -32768 <= page.ToInt16 x <= 32767.
Proof.
  unfold page.ToInt16. cbv zeta.
  pose proof (Z.mod_pos_bound (F64.trunc x) 65536 ltac:(lia)) as H.
  destruct (_ <? 32768) eqn:E;
    [apply Z.ltb_lt in E | apply Z.ltb_ge in E]; lia.
Qed.

(** The server reads a stored pair of bytes back as the integer. *)
Lemma int16_of_le16 v :
  -32768 <= v <= 32767 ->
  struct.int16_of (byte_of_Z v) (byte_of_Z (v / 256)) = v.
Proof.
  intros Hv. unfold struct.int16_of. rewrite !byte_to_of_Z. cbv zeta.
  pose proof (Z.div_mod v 256 ltac:(lia)) as Hd.
  pose proof (Z.mod_pos_bound v 256 ltac:(lia)) as Hm.
  assert (Hq : -128 <= v / 256 <= 127).
  { split.
    - apply Z.div_le_lower_bound; lia.
    - apply Z.lt_succ_r. apply Z.div_lt_upper_bound; lia. }
  destruct (Z_lt_le_dec v 0) as [Hn|Hp].
  - assert (Hq' : (v / 256) mod 256 = v / 256 + 256).
    { replace (v / 256) with (v / 256 + 256 + (-1) * 256) at 1 by lia.
      rewrite Z.mod_add by lia. apply Z.mod_small.
      assert (v / 256 < 0) by (apply Z.div_lt_upper_bound; lia). lia. }
    rewrite Hq'.
    replace (v mod 256 + 256 * (v / 256 + 256) <? 32768) with false
      by (symmetry; apply Z.ltb_ge; lia).
    lia.
  - assert (0 <= v / 256) by (apply Z.div_pos; lia).
    rewrite (Z.mod_small (v / 256)) by lia.
    replace (v mod 256 + 256 * (v / 256) <? 32768) with true
      by (symmetry; apply Z.ltb_lt; lia).
    lia.
Qed.

Lemma pcm_loop_next xs : forall (done view0 : bytes) o,
  len done = o -> o + 2 * len xs <= len view0 ->
  page.pcm_loop xs o (done ++ drop o view0)
  = Some ((done ++ flat_map (fun x => le16 (page.stored x)) xs)
          ++ drop (o + 2 * len xs) view0).
Proof.
  induction xs as [|x xs IH]; intros done view0 o Hd Hb.
  - cbn [page.pcm_loop flat_map]. rewrite app_nil_r.
    change (len (@nil spec_float)) with 0. rewrite Z.mul_0_r, Z.add_0_r.
    reflexivity.
  - assert (Hx : len (x :: xs) = 1 + len xs).
    { unfold len. cbn [List.length]. rewrite Nat2Z.inj_succ. lia. }
    rewrite Hx in Hb |- *.
    assert (H0 : 0 <= len xs) by (unfold len; lia).
    cbn [page.pcm_loop flat_map]. unfold page.setInt16.
    fold (page.stored x).
    rewrite setUint16_next by (try assumption; lia).
    cbn [page.obind].
    rewrite IH.
    + replace (o + 2 + 2 * len xs) with (o + 2 * (1 + len xs)) by lia.
      rewrite <- !app_assoc. reflexivity.
    + rewrite len_app, Hd. reflexivity.
    + lia.
Qed.

Lemma len_flat_map_le16 xs :
  len (flat_map (fun x => le16 (page.stored x)) xs) = 2 * len xs.
Proof.
  induction xs as [|x xs IH]; [reflexivity|].
  cbn [flat_map]. rewrite len_app, IH. unfold len. cbn [List.length].
  rewrite Nat2Z.inj_succ. change (Z.of_nat (List.length (le16 (page.stored x))))
    with 2. lia.
Qed.

Lemma floatTo16BitPCM_bytes xs :
  page.floatTo16BitPCM xs
  = Some (flat_map (fun x => le16 (page.stored x)) xs).
Proof.
  unfold page.floatTo16BitPCM. cbv zeta.
  set (view0 := repeat Byte.x00 (Z.to_nat (len xs * 2))).
  assert (H0 : 0 <= len xs) by (unfold len; lia).
  assert (Hl : len view0 = 2 * len xs).
  { unfold view0, len. rewrite repeat_length. unfold len in H0. lia. }
  change view0 with ([] ++ drop 0 view0) at 1.
  rewrite pcm_loop_next
    by (try reflexivity; unfold len, bytes, byte in *; lia).
  cbn [app]. f_equal. unfold drop.
  rewrite skipn_all2 by (unfold len, bytes, byte in *; lia).
  apply app_nil_r.
Qed.

Lemma samples_of_stored xs :
  samples_of (flat_map (fun x => le16 (page.stored x)) xs)
  = map page.stored xs.
Proof.
  induction xs as [|x xs IH]; [reflexivity|].
  cbn [flat_map map]. unfold le16 at 1. cbn [app samples_of].
  rewrite IH. f_equal. apply int16_of_le16. apply ToInt16_range.
Qed.

Lemma leb_not_ltb a b : F64.leb a b = true -> F64.ltb b a = false.
Proof. FloatOrder.start; FloatOrder.cases; FloatOrder.finish. Qed.

Lemma leb_not_nan a b :
  F64.leb a b = true -> F64.is_nan a = false /\ F64.is_nan b = false.
Proof. FloatOrder.start; split; reflexivity. Qed.

(** X18. [floatTo16BitPCM] never runs out of its buffer and writes two
    bytes per sample, which the decoder of the server reads back as the
    very integers the page stored; a sample at or above 1 is stored as
    32767, one at or below -1 as -32768, and NaN as 0. *)
Theorem floatTo16BitPCM_samples (float32Array : list spec_float) :
  (exists pcm,
     page.floatTo16BitPCM float32Array = Some pcm
     /\ len pcm = 2 * len float32Array
     /\ samples_of pcm = map page.stored float32Array)
  /\ (forall x, F64.leb (F64.of_Z 1) (F64.of_f32 x) = true ->
                page.stored x = 32767)
  /\ (forall x, F64.leb (F64.of_f32 x) (F64.of_Z (-1)) = true ->
                page.stored x = -32768)
  /\ (forall x, F64.is_nan (F64.of_f32 x) = true -> page.stored x = 0).
Proof.
  split.
  { eexists. split; [apply floatTo16BitPCM_bytes|].
    split; [apply len_flat_map_le16 | apply samples_of_stored]. }
  split; [|split]; intros x; unfold page.stored;
    generalize (F64.of_f32 x); clear x; intros y Hy.
  - destruct (leb_not_nan _ _ Hy) as [_ Hn].
    pose proof (leb_not_ltb _ _ Hy) as Hl.
    assert (Hmin : page.Math_min (F64.of_Z 1) y = F64.of_Z 1).
    { unfold page.Math_min. rewrite Hn, Hl.
      destruct (F64.ltb (F64.of_Z 1) y); reflexivity. }
    unfold page.scaled. rewrite Hmin. vm_compute. reflexivity.
  - destruct (leb_not_nan _ _ Hy) as [Hn _].
    pose proof (leb_not_ltb _ _ Hy) as Hl.
    assert (Hmin : page.Math_min (F64.of_Z 1) y = y).
    { unfold page.Math_min. rewrite Hn. cbn [F64.is_nan orb].
      assert (Hlt : F64.ltb y (F64.of_Z 1) = true).
      { apply (FloatOrder.leb_ltb_trans _ _ _ Hy). vm_compute. reflexivity. }
      rewrite Hlt. reflexivity. }
    assert (Hmax : page.Math_max (F64.of_Z (-1)) y = F64.of_Z (-1)).
    { unfold page.Math_max. rewrite Hn. cbn [F64.is_nan orb].
      rewrite Hl. destruct (F64.ltb y (F64.of_Z (-1))); reflexivity. }
    unfold page.scaled. rewrite Hmin, Hmax. vm_compute. reflexivity.
  - destruct y; try discriminate Hy. vm_compute. reflexivity.
Qed.

(** X19. The header the page writes is byte for byte the header the
    encoder of the server writes for the same samples and rate; the rest
    of the view is left as it was. *)
Theorem writeWavHeader_agrees (view pcm wav : bytes) (sampleRate : Z) :
  44 <= len view ->
  Nat.even (List.length pcm) = true ->
  pcm16_to_wav_bytes pcm sampleRate = Ok wav ->
  exists v,
    page.writeWavHeader view sampleRate (len pcm / 2) = Some v
    /\ take 44 v = take 44 wav
    /\ drop 44 v = drop 44 view
    /\ wav = take 44 v ++ pcm.
Proof.
  intros Hv He Hw.
  destruct (pcm16_to_wav_bytes_inv _ _ _ Hw) as [H1 H2].
  rewrite pcm16_to_wav_bytes_ok in Hw by assumption.
  assert (E : wav = wav_header sampleRate (len pcm) ++ pcm) by congruence.
  subst wav.
  assert (Hn : len pcm / 2 * 2 = len pcm).
  { apply Nat.even_spec in He. destruct He as [k Hk].
    assert (Hk' : len pcm = Z.of_nat k * 2) by (unfold len; lia).
    rewrite Hk', Z.div_mul by lia. reflexivity. }
  exists (wav_header sampleRate (len pcm) ++ drop 44 view).
  split; [rewrite writeWavHeader_bytes by exact Hv; rewrite Hn; reflexivity|].
  split; [reflexivity|]. split; reflexivity.
Qed.

(** The body [oneShot] builds: header, samples, and the samples again. *)
Lemma oneShot_body chunks sampleRate :
  page.oneShot chunks sampleRate
  = Some ((wav_header sampleRate
             (len (flat_map (fun x => le16 (page.stored x))
                            (List.concat chunks)))
           ++ flat_map (fun x => le16 (page.stored x)) (List.concat chunks))
          ++ flat_map (fun x => le16 (page.stored x)) (List.concat chunks)).
Proof.
  unfold page.oneShot. cbv zeta.
  set (merged := List.concat chunks) in *.
  rewrite floatTo16BitPCM_bytes. cbn [page.obind].
  set (pcm := flat_map (fun x => le16 (page.stored x)) merged).
  assert (Hp : len pcm = 2 * len merged) by apply len_flat_map_le16.
  assert (H0 : 0 <= len merged) by (unfold len; lia).
  set (wav := repeat Byte.x00 (Z.to_nat (44 + len pcm))).
  assert (Hwav : len wav = 44 + len pcm).
  { unfold wav, len. rewrite repeat_length. unfold len in Hp, H0. lia. }
  rewrite writeWavHeader_bytes
    by (unfold len, bytes, byte in *; lia).
  cbn [page.obind].
  rewrite set_bytes_next
    by (try reflexivity; unfold len, bytes, byte in *; lia).
  cbn [page.obind].
  unfold drop at 1.
  rewrite skipn_all2 by (unfold len, bytes, byte in *; lia).
  rewrite app_nil_r.
  replace (len merged * 2) with (len pcm) by lia.
  reflexivity.
Qed.

Lemma take_twice (pcm : bytes) : take (len pcm) (pcm ++ pcm) = pcm.
Proof.
  unfold take, len. rewrite Nat2Z.id.
  rewrite firstn_app, Nat.sub_diag, firstn_all. cbn [firstn].
  apply app_nil_r.
Qed.

(** X20. The body [oneShot] uploads holds the samples twice, behind a
    header that announces them once; the decoder of the server returns
    each stored integer over 32768, once, with the rate of the page. *)
Theorem oneShot_decoded (chunks : list (list spec_float)) (sampleRate : Z) :
  0 <= sampleRate < 4294967296 ->
  2 * len (List.concat chunks) + 36 < 4294967296 ->
  exists body,
    page.oneShot chunks sampleRate = Some body
    /\ len body = 44 + 4 * len (List.concat chunks)
    /\ wav_bytes_to_float_np body
       = Ok (map normalize (map page.stored (List.concat chunks)),
             sampleRate).
Proof.
  intros Hsr Hlen. rewrite oneShot_body.
  set (merged := List.concat chunks) in *.
  set (pcm := flat_map (fun x => le16 (page.stored x)) merged).
  assert (Hp : len pcm = 2 * len merged) by apply len_flat_map_le16.
  assert (H0 : 0 <= len merged) by (unfold len; lia).
  eexists. split; [reflexivity|]. split.
  - rewrite !len_app. change (len (wav_header sampleRate (len pcm))) with 44.
    lia.
  - rewrite <- !app_assoc.
    rewrite wav_decode_announced.
    + rewrite take_twice. unfold pcm. rewrite samples_of_stored.
      reflexivity.
    + exact Hsr.
    + rewrite len_app. lia.
    + lia.
Qed.

(** X25. The upload of the page at the target rate: the engine is given
    each stored integer over 32768, once and not resampled, and the reply
    is 200 with the engine's segments, stripped and labelled, when their
    times are finite. *)
Theorem oneShot_transcribed (model : WhisperModel)
    (chunks : list (list spec_float)) (body : bytes)
    (segments : list EngineSegment) :
  page.oneShot chunks TARGET_SAMPLE_RATE = Some body ->
  List.concat chunks <> [] ->
  2 * len (List.concat chunks) + 36 < 4294967296 ->
  model (map normalize (map page.stored (List.concat chunks)))
  = Ok segments ->
  nan_free (segments_payload
              (assign_speakers (collect segments) (run_diarization [])))
  = true ->
  reply (transcribe (Ok model) body)
  = mkResponse 200
      (PDict [("segments"%string,
               segments_payload
                 (assign_speakers (collect segments)
                                  (run_diarization [])))]).
Proof.
  intros Hb Hne Hlen Hm Hfin. rewrite oneShot_body in Hb.
  set (merged := List.concat chunks) in *.
  set (pcm := flat_map (fun x => le16 (page.stored x)) merged) in *.
  assert (Hp : len pcm = 2 * len merged) by apply len_flat_map_le16.
  assert (H0 : 0 <= len merged) by (unfold len; lia).
  assert (E : body = (wav_header TARGET_SAMPLE_RATE (len pcm) ++ pcm) ++ pcm)
    by congruence.
  assert (Hd : wav_bytes_to_float_np body
               = Ok (map normalize (map page.stored merged),
                     TARGET_SAMPLE_RATE)).
  { rewrite E, <- !app_assoc. rewrite wav_decode_announced.
    - rewrite take_twice. unfold pcm. rewrite samples_of_stored.
      reflexivity.
    - unfold TARGET_SAMPLE_RATE. lia.
    - rewrite len_app. lia.
    - lia. }
  assert (Hnb : (len body =? 0) = false).
  { apply Z.eqb_neq. rewrite E, !len_app.
    change (len (wav_header TARGET_SAMPLE_RATE (len pcm))) with 44. lia. }
  unfold transcribe. rewrite Hnb. unfold pipeline, run_whisper.
  cbn [bind]. rewrite Hd. cbn [bind].
  destruct merged as [|x xs] eqn:Ex; [congruence|].
  replace (len (map normalize (map page.stored (x :: xs))) =? 0) with false.
  2:{ symmetry. apply Z.eqb_neq. unfold len. simpl List.length. lia. }
  replace (negb (TARGET_SAMPLE_RATE =? TARGET_SAMPLE_RATE)) with false
    by reflexivity.
  cbn [bind]. rewrite Hm. cbn [bind snd].
  change (run_diarization body) with (run_diarization []).
  unfold JSONResponse. cbn [nan_free forallb snd]. rewrite andb_true_r.
  rewrite Hfin. reflexivity.
Qed.

End Page.

Lemma oneShot_transcribed_witness :
  reply (transcribe one_word_engine
           ((wav_header 16000 2 ++ [Byte.xff; Byte.x7f])
            ++ [Byte.xff; Byte.x7f]))
  = mkResponse 200
      (PDict [("segments"%string,
               segments_payload
                 [mkSegment (F64.of_Z 0) (F64.of_Z 1) "hi"
                            (Some "SPEAKER_00"%string)])]).
Proof.
  refine (oneShot_transcribed
            (fun _ => Ok [mkEngineSegment (F64.of_Z 0) (F64.of_Z 1)
                                          (Some " hi "%string)])
            [[F32.of_Z 1]]
            ((wav_header 16000 2 ++ [Byte.xff; Byte.x7f])
             ++ [Byte.xff; Byte.x7f])
            [mkEngineSegment (F64.of_Z 0) (F64.of_Z 1)
                             (Some " hi "%string)] _ _ _ _ _).
  - vm_compute. reflexivity.
  - discriminate.
  - vm_compute. reflexivity.
  - reflexivity.
  - vm_compute. reflexivity.
Defined.

Lemma writeWavHeader_agrees_witness :
  exists v,
    page.writeWavHeader (repeat Byte.xff 46) 8000 (len [Byte.x00; Byte.x40] / 2)
    = Some v
    /\ take 44 v = take 44 (wav_header 8000 2 ++ [Byte.x00; Byte.x40])
    /\ drop 44 v = drop 44 (repeat Byte.xff 46)
    /\ wav_header 8000 2 ++ [Byte.x00; Byte.x40]
       = take 44 v ++ [Byte.x00; Byte.x40].
Proof.
  apply (writeWavHeader_agrees (repeat Byte.xff 46) [Byte.x00; Byte.x40]
           (wav_header 8000 2 ++ [Byte.x00; Byte.x40]) 8000).
  - vm_compute. discriminate.
  - reflexivity.
  - vm_compute. reflexivity.
Defined.

Lemma oneShot_decoded_witness :
  exists body,
    page.oneShot [[F32.of_Z 1]; [F32.of_Z (-1)]] 44100 = Some body
    /\ len body = 44 + 4 * len (List.concat [[F32.of_Z 1]; [F32.of_Z (-1)]])
    /\ wav_bytes_to_float_np body
       = Ok (map normalize
               (map page.stored
                  (List.concat [[F32.of_Z 1]; [F32.of_Z (-1)]])), 44100).
Proof.
  apply (oneShot_decoded [[F32.of_Z 1]; [F32.of_Z (-1)]] 44100).
  - lia.
  - vm_compute. reflexivity.
Defined.

(* ------------------------------------------------------------------ *)
(** ** The configuration the page sends *)

Section Numerals.

Variable room : positive.

Local Abbreviation str := DecimalString.NilEmpty.string_of_uint.

Lemma uint_value_acc d : forall acc : positive,
  uint_value d (Zpos acc) = Zpos (Pos.of_uint_acc d acc).
Proof.
  induction d; intros acc; cbn [uint_value Pos.of_uint_acc];
    try reflexivity;
    match goal with
    | |- uint_value _ ?z = Zpos (Pos.of_uint_acc _ ?p) =>
        replace z with (Zpos p) by lia; apply IHd
    end.
Qed.

Lemma uint_value_of_uint d : uint_value d 0 = Z.of_N (Pos.of_uint d).
Proof.
  induction d; cbn [uint_value Pos.of_uint]; try reflexivity;
    try (exact IHd);
    match goal with
    | |- uint_value _ ?z = Z.of_N (N.pos (Pos.of_uint_acc _ ?p)) =>
        change z with (Zpos p); apply uint_value_acc
    end.
Qed.

Lemma uint_value_to_uint p : uint_value (Pos.to_uint p) 0 = Zpos p.
Proof.
  rewrite uint_value_of_uint, DecimalPos.Unsigned.of_to. reflexivity.
Qed.

Lemma nzhead_head d :
  match Decimal.nzhead d with
  | Decimal.D0 _ => False
  | _ => True
  end.
Proof. induction d; cbn [Decimal.nzhead]; auto. Qed.

Lemma leading_to_uint p : leading (Pos.to_uint p) = true.
Proof.
  pose proof (DecimalPos.Unsigned.to_of (Pos.to_uint p)) as H.
  rewrite DecimalPos.Unsigned.of_to in H. cbn [N.to_uint] in H.
  pose proof (DecimalPos.Unsigned.to_uint_nonzero p) as Hz.
  pose proof (nzhead_head (Pos.to_uint p)) as Hh.
  unfold Decimal.unorm in H.
  destruct (Decimal.nzhead (Pos.to_uint p)) eqn:E;
    try (rewrite H; reflexivity); contradiction.
Qed.

Lemma uint_value_lower d : forall acc,
  0 <= acc -> acc * 10 ^ Z.of_nat (Decimal.nb_digits d) <= uint_value d acc.
Proof.
  induction d; intros acc Hacc; cbn [uint_value Decimal.nb_digits];
    try (rewrite Z.pow_0_r; lia);
    rewrite Nat2Z.inj_succ, Z.pow_succ_r by lia;
    (eapply Z.le_trans; [|apply IHd; lia]);
    pose proof (Z.pow_pos_nonneg 10 (Z.of_nat (Decimal.nb_digits d))
                  ltac:(lia) ltac:(lia));
    nia.
Qed.

(** A numeral below 10^21 has at most 21 digits. *)
Lemma nb_digits_to_uint p :
  Zpos p < 10 ^ 21 -> Z.of_nat (Decimal.nb_digits (Pos.to_uint p)) <= 21.
Proof.
  intros Hp.
  pose proof (uint_value_to_uint p) as Hv.
  pose proof (leading_to_uint p) as Hl.
  destruct (Pos.to_uint p) as [|d|d|d|d|d|d|d|d|d|d]; try discriminate Hl;
    cbn [uint_value Decimal.nb_digits] in *;
    rewrite Nat2Z.inj_succ;
    (assert (Hlow : 1 * 10 ^ Z.of_nat (Decimal.nb_digits d) <= Zpos p)
       by (rewrite <- Hv;
           eapply Z.le_trans; [|apply uint_value_lower; lia];
           pose proof (Z.pow_pos_nonneg 10 (Z.of_nat (Decimal.nb_digits d))
                         ltac:(lia) ltac:(lia));
           nia));
    (assert (Hlt : Z.of_nat (Decimal.nb_digits d) < 21)
       by (apply (Z.pow_lt_mono_r_iff 10); lia));
    lia.
Qed.

Lemma digit_val_not s :
  match s with
  | String c _ => json.digit_val c = None
  | EmptyString => True
  end ->
  forall acc n, json.digits s acc n = (acc, n, s).
Proof.
  intros H acc n. destruct s as [|c s]; [reflexivity|].
  cbn [json.digits]. rewrite H. reflexivity.
Qed.

(** The digit run of a numeral, up to a text that starts with no
    digit. *)
Lemma digits_numeral d : forall rest acc n,
  match rest with
  | String c _ => json.digit_val c = None
  | EmptyString => True
  end ->
  json.digits (String.append (str d) rest) acc n
  = (uint_value d acc, n + Z.of_nat (Decimal.nb_digits d), rest).
Proof.
  induction d; intros rest acc n Hr;
    cbn [DecimalString.NilEmpty.string_of_uint String.append uint_value
         Decimal.nb_digits];
    try (rewrite Nat2Z.inj_succ;
         cbn [json.digits];
         match goal with
         | |- context [json.digit_val ?c] =>
             let v := eval vm_compute in (json.digit_val c) in
             change (json.digit_val c) with v
         end;
         cbv iota beta; rewrite IHd by exact Hr;
         apply (f_equal2 pair);
         [apply (f_equal2 pair); [f_equal; lia | lia] | reflexivity]).
  rewrite digit_val_not by exact Hr.
  apply (f_equal2 pair); [apply (f_equal2 pair); [reflexivity | ] |];
    [cbn [Z.of_nat]; lia | reflexivity].
Qed.

Lemma sign_part_numeral d rest :
  leading d = true ->
  json.sign_part (String.append (str d) rest)
  = (false, String.append (str d) rest).
Proof. destruct d; try discriminate; reflexivity. Qed.

Lemma int_part_numeral d rest :
  leading d = true ->
  json.int_part (String.append (str d) rest)
  = Some (json.digits (String.append (str d) rest) 0 0).
Proof. destruct d; try discriminate; reflexivity. Qed.

Lemma number_numeral d :
  leading d = true -> Z.of_nat (Decimal.nb_digits d) <= 4300 ->
  json.number (String.append (str d) "}")
  = Some (Ok (PInt (uint_value d 0)), "}"%string).
Proof.
  intros Hl Hn. unfold json.number.
  rewrite sign_part_numeral, int_part_numeral by exact Hl.
  rewrite digits_numeral by reflexivity.
  change (json.frac_part "}") with (0, 0, "}"%string).
  change (json.exp_part "}") with (@None Z, "}"%string).
  cbv iota beta.
  change ((0 =? 0) && true) with true. cbv iota.
  replace (json.MAX_STR_DIGITS <? 0 + Z.of_nat (Decimal.nb_digits d))
    with false.
  - reflexivity.
  - symmetry. apply Z.ltb_ge. unfold json.MAX_STR_DIGITS. lia.
Qed.

Lemma drop_prefix_numeral p d rest :
  match p with
  | String c _ => json.digit_val c = None
  | EmptyString => False
  end ->
  leading d = true ->
  drop_prefix p (String.append (str d) rest) = None.
Proof.
  intros Hp Hl. destruct p as [|c p]; [contradiction|].
  destruct d; try discriminate Hl;
    cbn [DecimalString.NilEmpty.string_of_uint String.append drop_prefix];
    match goal with
    | |- context [Ascii.eqb c ?k] =>
        destruct (Ascii.eqb c k) eqn:E; [|reflexivity];
        apply Ascii.eqb_eq in E; subst c; discriminate Hp
    end.
Qed.

Lemma scalar_numeral d :
  leading d = true -> Z.of_nat (Decimal.nb_digits d) <= 4300 ->
  json.scalar (String.append (str d) "}")
  = Ok (PInt (uint_value d 0), "}"%string).
Proof.
  intros Hl Hn. unfold json.scalar.
  rewrite !drop_prefix_numeral by (try exact Hl; reflexivity).
  rewrite number_numeral by assumption. reflexivity.
Qed.

Lemma scan_once_numeral d fuel k :
  leading d = true -> Z.of_nat (Decimal.nb_digits d) <= 4300 ->
  json.scan_once (S fuel) k (String.append (str d) "}")
  = Ok (PInt (uint_value d 0), "}"%string).
Proof.
  intros Hl Hn.
  assert (Hhead : match String.append (str d) "}" with
                  | String c _ =>
                      Ascii.eqb c "034" = false /\ Ascii.eqb c "{" = false
                      /\ Ascii.eqb c "[" = false
                  | EmptyString => False
                  end)
    by (destruct d; try discriminate Hl; repeat split).
  pose proof (scalar_numeral d Hl Hn) as Hs.
  rewrite scan_once_S.
  destruct (String.append (str d) "}") as [|c t]; [contradiction|].
  destruct Hhead as (-> & -> & ->). exact Hs.
Qed.

Lemma skip_ws_numeral d :
  json.skip_ws (String.append (str d) "}") = String.append (str d) "}".
Proof. destruct d; reflexivity. Qed.

Lemma string_literal_type tail :
  json.string_literal
    (String "t" (String "y" (String "p" (String "e" (String "034" tail)))))
  = Some ("type"%string, tail).
Proof. reflexivity. Qed.

Lemma string_literal_config tail :
  json.string_literal
    (String "c" (String "o" (String "n" (String "f" (String "i"
       (String "g" (String "034" tail)))))))
  = Some ("config"%string, tail).
Proof. reflexivity. Qed.

Lemma string_literal_sampleRate tail :
  json.string_literal
    (String "s" (String "a" (String "m" (String "p" (String "l"
       (String "e" (String "R" (String "a" (String "t" (String "e"
          (String "034" tail)))))))))))
  = Some ("sampleRate"%string, tail).
Proof. reflexivity. Qed.

Ltac json_step :=
  cbv iota beta;
  cbn [Ascii.eqb Bool.eqb andb json.skip_ws json.is_ws bind].

(** [json.loads] on the configuration message of a numeral. *)
Lemma loads_config d :
  leading d = true -> Z.of_nat (Decimal.nb_digits d) <= 4300 ->
  json.loads room (config_text (str d))
  = Ok (PDict [("type"%string, PStr "config");
               ("sampleRate"%string, PInt (uint_value d 0))]).
Proof.
  intros Hl Hn.
  rewrite <- (loads_fuel_enough room _ (8 + 2 * String.length
                                                 (config_text (str d))))
    by lia.
  unfold json.loads_fuel.
  destruct (Pos2Nat.is_succ room) as [k ->].
  cbn [config_text quoted dquote String.append].
  match goal with |- context [drop_prefix ?p ?s] =>
    change (drop_prefix p s) with (@None string) end.
  cbv iota. cbn [Nat.add json.skip_ws json.is_ws].
  rewrite scan_once_S. json_step.
  rewrite object_items_S, string_literal_type. json_step.
  rewrite scan_once_S. json_step.
  rewrite string_literal_config. json_step.
  rewrite object_items_S, string_literal_sampleRate. json_step.
  rewrite skip_ws_numeral, scan_once_numeral by assumption. json_step.
  cbn [dict_set String.eqb Ascii.eqb Bool.eqb andb].
  reflexivity.
Qed.

Lemma contains_sampleRate rate :
  contains "sampleRate" (config_text rate) = true.
Proof. reflexivity. Qed.

(** The rate a configuration message of the page declares. *)
Lemma configure_stringify p sr :
  Zpos p < 10 ^ 21 ->
  configure room (config_text (page.stringify p)) sr = Zpos p.
Proof.
  intros Hp. unfold configure, page.stringify.
  rewrite loads_config.
  - cbn [bind dict_get String.eqb Ascii.eqb Bool.eqb andb py_int].
    rewrite uint_value_to_uint. reflexivity.
  - apply leading_to_uint.
  - pose proof (nb_digits_to_uint p Hp). lia.
Qed.

End Numerals.

Section Handshake.

Variable get_whisper : result WhisperModel.
Variable send_text : pyval -> result unit.
Variable room : positive.

(** X21. The configuration message of the page, whose sampleRate is a
    positive integer written in decimal, sets the declared rate to that
    integer. *)
Theorem ws_config_numeral (rate : positive) (rest : list Event)
    (pcm : bytes) (sr : Z) :
  Zpos rate < 10 ^ 21 ->
  configure room (config_text (page.stringify rate)) sr = Zpos rate
  /\ ws_loop get_whisper send_text room
       (text_frame (config_text (page.stringify rate)) :: rest) pcm sr
     = ws_loop get_whisper send_text room rest pcm (Zpos rate).
Proof.
  intros Hp.
  pose proof (configure_stringify room rate sr Hp) as Hc.
  split; [exact Hc|].
  unfold text_frame. cbn [ws_loop m_bytes m_text].
  assert (Hs : exists c t, config_text (page.stringify rate) = String c t)
    by (eexists; eexists; reflexivity).
  destruct Hs as (c & t & Hs).
  pose proof (contains_sampleRate (page.stringify rate)) as Hk.
  rewrite Hs in *. rewrite Hk, Hc. reflexivity.
Qed.

Lemma session_frames blocks :
  exists frames,
    fold_right (fun block acc =>
                  page.obind (page.floatTo16BitPCM block) (fun pcm =>
                  page.obind acc (fun rest =>
                  Some (Receive (mkMessage (Some pcm) None) :: rest))))
               (Some []) blocks = Some frames
    /\ forall rest pcm sr,
         ws_loop get_whisper send_text room (frames ++ rest) pcm sr
         = ws_loop get_whisper send_text room rest
             (pcm ++ flat_map (fun x => le16 (page.stored x))
                              (List.concat blocks)) sr.
Proof.
  induction blocks as [|block blocks (frames & Hf & Hrun)].
  - exists []. split; [reflexivity|]. intros rest pcm sr.
    cbn [List.concat flat_map app]. rewrite app_nil_r. reflexivity.
  - cbn [fold_right]. rewrite floatTo16BitPCM_bytes, Hf.
    cbn [page.obind]. eexists. split; [reflexivity|].
    intros rest pcm sr. cbn [List.concat]. rewrite flat_map_app.
    cbn [app ws_loop m_bytes m_text].
    destruct (flat_map (fun x => le16 (page.stored x)) block) as [|b bs].
    + rewrite Hrun. reflexivity.
    + rewrite Hrun, app_assoc. reflexivity.
Qed.

(** X22. The frames a recording of the page sends (its configuration,
    one binary frame per block, the token end) bring the server to the
    final processing of the samples the page stored, in their order, at
    the rate of the page; and when the encoder accepts that buffer, the
    decoder gives each stored integer over 32768 at that rate. *)
Theorem page_session (rate : positive) (blocks : list (list spec_float)) :
  Zpos rate < 10 ^ 21 ->
  exists events pcm,
    page.session rate blocks = Some events
    /\ samples_of pcm = map page.stored (List.concat blocks)
    /\ ws_loop get_whisper send_text room events [] 16000
       = finalize get_whisper send_text pcm (Zpos rate)
    /\ (forall wav, pcm16_to_wav_bytes pcm (Zpos rate) = Ok wav ->
          wav_bytes_to_float_np wav
          = Ok (map normalize (map page.stored (List.concat blocks)),
                Zpos rate)).
Proof.
  intros Hp. unfold page.session.
  destruct (session_frames blocks) as (frames & Hf & Hrun).
  rewrite Hf. cbn [page.obind].
  eexists. exists (flat_map (fun x => le16 (page.stored x))
                            (List.concat blocks)).
  split; [reflexivity|]. split; [apply samples_of_stored|]. split.
  - pose proof (configure_stringify room rate 16000 Hp) as Hc.
    pose proof (contains_sampleRate (page.stringify rate)) as Hk.
    assert (Hs : exists c t, config_text (page.stringify rate) = String c t)
      by (eexists; eexists; reflexivity).
    destruct Hs as (c & t & Hs).
    cbn [ws_loop m_bytes m_text]. rewrite Hs in *. rewrite Hk, Hc.
    rewrite Hrun. reflexivity.
  - intros wav Hw.
    destruct (pcm16_to_wav_bytes_inv _ _ _ Hw) as [H1 H2].
    rewrite pcm16_to_wav_bytes_ok in Hw by assumption.
    assert (E : wav = wav_header (Zpos rate)
                        (len (flat_map (fun x => le16 (page.stored x))
                                       (List.concat blocks)))
                      ++ flat_map (fun x => le16 (page.stored x))
                                  (List.concat blocks)) by congruence.
    rewrite E, wav_decode_canonical by (try lia; assumption).
    rewrite samples_of_stored. reflexivity.
Qed.

End Handshake.

Lemma ws_config_numeral_witness :
  configure default_room (config_text (page.stringify 44100)) 16000 = 44100.
Proof.
  refine (proj1 (ws_config_numeral deaf_engine open_transport default_room
                   44100%positive [] [] 16000 _)).
  reflexivity.
Defined.

Lemma page_session_witness :
  exists events pcm,
    page.session 48000 [[F32.of_Z 1]] = Some events
    /\ samples_of pcm = map page.stored (List.concat [[F32.of_Z 1]])
    /\ ws_loop deaf_engine open_transport default_room events [] 16000
       = finalize deaf_engine open_transport pcm 48000
    /\ (forall wav, pcm16_to_wav_bytes pcm 48000 = Ok wav ->
          wav_bytes_to_float_np wav
          = Ok (map normalize
                  (map page.stored (List.concat [[F32.of_Z 1]])), 48000)).
Proof.
  apply (page_session deaf_engine open_transport default_room 48000%positive
           [[F32.of_Z 1]]).
  reflexivity.
Defined.

(* ------------------------------------------------------------------ *)
(** ** The model loaders *)

Section LoaderCache.

Variable Pipeline : Type.
Variable WhisperModel_new : string -> result WhisperModel.
Variable from_pretrained : string -> string -> result (option Pipeline).
Variable has_pyannote : bool.

Local Abbreviation get_whisper :=
  (loaders.get_whisper Pipeline WhisperModel_new).
Local Abbreviation get_pyannote :=
  (loaders.get_pyannote Pipeline from_pretrained has_pyannote).
Local Abbreviation whisper_calls :=
  (loaders.whisper_calls Pipeline WhisperModel_new).
Local Abbreviation pyannote_calls :=
  (loaders.pyannote_calls Pipeline from_pretrained has_pyannote).

Lemma whisper_cached environs : forall g model,
  loaders._whisper_model Pipeline g = Some model ->
  Forall (fun r => r = Ok model) (whisper_calls environs g).
Proof.
  induction environs as [|environ environs IH]; intros g model Hg;
    [constructor|].
  cbn [loaders.whisper_calls]. unfold loaders.get_whisper. rewrite Hg.
  constructor; [reflexivity|]. apply IH. exact Hg.
Qed.

(** X23. However the environment changes between calls, [get_whisper]
    builds at most one model: from the first call that returns on, every
    call returns that same model, and a call that raises leaves nothing
    behind, so that the next one tries again with the name it then
    finds, tiny when WHISPER_MODEL is not set. *)
Theorem get_whisper_once (environs : list (list (string * string)))
    (g : loaders.Globals Pipeline) :
  (forall before model after,
     whisper_calls environs g = before ++ Ok model :: after ->
     Forall (fun r => r = Ok model) after)
  /\ (forall environ e g',
        get_whisper environ g = (Raise e, g') ->
        g' = g
        /\ WhisperModel_new
             match loaders.environ_get environ "WHISPER_MODEL" with
             | Some v => v
             | None => "tiny"%string
             end = Raise e).
Proof.
  split.
  - revert g. induction environs as [|environ environs IH];
      intros g before model after H.
    + destruct before; discriminate H.
    + cbn [loaders.whisper_calls] in H.
      destruct (get_whisper environ g) as [r g'] eqn:Eg.
      destruct before as [|b before]; cbn [app] in H.
      * injection H as Hr Ha. subst r after.
        apply whisper_cached.
        unfold loaders.get_whisper in Eg.
        destruct (loaders._whisper_model Pipeline g) as [m|] eqn:Em.
        -- injection Eg as Hm Hg'. subst g'. congruence.
        -- destruct (WhisperModel_new _) as [m|e]; [|discriminate Eg].
           injection Eg as Hm Hg'. subst g'. cbn. congruence.
      * injection H as _ Ha. eapply IH. exact Ha.
  - intros environ e g' H. unfold loaders.get_whisper in H.
    destruct (loaders._whisper_model Pipeline g) as [m|]; [discriminate H|].
    destruct (WhisperModel_new _) as [m|e0] eqn:En; [discriminate H|].
    injection H as He Hg. subst. split; reflexivity.
Qed.

Lemma pyannote_cached environs : forall g p,
  loaders._pyannote Pipeline g = Some p ->
  Forall (fun r => r = Some p) (pyannote_calls environs g).
Proof.
  induction environs as [|environ environs IH]; intros g p Hg;
    [constructor|].
  cbn [loaders.pyannote_calls]. unfold loaders.get_pyannote. rewrite Hg.
  constructor; [reflexivity|]. apply IH. exact Hg.
Qed.

(** X24. [get_pyannote] lets no exception of the library through
    ([except Exception]); once it has returned a pipeline
    every later call returns the same one; and while none is kept it
    returns [None] without calling the library when the import failed or
    HF_TOKEN is missing or empty, and keeps nothing when the library
    raises. *)
Theorem get_pyannote_once (environs : list (list (string * string)))
    (g : loaders.Globals Pipeline) :
  (forall before p after,
     pyannote_calls environs g = before ++ Some p :: after ->
     Forall (fun r => r = Some p) after)
  /\ (forall environ,
        loaders._pyannote Pipeline g = None ->
        has_pyannote = false
        \/ loaders.environ_get environ "HF_TOKEN" = None
        \/ loaders.environ_get environ "HF_TOKEN" = Some EmptyString
        \/ (exists token e,
              loaders.environ_get environ "HF_TOKEN" = Some token
              /\ from_pretrained "pyannote/speaker-diarization-3.1" token
                 = Raise e) ->
        get_pyannote environ g = (None, g)).
Proof.
  split.
  - revert g. induction environs as [|environ environs IH];
      intros g before p after H.
    + destruct before; discriminate H.
    + cbn [loaders.pyannote_calls] in H.
      destruct (get_pyannote environ g) as [r g'] eqn:Eg.
      destruct before as [|b before]; cbn [app] in H.
      * injection H as Hr Ha. subst r after.
        apply pyannote_cached.
        unfold loaders.get_pyannote in Eg.
        destruct (loaders._pyannote Pipeline g) as [q|] eqn:Eq.
        -- injection Eg as Hq Hg'. subst g'. congruence.
        -- destruct (negb has_pyannote); [discriminate Eg|].
           destruct (loaders.environ_get environ "HF_TOKEN") as [[|c t]|];
             try discriminate Eg.
           destruct (from_pretrained _ _) as [q|e]; [|discriminate Eg].
           injection Eg as Hq Hg'. subst g'. cbn. congruence.
      * injection H as _ Ha. eapply IH. exact Ha.
  - intros environ Hg H. unfold loaders.get_pyannote. rewrite Hg.
    destruct H as [H | [H | [H | (token & e & H1 & H2)]]].
    + rewrite H. reflexivity.
    + destruct (negb has_pyannote); [reflexivity|]. rewrite H. reflexivity.
    + destruct (negb has_pyannote); [reflexivity|]. rewrite H. reflexivity.
    + destruct (negb has_pyannote); [reflexivity|]. rewrite H1.
      destruct token; [reflexivity|]. rewrite H2. reflexivity.
Qed.

End LoaderCache.
